(** * Dev Orchestrator: port allocation and project registry

    A shallow embedding of [src/core/models.py], [src/core/port_manager.py],
    [src/core/project_registry.py] and the status aggregation of
    [src/core/process_controller.py], together with the properties of the
    engine that the specification states (C1 to C10) and further properties
    read off the code (X1 to X30).

    Conventions of the embedding.
    - Python [dict]s are [gmap]s; iteration follows the map's enumeration
      ([map_to_list]), the engine's results being order-insensitive.
    - The keys of [allocated] are the strings [str(port)]: the code
      converts with [str] on every write and membership test and with [int]
      on every read-back.  The map is keyed here by the port it spells.
    - Stateful code lives in a state-and-exception monad over [World], which
      holds the registry file, the backup directory and the two in-memory
      registries ([ProjectRegistry._registry] and [PortManager._registry]).
    - A string is the sequence of the bytes of its UTF-8 encoding.
    - A registry file holds a document that [to_dict] wrote: every key is
      present.  Documents with keys left out, for which [from_dict] would
      substitute defaults (for the two timestamps of the metadata, a reading
      of the clock), are outside the model.
    - What the system answers during one call of the engine (TCP probe,
      clock, path tests, whether the registry file can be opened for
      writing) and what the interpreter provides ([str.lower], the
      attributes of an object) is read from an [Env].  The clock is read
      anew at every place of the code that reads it: [now] gives the reading
      for each such place, and within one call of the engine each place is
      passed at most once. *)

From Stdlib Require Import ZArith QArith Ascii.
From stdpp Require Import base option list gmap fin_maps strings pretty sorting.

Local Open Scope Z_scope.

(** ** Characters and strings *)

Definition code (c : ascii) : N := N_of_ascii c.

Definition is_lower (c : ascii) : bool := ((97 <=? code c) && (code c <=? 122))%N.
Definition is_upper (c : ascii) : bool := ((65 <=? code c) && (code c <=? 90))%N.
Definition is_digit (c : ascii) : bool := ((48 <=? code c) && (code c <=? 57))%N.
Definition is_alpha (c : ascii) : bool := is_lower c || is_upper c.

Definition lower_char (c : ascii) : ascii :=
  if is_upper c then ascii_of_N (code c + 32) else c.
Definition upper_char (c : ascii) : ascii :=
  if is_lower c then ascii_of_N (code c - 32) else c.

Fixpoint map_string (f : ascii → ascii) (s : string) : string :=
  match s with
  | EmptyString => EmptyString
  | String c s' => String (f c) (map_string f s')
  end.

(** [str.lower()] on ASCII text.  The engine lowers arbitrary text with
    the interpreter's tables, [str_lower] of the environment; this function
    is what they give on ASCII text, and serves the sample environments. *)
Definition ascii_lower (s : string) : string := map_string lower_char s.

(** [str.replace(old, new)] for one-character [old] and [new]. *)
Definition replace_char (old new : ascii) (s : string) : string :=
  map_string (λ c, if Ascii.eqb c old then new else c) s.

(** [str.title()] on ASCII text, which the names of projects are: a letter
    that follows a letter is lowered, any other letter is raised. *)
Fixpoint title_from (prev_cased : bool) (s : string) : string :=
  match s with
  | EmptyString => EmptyString
  | String c s' =>
      String (if prev_cased then lower_char c else upper_char c)
             (title_from (is_alpha c) s')
  end.
Definition title (s : string) : string := title_from false s.

(** [sub in s] on strings. *)
Fixpoint contains (sub s : string) : bool :=
  String.prefix sub s ||
  match s with
  | EmptyString => false
  | String _ s' => contains sub s'
  end.

(** [s.endswith(p)]: some suffix of [s] is [p]. *)
Fixpoint endswith (p s : string) : bool :=
  bool_decide (s = p) ||
  match s with
  | EmptyString => false
  | String _ s' => endswith p s'
  end.

(** What is left of [s] after the prefix [p], when [s] starts with [p]. *)
Fixpoint strip_prefix (p s : string) : option string :=
  match p, s with
  | EmptyString, _ => Some s
  | String a p', String b s' =>
      if Ascii.eqb a b then strip_prefix p' s' else None
  | String _ _, EmptyString => None
  end.

(** [re.match(r'^[a-z][a-z0-9-]*$', s)]: [$] matches at the end of the
    string and also just before a newline that ends it. *)
Definition is_name_char (c : ascii) : bool :=
  is_lower c || is_digit c || Ascii.eqb c "-".

Fixpoint match_name_tail (s : string) : bool :=
  match s with
  | EmptyString => true
  | String c s' =>
      if is_name_char c then match_name_tail s'
      else Ascii.eqb c "010" && bool_decide (s' = EmptyString)
  end.

Definition match_name (s : string) : bool :=
  match s with
  | EmptyString => false
  | String c s' => is_lower c && match_name_tail s'
  end.

(** ** Clock *)

Record datetime := mk_datetime {
  year : Z; month : Z; day : Z;
  hour : Z; minute : Z; second : Z; microsecond : Z
}.

(** Left padding with zeros, as [%02d] does. *)
Definition zfill (width : nat) (s : string) : string :=
  String.string_of_list_ascii
    (replicate (width - String.length s) "0"%char) +:+ s.

(** [strftime("%Y%m%d_%H%M%S")] *)
Definition strftime_stamp (t : datetime) : string :=
  zfill 4 (pretty (year t)) +:+ zfill 2 (pretty (month t)) +:+
  zfill 2 (pretty (day t)) +:+ "_" +:+ zfill 2 (pretty (hour t)) +:+
  zfill 2 (pretty (minute t)) +:+ zfill 2 (pretty (second t)).

(** [isoformat()] *)
Definition isoformat (t : datetime) : string :=
  zfill 4 (pretty (year t)) +:+ "-" +:+ zfill 2 (pretty (month t)) +:+ "-" +:+
  zfill 2 (pretty (day t)) +:+ "T" +:+ zfill 2 (pretty (hour t)) +:+ ":" +:+
  zfill 2 (pretty (minute t)) +:+ ":" +:+ zfill 2 (pretty (second t)) +:+
  (if bool_decide (microsecond t = 0) then ""
   else "." +:+ zfill 6 (pretty (microsecond t))).

(** ** Data model ([models.py]) *)

Record HealthCheck := mk_HealthCheck {
  hc_path : string;
  hc_timeout : Z
}.

Record ServiceConfig := mk_ServiceConfig {
  enabled : bool;
  port : option Z;
  command : string;
  cwd : option string;
  env : gmap string string;
  health_check : option HealthCheck
}.

Record Project := mk_Project {
  name : string;
  path : string;
  display_name : option string;
  description : option string;
  frontend : option ServiceConfig;
  backend : option ServiceConfig;
  env_vars : gmap string string;
  dependencies : list string;
  tags : list string;
  created_at : string;
  updated_at : string;
  notes : option string
}.

Record PortRange := mk_PortRange {
  range_start : Z;
  range_end : Z;
  reserved : list Z
}.

Record PortAllocation := mk_PortAllocation {
  frontend_range : PortRange;
  backend_range : PortRange;
  allocated : gmap Z string
}.

Record Settings := mk_Settings {
  auto_generate_env : bool;
  env_file_name : string;
  pm2_ecosystem_path : string;
  log_retention_days : Z;
  health_check_interval : Z;
  dashboard_port : Z;
  default_tags : list string
}.

Record Metadata := mk_Metadata {
  meta_created_at : string;
  last_modified : string;
  last_modified_by : string;
  total_projects : Z;
  active_projects : Z
}.

(** [models.ProjectRegistry], imported elsewhere as [RegistryModel]. *)
Record RegistryModel := mk_RegistryModel {
  version : string;
  projects : gmap string Project;
  port_allocation : PortAllocation;
  settings : Settings;
  metadata : Metadata
}.

(** Field assignments used by the engine. *)
Definition set_allocated (a : gmap Z string) (r : RegistryModel) : RegistryModel :=
  mk_RegistryModel (version r) (projects r)
    (mk_PortAllocation (frontend_range (port_allocation r))
                       (backend_range (port_allocation r)) a)
    (settings r) (metadata r).

Definition set_projects (ps : gmap string Project) (r : RegistryModel) : RegistryModel :=
  mk_RegistryModel (version r) ps (port_allocation r) (settings r) (metadata r).

Definition set_metadata (m : Metadata) (r : RegistryModel) : RegistryModel :=
  mk_RegistryModel (version r) (projects r) (port_allocation r) (settings r) m.

(** ** Exceptions, environment, state *)

Inductive Error :=
| ProjectExistsError
| ProjectNotFoundError
| InvalidPathError
| PortExhaustedError
| ValueError
| ZeroDivisionError
| OverflowError
| TypeError
| AttributeError
| OSError
| PM2Error.

Inductive Outcome (A : Type) :=
| Returns (a : A)
| Raises (e : Error).
Arguments Returns {A} a.
Arguments Raises {A} e.

(** Which of the two objects loads the registry. *)
Inductive Holder := directory | port_manager.

(** The places of the code that read the clock. *)
Inductive Reading :=
| default_created_at (who : Holder)    (* Metadata(): created_at, in a load without file *)
| default_last_modified (who : Holder) (* Metadata(): last_modified, in a load without file *)
| project_created_at                   (* Project(...): created_at, in register_project *)
| project_updated_at                   (* Project(...): updated_at, in register_project *)
| update_stamp                         (* update_project: project.updated_at *)
| save_stamp                           (* ProjectRegistry.save: metadata.last_modified *)
| backup_stamp.                        (* _create_backup: the name of the backup *)

Record Env := mk_Env {
  connects : Z → bool;             (* connect_ex(("localhost", port)) == 0, for a
                                      port the socket layer accepts *)
  now : Reading → datetime;        (* datetime.now(), at each place that reads it *)
  path_exists : string → bool;     (* Path(p).exists() *)
  path_is_dir : string → bool;     (* Path(p).is_dir() *)
  path_absolute : string → string; (* str(Path(p).absolute()) *)
  can_write : bool;                (* open(registry_path, "w") succeeds *)
  str_lower : string → string;     (* s.lower(), by the interpreter's case tables *)
  has_attribute : string → bool    (* hasattr(project, k) for the special
                                      attributes that depend on the interpreter
                                      (__doc__, __eq__, __match_args__, ...) *)
}.

Record World := mk_World {
  file : option RegistryModel;          (* data_dir/projects.json *)
  backup_dir : gmap string RegistryModel; (* data_dir/backups: file name to content *)
  env_files : gmap string (list string);  (* generated environment files, by path *)
  pr_registry : option RegistryModel;   (* ProjectRegistry._registry *)
  pm_registry : option RegistryModel    (* PortManager._registry *)
}.

Definition set_file (f : option RegistryModel) (w : World) : World :=
  mk_World f (backup_dir w) (env_files w) (pr_registry w) (pm_registry w).
Definition set_backup_dir (b : gmap string RegistryModel) (w : World) : World :=
  mk_World (file w) b (env_files w) (pr_registry w) (pm_registry w).
Definition set_env_files (e : gmap string (list string)) (w : World) : World :=
  mk_World (file w) (backup_dir w) e (pr_registry w) (pm_registry w).
Definition set_pr_registry (r : option RegistryModel) (w : World) : World :=
  mk_World (file w) (backup_dir w) (env_files w) r (pm_registry w).
Definition set_pm_registry (r : option RegistryModel) (w : World) : World :=
  mk_World (file w) (backup_dir w) (env_files w) (pr_registry w) r.

(** [s.lower()]: there is nothing to lower in the empty string; any other
    text is lowered by the interpreter's case tables. *)
Definition lower (E : Env) (s : string) : string :=
  match s with
  | EmptyString => EmptyString
  | String _ _ => str_lower E s
  end.

(** The monad: a computation runs from a state and either returns or raises,
    leaving a state in both cases. *)
Definition M (S A : Type) : Type := S → Outcome A * S.

Global Instance M_ret {S} : MRet (M S) := λ A a s, (Returns a, s).
Global Instance M_bind {S} : MBind (M S) := λ A B f m s,
  match m s with
  | (Returns a, s') => f a s'
  | (Raises e, s') => (Raises e, s')
  end.

Definition raise {S A} (e : Error) : M S A := λ s, (Raises e, s).
Definition of_outcome {S A} (o : Outcome A) : M S A := λ s, (o, s).
Definition get_state {S} : M S S := λ s, (Returns s, s).
Definition modify_state {S} (f : S → S) : M S unit := λ s, (Returns tt, f s).

(** [try: body  except Exception as e: handler; raise e] *)
Definition try_reraise {S A} (body : M S A) (handler : M S unit) : M S A := λ s,
  match body s with
  | (Returns a, s') => (Returns a, s')
  | (Raises e, s') =>
      match handler s' with
      | (Returns _, s'') => (Raises e, s'')
      | (Raises e', s'') => (Raises e', s'')
      end
  end.

(** A block with a local variable of type [L]. *)
Definition with_local {S L A} (init : L) (m : M (S * L) A) : M S A := λ s,
  let '(o, (s', _)) := m (s, init) in (o, s').
Definition outer {S L A} (m : M S A) : M (S * L) A := λ '(s, l),
  let '(o, s') := m s in (o, (s', l)).
Definition get_local {S L} : M (S * L) L := λ '(s, l), (Returns l, (s, l)).
Definition modify_local {S L} (f : L → L) : M (S * L) unit := λ '(s, l),
  (Returns tt, (s, f l)).

(** ** Construction, loading and saving ([models.py]) *)

(** [if not self.display_name: self.display_name = ...] *)
Definition fill_display_name (p : Project) : Project :=
  match display_name p with
  | Some (String _ _) => p
  | _ =>
      mk_Project (name p) (path p)
        (Some (title (replace_char "-" " " (name p))))
        (description p) (frontend p) (backend p) (env_vars p)
        (dependencies p) (tags p) (created_at p) (updated_at p) (notes p)
  end.

(** [Project.__post_init__], run by every [Project(...)]. *)
Definition __post_init__ (p : Project) : Outcome Project :=
  if match_name (name p) then Returns (fill_display_name p)
  else Raises ValueError.

(** [PortAllocation()], [Settings()] and [Metadata()] with their defaults. *)
Definition default_port_allocation : PortAllocation :=
  mk_PortAllocation (mk_PortRange 3000 3099 [3000])
                    (mk_PortRange 8000 8099 [8501]) ∅.
Definition default_settings : Settings :=
  mk_Settings true ".env.local" "./ecosystem.config.js" 7 60 8501 ["local"].
Definition default_metadata (E : Env) (who : Holder) : Metadata :=
  mk_Metadata (isoformat (now E (default_created_at who)))
              (isoformat (now E (default_last_modified who))) "system" 0 0.
Definition default_registry (E : Env) (who : Holder) : RegistryModel :=
  mk_RegistryModel "1.0.0" ∅ default_port_allocation default_settings
                   (default_metadata E who).

(** [ProjectRegistry.from_dict]: the document is held as the aggregate that
    [to_dict] wrote; decoding builds every project anew with [Project(...)],
    so a stored name that does not match the pattern raises. *)
Definition from_dict (doc : RegistryModel) : Outcome RegistryModel :=
  if bool_decide (map_Forall (λ _ p, match_name (name p) = true) (projects doc))
  then Returns (set_projects (fill_display_name <$> projects doc) doc)
  else Raises ValueError.

(** [ProjectRegistry.load(path)], called by [who]. *)
Definition load (E : Env) (who : Holder) (f : option RegistryModel)
  : Outcome RegistryModel :=
  match f with
  | None => Returns (default_registry E who)
  | Some doc => from_dict doc
  end.

(** [ProjectRegistry.save(self, path)]: replaces the whole document. *)
Definition model_save (E : Env) (r : RegistryModel) : M World unit := λ w,
  if can_write E then (Returns tt, set_file (Some r) w)
  else (Raises OSError, w).

(** ** Port manager ([port_manager.py]) *)

Module PortManager.

(** The lazily loaded [registry] property. *)
Definition registry (E : Env) : M World RegistryModel := λ w,
  match pm_registry w with
  | Some r => (Returns r, w)
  | None =>
      match load E port_manager (file w) with
      | Returns r => (Returns r, set_pm_registry (Some r) w)
      | Raises e => (Raises e, w)
      end
  end.

Definition reload (E : Env) : M World unit := λ w,
  match load E port_manager (file w) with
  | Returns r => (Returns tt, set_pm_registry (Some r) w)
  | Raises e => (Raises e, w)
  end.

Definition save (E : Env) : M World unit :=
  r ← registry E; model_save E r.

(** [is_port_in_use]: the socket layer refuses a port outside 0..65535
    with [OverflowError] before it tries to connect. *)
Definition is_port_in_use (E : Env) (port : Z) : Outcome bool :=
  if bool_decide (0 ≤ port ≤ 65535) then Returns (connects E port)
  else Raises OverflowError.

Definition is_port_allocated (E : Env) (port : Z) : M World (option string) :=
  r ← registry E; mret (allocated (port_allocation r) !! port).

Definition is_port_reserved (r : RegistryModel) (port : Z) : bool :=
  bool_decide (port ∈ reserved (frontend_range (port_allocation r))) ||
  bool_decide (port ∈ reserved (backend_range (port_allocation r))).

(** The body of the [for port in range(start, end + 1)] loop; an error of
    the probe ends the loop and the call. *)
Fixpoint scan (E : Env) (r : RegistryModel) (exclude : list Z)
         (ports : list Z) : Outcome (option Z) :=
  match ports with
  | [] => Returns None
  | port :: rest =>
      if bool_decide (port ∈ exclude) then scan E r exclude rest
      else if is_port_reserved r port then scan E r exclude rest
      else if bool_decide (is_Some (allocated (port_allocation r) !! port))
           then scan E r exclude rest
      else match is_port_in_use E port with
           | Raises e => Raises e
           | Returns true => scan E r exclude rest
           | Returns false => Returns (Some port)
           end
  end.

Definition find_available_port (E : Env) (start end_ : Z) (exclude : list Z)
  : M World (option Z) :=
  r ← registry E;
  of_outcome (scan E r exclude (seqZ start (end_ + 1 - start))).

Definition find_available_frontend_port (E : Env) (exclude : list Z)
  : M World (option Z) :=
  r ← registry E;
  let fe_range := frontend_range (port_allocation r) in
  find_available_port E (range_start fe_range) (range_end fe_range) exclude.

Definition find_available_backend_port (E : Env) (exclude : list Z)
  : M World (option Z) :=
  r ← registry E;
  let be_range := backend_range (port_allocation r) in
  find_available_port E (range_start be_range) (range_end be_range) exclude.

(** [self.registry.port_allocation.allocated[str(port)] = project_name] *)
Definition record_port (E : Env) (port : Z) (project_name : string)
  : M World unit :=
  r ← registry E;
  modify_state (set_pm_registry
    (Some (set_allocated (<[port := project_name]> (allocated (port_allocation r))) r))).

(** [self.registry.port_allocation.allocated.pop(str(port), None)] *)
Definition pop_port (E : Env) (port : Z) : M World unit :=
  r ← registry E;
  modify_state (set_pm_registry
    (Some (set_allocated (delete port (allocated (port_allocation r))) r))).

Fixpoint rollback (E : Env) (allocated_ports : list Z) : M World unit :=
  match allocated_ports with
  | [] => mret tt
  | port :: rest => pop_port E port;; rollback E rest
  end.

(** [allocate_ports]; the local of the block is [allocated_ports]. *)
Definition allocate_ports (E : Env) (project_name : string)
           (need_frontend need_backend : bool) : M World (gmap string Z) :=
  with_local ([] : list Z)
    (try_reraise
       (result ←
          (if need_frontend then
             fe_port ← outer (find_available_frontend_port E []);
             match fe_port with
             | None => raise PortExhaustedError
             | Some fe_port =>
                 modify_local (λ l, l ++ [fe_port]);;
                 outer (record_port E fe_port project_name);;
                 mret (<["frontend" := fe_port]> (∅ : gmap string Z))
             end
           else mret ∅);
        result ←
          (if need_backend then
             be_port ← outer (find_available_backend_port E []);
             match be_port with
             | None => raise PortExhaustedError
             | Some be_port =>
                 modify_local (λ l, l ++ [be_port]);;
                 outer (record_port E be_port project_name);;
                 mret (<["backend" := be_port]> result)
             end
           else mret result);
        outer (save E);;
        mret result)
       (allocated_ports ← get_local; outer (rollback E allocated_ports))).

(** [del allocated[port]] for each port in turn. *)
Fixpoint release_each (E : Env) (ports_to_release : list Z) : M World unit :=
  match ports_to_release with
  | [] => mret tt
  | port :: rest => pop_port E port;; release_each E rest
  end.

Definition release_ports (E : Env) (project_name : string)
  : M World (list Z) :=
  r ← registry E;
  let ports_to_release :=
    (map_to_list (filter (λ kv, kv.2 = project_name)
                         (allocated (port_allocation r)))).*1 in
  release_each E ports_to_release;;
  let released := ports_to_release in
  (if bool_decide (released = []) then mret tt else save E);;
  mret released.

Record PortStatus := mk_PortStatus {
  status_frontend_range : string;
  status_backend_range : string;
  used_frontend : list Z;
  used_backend : list Z;
  next_frontend : option Z;
  next_backend : option Z;
  utilization_frontend : Q;
  utilization_backend : Q
}.

Definition in_range (rg : PortRange) (port : Z) : bool :=
  bool_decide (range_start rg ≤ port) && bool_decide (port ≤ range_end rg).

(** [len(used) / total * 100]; the rendering with one decimal is left out. *)
Definition utilization {S} (used : list Z) (total : Z) : M S Q :=
  if bool_decide (total = 0) then raise ZeroDivisionError
  else mret ((inject_Z (Z.of_nat (length used)) / inject_Z total * 100)%Q).

Definition get_port_status (E : Env) : M World PortStatus :=
  r ← registry E;
  let fe_range := frontend_range (port_allocation r) in
  let be_range := backend_range (port_allocation r) in
  let ports := (map_to_list (allocated (port_allocation r))).*1 in
  let fe_allocated := filter (λ p, in_range fe_range p = true) ports in
  let be_allocated :=
    filter (λ p, in_range fe_range p = false ∧ in_range be_range p = true) ports in
  let fe_total :=
    range_end fe_range - range_start fe_range + 1 - Z.of_nat (length (reserved fe_range)) in
  let be_total :=
    range_end be_range - range_start be_range + 1 - Z.of_nat (length (reserved be_range)) in
  next_fe ← find_available_frontend_port E [];
  next_be ← find_available_backend_port E [];
  util_fe ← utilization fe_allocated fe_total;
  util_be ← utilization be_allocated be_total;
  mret (mk_PortStatus
          (pretty (range_start fe_range) +:+ "-" +:+ pretty (range_end fe_range))
          (pretty (range_start be_range) +:+ "-" +:+ pretty (range_end be_range))
          (merge_sort Z.le fe_allocated) (merge_sort Z.le be_allocated)
          next_fe next_be util_fe util_be).

(** The checks of [validate_port] that follow the range check: reserved,
    allocated ([if project:], so an empty owner does not count), in use. *)
Definition validate_checks (E : Env) (r : RegistryModel) (port : Z)
  : M World (bool * string) :=
  if is_port_reserved r port
  then mret (false, "Port " +:+ pretty port +:+ " is reserved")
  else
    project ← is_port_allocated E port;
    match project with
    | Some (String _ _ as project) =>
        mret (false, "Port " +:+ pretty port +:+ " is allocated to project '"
                     +:+ project +:+ "'")
    | _ =>
        in_use ← of_outcome (is_port_in_use E port);
        if (in_use : bool)
        then mret (false, "Port " +:+ pretty port +:+
                          " is currently in use by the system")
        else mret (true, "Port is available")
    end.

Definition validate_port (E : Env) (port : Z) (port_type : string)
  : M World (bool * string) :=
  r ← registry E;
  let fe_range := frontend_range (port_allocation r) in
  let be_range := backend_range (port_allocation r) in
  if bool_decide (port_type = "frontend") then
    if negb (in_range fe_range port)
    then mret (false, "Port " +:+ pretty port +:+ " is outside frontend range ("
                      +:+ pretty (range_start fe_range) +:+ "-"
                      +:+ pretty (range_end fe_range) +:+ ")")
    else validate_checks E r port
  else if bool_decide (port_type = "backend") then
    if negb (in_range be_range port)
    then mret (false, "Port " +:+ pretty port +:+ " is outside backend range ("
                      +:+ pretty (range_start be_range) +:+ "-"
                      +:+ pretty (range_end be_range) +:+ ")")
    else validate_checks E r port
  else validate_checks E r port.

End PortManager.

(** ** Project directory ([project_registry.py]) *)

Module ProjectRegistry.

(** The lazily loaded [registry] property; a registry of its own, apart
    from the one the port manager holds. *)
Definition registry (E : Env) : M World RegistryModel := λ w,
  match pr_registry w with
  | Some r => (Returns r, w)
  | None =>
      match load E directory (file w) with
      | Returns r => (Returns r, set_pr_registry (Some r) w)
      | Raises e => (Raises e, w)
      end
  end.

Definition reload (E : Env) : M World unit := λ w,
  match load E directory (file w) with
  | Returns r => PortManager.reload E (set_pr_registry (Some r) w)
  | Raises e => (Raises e, w)
  end.

(** [f"projects_{timestamp}.json"] *)
Definition backup_name (t : datetime) : string :=
  "projects_" +:+ strftime_stamp t +:+ ".json".

(** Names that [glob("projects_*.json")] selects: the prefix, anything,
    the suffix. *)
Definition glob_backups (n : string) : bool :=
  match strip_prefix "projects_" n with
  | Some rest => endswith ".json" rest
  | None => false
  end.

(** [sorted(self.backup_dir.glob("projects_*.json"))] *)
Definition sorted_backups (dir : gmap string RegistryModel) : list string :=
  merge_sort String.le
    (filter (λ n, glob_backups n = true) (map_to_list dir).*1).

(** [for old_backup in backups[:-10]: old_backup.unlink()] *)
Definition unlink_all (old : list string) (dir : gmap string RegistryModel)
  : gmap string RegistryModel :=
  foldl (λ d n, delete n d) dir old.

Definition _create_backup (E : Env) : M World unit := λ w,
  match file w with
  | None => (Returns tt, w)
  | Some doc =>
      let copied := <[backup_name (now E backup_stamp) := doc]> (backup_dir w) in
      let backups := sorted_backups copied in
      (Returns tt,
       set_backup_dir
         (unlink_all (take (length backups - 10) backups) copied) w)
  end.

Definition save (E : Env) (modified_by : string) : M World unit :=
  r ← registry E;
  let r' :=
    set_metadata
      (mk_Metadata (meta_created_at (metadata r)) (isoformat (now E save_stamp))
                   modified_by (Z.of_nat (size (projects r)))
                   (active_projects (metadata r))) r in
  modify_state (set_pr_registry (Some r'));;
  _create_backup E;;
  model_save E r'.

Definition list_projects (E : Env) (filter_tags : list string)
  : M World (list Project) :=
  r ← registry E;
  let projects := (map_to_list (projects r)).*2 in
  mret (match filter_tags with
        | [] => projects
        | _ => filter (λ p, Exists (λ tag, tag ∈ tags p) filter_tags) projects
        end).

Definition get_project (E : Env) (name : string) : M World (option Project) :=
  r ← registry E; mret (projects r !! name).

(** Lines of the generated environment file. *)
Definition port_lines (service : option ServiceConfig)
           (lines : Z → list string) : list string :=
  match service with
  | Some s =>
      match port s with
      | Some p => if bool_decide (p = 0) then [] else lines p
      | None => []
      end
  | None => []
  end.

Definition _generate_env_file (E : Env) (project : Project) : M World unit :=
  r ← registry E;
  let env_content :=
    ["# Auto-generated by Dev Orchestrator";
     "# Do not edit manually - changes may be overwritten"; ""] ++
    port_lines (frontend project) (λ p, ["FRONTEND_PORT=" +:+ pretty p]) ++
    port_lines (backend project)
      (λ p, ["BACKEND_PORT=" +:+ pretty p;
             "API_URL=http://localhost:" +:+ pretty p]) ++
    ((λ kv, kv.1 +:+ "=" +:+ kv.2) <$> map_to_list (env_vars project)) in
  modify_state (λ w,
    set_env_files
      (<[path project +:+ "/" +:+ env_file_name (settings r) := env_content]>
         (env_files w)) w).

(** [ServiceConfig(enabled=True, port=..., command=..., cwd=..., env={})],
    built only [if command:]. *)
Definition service_for (command : option string) (port : option Z)
           (cwd : option string) : option ServiceConfig :=
  match command with
  | Some (String _ _ as c) => Some (mk_ServiceConfig true port c cwd ∅ None)
  | _ => None
  end.

Definition lift_outcome {S A} (o : Outcome A) : M S A := λ s, (o, s).

Definition register_project (E : Env) (name path : string)
           (display_name description : option string)
           (frontend_command backend_command : option string)
           (frontend_cwd backend_cwd : option string)
           (env_vars : gmap string string) (tags : list string)
           (auto_allocate_ports : bool) : M World Project :=
  r ← registry E;
  if bool_decide (is_Some (projects r !! name)) then raise ProjectExistsError
  else if negb (path_exists E path) then raise InvalidPathError
  else if negb (path_is_dir E path) then raise InvalidPathError
  else
    ports ←
      (if auto_allocate_ports then
         let need_frontend := bool_decide (is_Some frontend_command) in
         let need_backend := bool_decide (is_Some backend_command) in
         if need_frontend || need_backend
         then PortManager.allocate_ports E name need_frontend need_backend
         else mret ∅
       else mret ∅);
    let frontend :=
      service_for frontend_command (ports !! "frontend") frontend_cwd in
    let backend :=
      service_for backend_command (ports !! "backend") backend_cwd in
    r ← registry E;
    let project_tags := remove_dups (default_tags (settings r) ++ tags) in
    project ← lift_outcome
      (__post_init__
         (mk_Project name (path_absolute E path) display_name description
                     frontend backend env_vars [] project_tags
                     (isoformat (now E project_created_at))
                     (isoformat (now E project_updated_at)) None));
    r ← registry E;
    modify_state
      (set_pr_registry (Some (set_projects (<[name := project]> (projects r)) r)));;
    save E "register_project";;
    r ← registry E;
    (if auto_generate_env (settings r) then _generate_env_file E project
     else mret tt);;
    mret project.

(** What assigning a value to an attribute that is no dataclass field does:
    the assignment raises (a value that is no dict assigned to [__dict__],
    for instance), or it succeeds, and [f] is what it does to the twelve
    fields (nothing for most attributes; [__dict__] replaces them). *)
Inductive Effect :=
| fails (e : Error)
| assigns (f : Project → Project).

(** One entry of the [updates] dict.  A value for a dataclass field is
    taken at the type the field is declared with.  [other key effect] is an
    entry whose key is not the name of a dataclass field; [effect] says what
    the assignment of its value does, should the project have an attribute
    of that name.  Values after which [to_dict] can no longer encode the
    project are outside the model. *)
Inductive Update :=
| set_name (v : string)
| set_path (v : string)
| set_display_name (v : option string)
| set_description (v : option string)
| set_frontend (v : option ServiceConfig)
| set_backend (v : option ServiceConfig)
| set_env_vars (v : gmap string string)
| set_dependencies (v : list string)
| set_tags (v : list string)
| set_created_at (v : string)
| set_updated_at (v : string)
| set_notes (v : option string)
| other (key : string) (effect : Effect).

Definition key (u : Update) : string :=
  match u with
  | set_name _ => "name"
  | set_path _ => "path"
  | set_display_name _ => "display_name"
  | set_description _ => "description"
  | set_frontend _ => "frontend"
  | set_backend _ => "backend"
  | set_env_vars _ => "env_vars"
  | set_dependencies _ => "dependencies"
  | set_tags _ => "tags"
  | set_created_at _ => "created_at"
  | set_updated_at _ => "updated_at"
  | set_notes _ => "notes"
  | other k _ => k
  end.

(** The names of the dataclass fields of [Project]. *)
Definition is_field (k : string) : bool :=
  bool_decide (k ∈ ["name"; "path"; "display_name"; "description";
                    "frontend"; "backend"; "env_vars"; "dependencies";
                    "tags"; "created_at"; "updated_at"; "notes"]).

(** What a project has besides its fields whatever the interpreter: the
    methods that the class defines, its instance dictionary and its
    class. *)
Definition is_member (k : string) : bool :=
  bool_decide (k ∈ ["__post_init__"; "to_dict"; "from_dict";
                    "__dict__"; "__class__"]).

(** [hasattr(project, k)]: a dataclass field, a method of the class or one
    of the special attributes that the interpreter gives the object. *)
Definition hasattr (E : Env) (k : string) : bool :=
  is_field k || is_member k || has_attribute E k.

(** The assignment of a dataclass field. *)
Definition set_field (p : Project) (u : Update) : Project :=
  match u with
  | set_name v =>
      mk_Project v (path p) (display_name p) (description p) (frontend p)
        (backend p) (env_vars p) (dependencies p) (tags p) (created_at p)
        (updated_at p) (notes p)
  | set_path v =>
      mk_Project (name p) v (display_name p) (description p) (frontend p)
        (backend p) (env_vars p) (dependencies p) (tags p) (created_at p)
        (updated_at p) (notes p)
  | set_display_name v =>
      mk_Project (name p) (path p) v (description p) (frontend p)
        (backend p) (env_vars p) (dependencies p) (tags p) (created_at p)
        (updated_at p) (notes p)
  | set_description v =>
      mk_Project (name p) (path p) (display_name p) v (frontend p)
        (backend p) (env_vars p) (dependencies p) (tags p) (created_at p)
        (updated_at p) (notes p)
  | set_frontend v =>
      mk_Project (name p) (path p) (display_name p) (description p) v
        (backend p) (env_vars p) (dependencies p) (tags p) (created_at p)
        (updated_at p) (notes p)
  | set_backend v =>
      mk_Project (name p) (path p) (display_name p) (description p)
        (frontend p) v (env_vars p) (dependencies p) (tags p) (created_at p)
        (updated_at p) (notes p)
  | set_env_vars v =>
      mk_Project (name p) (path p) (display_name p) (description p)
        (frontend p) (backend p) v (dependencies p) (tags p) (created_at p)
        (updated_at p) (notes p)
  | set_dependencies v =>
      mk_Project (name p) (path p) (display_name p) (description p)
        (frontend p) (backend p) (env_vars p) v (tags p) (created_at p)
        (updated_at p) (notes p)
  | set_tags v =>
      mk_Project (name p) (path p) (display_name p) (description p)
        (frontend p) (backend p) (env_vars p) (dependencies p) v
        (created_at p) (updated_at p) (notes p)
  | set_created_at v =>
      mk_Project (name p) (path p) (display_name p) (description p)
        (frontend p) (backend p) (env_vars p) (dependencies p) (tags p) v
        (updated_at p) (notes p)
  | set_updated_at v =>
      mk_Project (name p) (path p) (display_name p) (description p)
        (frontend p) (backend p) (env_vars p) (dependencies p) (tags p)
        (created_at p) v (notes p)
  | set_notes v =>
      mk_Project (name p) (path p) (display_name p) (description p)
        (frontend p) (backend p) (env_vars p) (dependencies p) (tags p)
        (created_at p) (updated_at p) v
  | other _ _ => p
  end.

(** [setattr(project, key, value)] *)
Definition setattr (p : Project) (u : Update) : Outcome Project :=
  match u with
  | other _ (fails e) => Raises e
  | other _ (assigns f) => Returns (f p)
  | _ => Returns (set_field p u)
  end.

(** [for key, value in updates.items(): if hasattr(...): setattr(...)]: the
    project as the loop leaves it, and the error that stopped it, if any. *)
Fixpoint apply_updates (E : Env) (updates : list Update) (project : Project)
  : Project * option Error :=
  match updates with
  | [] => (project, None)
  | u :: rest =>
      if hasattr E (key u) then
        match setattr project u with
        | Returns project' => apply_updates E rest project'
        | Raises e => (project, Some e)
        end
      else apply_updates E rest project
  end.

(** [update_project].  The loop assigns to the object that the registry
    holds, so what it did before an assignment raised stays in memory. *)
Definition update_project (E : Env) (name : string) (updates : list Update)
  : M World Project :=
  found ← get_project E name;
  match found with
  | None => raise ProjectNotFoundError
  | Some project =>
      let '(patched, stopped) := apply_updates E updates project in
      match stopped with
      | Some e =>
          r ← registry E;
          modify_state
            (set_pr_registry
               (Some (set_projects (<[name := patched]> (projects r)) r)));;
          raise e
      | None =>
          let project :=
            set_field patched (set_updated_at (isoformat (now E update_stamp))) in
          r ← registry E;
          modify_state
            (set_pr_registry
               (Some (set_projects (<[name := project]> (projects r)) r)));;
          save E "update_project";;
          mret project
      end
  end.

Definition remove_project (E : Env) (name : string) (release_ports : bool)
  : M World bool :=
  r ← registry E;
  if bool_decide (projects r !! name = None) then raise ProjectNotFoundError
  else
    (if release_ports then PortManager.release_ports E name;; mret tt
     else mret tt);;
    r ← registry E;
    modify_state
      (set_pr_registry (Some (set_projects (delete name (projects r)) r)));;
    save E "remove_project";;
    mret true.

(** [if s and query in s.lower()] on an optional string. *)
Definition found_in (E : Env) (query : string) (s : option string) : bool :=
  match s with
  | Some (String _ _ as s) => contains query (lower E s)
  | _ => false
  end.

(** The body of the loop of [search_projects], [query] already lowered. *)
Fixpoint search_loop (E : Env) (query : string) (ps : list Project)
  : list Project :=
  match ps with
  | [] => []
  | project :: rest =>
      if contains query (lower E (name project))
      then project :: search_loop E query rest
      else if found_in E query (display_name project)
      then project :: search_loop E query rest
      else if existsb (λ tag, contains query (lower E tag)) (tags project)
      then project :: search_loop E query rest
      else if found_in E query (description project)
      then project :: search_loop E query rest
      else search_loop E query rest
  end.

Definition search_projects (E : Env) (query : string) : M World (list Project) :=
  let query := lower E query in
  r ← registry E;
  mret (search_loop E query (map_to_list (projects r)).*2).

(** The dictionaries that [get_project_info] builds. *)
Record ServiceInfo := mk_ServiceInfo {
  info_port : option Z;
  info_command : option string;
  info_enabled : bool;
  info_url : option string
}.

Record ProjectInfo := mk_ProjectInfo {
  info_name : string;
  info_display_name : option string;
  info_path : string;
  info_description : option string;
  info_frontend : ServiceInfo;
  info_backend : ServiceInfo;
  info_tags : list string;
  info_created_at : string;
  info_updated_at : string;
  info_notes : option string
}.

Definition service_info (service : option ServiceConfig) : ServiceInfo :=
  match service with
  | Some s =>
      mk_ServiceInfo (port s) (Some (command s)) (enabled s)
        (match port s with
         | Some p => if bool_decide (p = 0) then None
                     else Some ("http://localhost:" +:+ pretty p)
         | None => None
         end)
  | None => mk_ServiceInfo None None false None
  end.

Definition project_info (project : Project) : ProjectInfo :=
  mk_ProjectInfo (name project) (display_name project) (path project)
    (description project) (service_info (frontend project))
    (service_info (backend project)) (tags project) (created_at project)
    (updated_at project) (notes project).

Definition get_project_info (E : Env) (name : string)
  : M World (option ProjectInfo) :=
  found ← get_project E name;
  mret (project_info <$> found).

End ProjectRegistry.

(** ** Status reconciliation ([process_controller.py]) *)

Module ProcessController.

(** One record of [pm2 jlist], with the fields the controller reads. *)
Record Pm2Process := mk_Pm2Process {
  pm2_name : option string;       (* proc.get("name") *)
  pm2_status : option string;     (* pm2_env.get("status") *)
  pm2_pid : option Z;
  pm_uptime : option Z;
  monit_memory : option Z;
  monit_cpu : option Q
}.

Record ServiceStatus := mk_ServiceStatus {
  service_name : string;
  status : string;
  pid : option Z;
  service_port : option Z;
  uptime : option string;
  memory : option Z;              (* bytes; the rendering in MB is left out *)
  cpu : option Q;                 (* percent; the rendering is left out *)
  url : option string
}.

Record ProjectStatus := mk_ProjectStatus {
  project_name : string;
  project_display_name : string;
  frontend_status : option ServiceStatus;
  backend_status : option ServiceStatus;
  overall_status : string
}.

(** [_get_pm2_process]: the first listed process with that name. *)
Definition _get_pm2_process (processes : list Pm2Process) (name : string)
  : option Pm2Process :=
  list_find (λ proc, pm2_name proc = Some name) processes ≫= λ ip, Some ip.2.

Definition _format_uptime (uptime_ms : option Z) : option string :=
  match uptime_ms with
  | None => None
  | Some uptime_ms =>
      let seconds := uptime_ms `div` 1000 in
      if bool_decide (seconds < 60) then Some (pretty seconds +:+ "s") else
      let minutes := seconds `div` 60 in
      if bool_decide (minutes < 60) then Some (pretty minutes +:+ "m") else
      let hours := minutes `div` 60 in
      if bool_decide (hours < 24)
      then Some (pretty hours +:+ "h " +:+ pretty (minutes `mod` 60) +:+ "m")
      else
        let days := hours `div` 24 in
        Some (pretty days +:+ "d " +:+ pretty (hours `mod` 24) +:+ "h")
  end.

(** [f"http://localhost:{port}" if port else None] *)
Definition url_of (port : option Z) : option string :=
  match port with
  | Some p => if bool_decide (p = 0) then None
              else Some ("http://localhost:" +:+ pretty p)
  | None => None
  end.

(** [_get_service_status], given what [pm2 jlist] answered. *)
Definition _get_service_status (processes : list Pm2Process)
           (pm2_name : string) (port : option Z) : ServiceStatus :=
  match _get_pm2_process processes pm2_name with
  | None =>
      mk_ServiceStatus pm2_name "not_started" None port None None None
                       (url_of port)
  | Some proc =>
      let status := default "unknown" (pm2_status proc) in
      let status_str :=
        if bool_decide (status = "online") then "online"
        else if bool_decide (status = "stopped") then "stopped"
        else "errored" in
      mk_ServiceStatus pm2_name status_str (pm2_pid proc) port
                       (_format_uptime (pm_uptime proc)) (monit_memory proc)
                       (Some (default 0%Q (monit_cpu proc))) (url_of port)
  end.

(** The [if / elif] chain that determines [overall]. *)
Definition overall (statuses : list string) : string :=
  if bool_decide (statuses = []) then "stopped"
  else if forallb (λ s, bool_decide (s = "online")) statuses then "running"
  else if forallb (λ s, bool_decide (s ∈ ["stopped"; "not_started"])) statuses
       then "stopped"
  else if existsb (λ s, bool_decide (s = "errored")) statuses then "error"
  else "partial".

(** A service is queried when it is configured and enabled. *)
Definition queried (service : option ServiceConfig) : option ServiceConfig :=
  match service with
  | Some s => if enabled s then Some s else None
  | None => None
  end.

(** [get_project_status]; [jlist_fe] and [jlist_be] are what the supervisor
    answers to the listing made for the frontend and for the backend. *)
Definition get_project_status (E : Env)
           (jlist_fe jlist_be : Outcome (list Pm2Process))
           (project_name : string) : M World (option ProjectStatus) :=
  found ← ProjectRegistry.get_project E project_name;
  match found with
  | None => mret None
  | Some project =>
      frontend_status ←
        match queried (frontend project) with
        | Some fe =>
            processes ← ProjectRegistry.lift_outcome jlist_fe;
            mret (Some (_get_service_status processes
                          (project_name +:+ "-fe") (port fe)))
        | None => mret None
        end;
      backend_status ←
        match queried (backend project) with
        | Some be =>
            processes ← ProjectRegistry.lift_outcome jlist_be;
            mret (Some (_get_service_status processes
                          (project_name +:+ "-be") (port be)))
        | None => mret None
        end;
      let statuses :=
        from_option (λ s, [status s]) [] frontend_status ++
        from_option (λ s, [status s]) [] backend_status in
      mret (Some (mk_ProjectStatus project_name
                    (match display_name project with
                     | Some (String _ _ as d) => d
                     | _ => project_name
                     end)
                    frontend_status backend_status (overall statuses)))
  end.

(** The loop of [get_all_status].  [jlist i] is what the supervisor answers
    during the [i]-th iteration to the listing made for the frontend and to
    the one made for the backend. *)
Fixpoint status_loop (E : Env)
    (jlist : nat → Outcome (list Pm2Process) * Outcome (list Pm2Process))
    (i : nat) (ps : list Project) : M World (list ProjectStatus) :=
  match ps with
  | [] => mret []
  | project :: rest =>
      status ← get_project_status E (jlist i).1 (jlist i).2 (name project);
      statuses ← status_loop E jlist (S i) rest;
      mret (match status with
            | Some status => status :: statuses
            | None => statuses
            end)
  end.

Definition get_all_status (E : Env)
    (jlist : nat → Outcome (list Pm2Process) * Outcome (list Pm2Process))
  : M World (list ProjectStatus) :=
  ps ← ProjectRegistry.list_projects E [];
  status_loop E jlist 0 ps.

End ProcessController.


(** ** What the statements observe *)

(** What [self.registry] evaluates to for the port manager and for the
    project directory, and the allocation map the port manager sees. *)
Definition pm_view (E : Env) (w : World) : Outcome RegistryModel :=
  (PortManager.registry E w).1.

Definition pr_view (E : Env) (w : World) : Outcome RegistryModel :=
  (ProjectRegistry.registry E w).1.

Definition pm_allocated (E : Env) (w : World) : Outcome (gmap Z string) :=
  match pm_view E w with
  | Returns r => Returns (allocated (port_allocation r))
  | Raises e => Raises e
  end.

(** A port passes every test of the scan: it is not excluded, not reserved,
    not allocated, and the probe, which accepts it, does not connect. *)
Definition free (E : Env) (r : RegistryModel) (exclude : list Z) (p : Z) : Prop :=
  (p ∉ exclude) ∧ PortManager.is_port_reserved r p = false ∧
  allocated (port_allocation r) !! p = None ∧
  PortManager.is_port_in_use E p = Returns false.

(** A port at which the scan breaks off: it reaches the probe, and the
    probe refuses it, being outside 0..65535. *)
Definition refused (r : RegistryModel) (exclude : list Z) (p : Z) : Prop :=
  (p ∉ exclude) ∧ PortManager.is_port_reserved r p = false ∧
  allocated (port_allocation r) !! p = None ∧ ¬ (0 ≤ p ≤ 65535).

(** A port that the scan passes over. *)
Definition skipped (E : Env) (r : RegistryModel) (exclude : list Z) (p : Z) : Prop :=
  ¬ free E r exclude p ∧ ¬ refused r exclude p.

(** Availability in [start .. end_] as the code tests it: the port is in
    neither reserved list, is no key of [allocated], and the probe accepts
    it and does not connect. *)
Definition available (E : Env) (r : RegistryModel) (start end_ p : Z) : Prop :=
  (start ≤ p ≤ end_) ∧
  (p ∉ reserved (frontend_range (port_allocation r))) ∧
  (p ∉ reserved (backend_range (port_allocation r))) ∧
  allocated (port_allocation r) !! p = None ∧
  PortManager.is_port_in_use E p = Returns false.

(** A port of [start .. end_] that reaches the probe and is outside
    0..65535. *)
Definition unprobeable (r : RegistryModel) (start end_ p : Z) : Prop :=
  (start ≤ p ≤ end_) ∧
  (p ∉ reserved (frontend_range (port_allocation r))) ∧
  (p ∉ reserved (backend_range (port_allocation r))) ∧
  allocated (port_allocation r) !! p = None ∧ ¬ (0 ≤ p ≤ 65535).

(** Availability as the specification words it: only the reserved set of
    the range that is searched counts. *)
Definition available_as_specified (E : Env) (r : RegistryModel) (rg : PortRange)
    (p : Z) : Prop :=
  (range_start rg ≤ p ≤ range_end rg) ∧ (p ∉ reserved rg) ∧
  allocated (port_allocation r) !! p = None ∧
  PortManager.is_port_in_use E p = Returns false.

(** A range all of whose ports the probe accepts. *)
Definition probeable (rg : PortRange) : Prop :=
  0 ≤ range_start rg ∧ range_end rg ≤ 65535.

(** The keys [allocate_ports] was asked to fill. *)
Definition requested (need_frontend need_backend : bool) (k : string) : Prop :=
  (k = "frontend" ∧ need_frontend = true) ∨ (k = "backend" ∧ need_backend = true).

(** Usable slots of a range: its size minus the number of reserved ports. *)
Definition usable (rg : PortRange) : Z :=
  range_end rg - range_start rg + 1 - Z.of_nat (length (reserved rg)).

(** The backup directory after the rotation of [_create_backup]: all but the
    last ten of the sorted backup names are unlinked. *)
Definition rotated (dir : gmap string RegistryModel) : gmap string RegistryModel :=
  let backups := ProjectRegistry.sorted_backups dir in
  ProjectRegistry.unlink_all (take (length backups - 10) backups) dir.

(** The state [w'] an operation ends in is the one a [ProjectRegistry.save]
    with the actor tag [actor] wrote and rotated: nothing after that save
    touched the file or the backup directory. *)
Definition ends_with_save (E : Env) (actor : string) (w' : World) : Prop :=
  ∃ w_mid w_saved,
    ProjectRegistry.save E actor w_mid = (Returns (), w_saved) ∧
    file w' = file w_saved ∧ backup_dir w' = backup_dir w_saved.

(** A patch entry that is neither for ["name"] nor for an attribute that
    is no dataclass field: a dataclass field other than the name, at its
    declared type, or a key that is no attribute of the project at all. *)
Definition leaves_name (E : Env) (u : ProjectRegistry.Update) : Prop :=
  match u with
  | ProjectRegistry.set_name _ => False
  | ProjectRegistry.other k _ => ProjectRegistry.hasattr E k = false
  | _ => True
  end.

(** The statuses of the services present in a project status. *)
Definition present_statuses (ps : ProcessController.ProjectStatus) : list string :=
  from_option (λ s, [ProcessController.status s]) []
              (ProcessController.frontend_status ps) ++
  from_option (λ s, [ProcessController.status s]) []
              (ProcessController.backend_status ps).

(** What the supervisor's listing says of the service called [n]: the
    first listed process of that name decides, "online" and "stopped" are
    passed on, any other state of the process (or none) counts as
    "errored", and a service that is not listed is "not_started". *)
Definition listed_as (processes : list ProcessController.Pm2Process)
    (n : string) (s : string) : Prop :=
  (s = "not_started" ∧
   ∀ q, q ∈ processes → ProcessController.pm2_name q ≠ Some n) ∨
  (∃ i proc,
     processes !! i = Some proc ∧ ProcessController.pm2_name proc = Some n ∧
     (∀ j q, (j < i)%nat → processes !! j = Some q →
             ProcessController.pm2_name q ≠ Some n) ∧
     ((ProcessController.pm2_status proc = Some "online" ∧ s = "online") ∨
      (ProcessController.pm2_status proc = Some "stopped" ∧ s = "stopped") ∨
      (ProcessController.pm2_status proc ≠ Some "online" ∧
       ProcessController.pm2_status proc ≠ Some "stopped" ∧ s = "errored"))).

(** What a project status carries for one service of the project: nothing
    for a service that is not configured or not enabled; otherwise the
    supervisor was asked, and the status carries the supervisor's name of
    the service, the configured port, and what the listing says. *)
Definition reports (jlist : Outcome (list ProcessController.Pm2Process))
    (pm2_name : string) (service : option ServiceConfig)
    (reported : option ProcessController.ServiceStatus) : Prop :=
  match service with
  | Some s =>
      if enabled s
      then ∃ processes st,
             jlist = Returns processes ∧ reported = Some st ∧
             ProcessController.service_name st = pm2_name ∧
             ProcessController.service_port st = port s ∧
             listed_as processes pm2_name (ProcessController.status st)
      else reported = None
  | None => reported = None
  end.

(** The character of the default display name at a position of the name,
    given the character [prev] before it, if any: a hyphen becomes a space;
    otherwise [str.title] lowers the character after a letter and raises it
    elsewhere. *)
Definition default_display_char (prev : option ascii) (c : ascii) : ascii :=
  if Ascii.eqb c "-" then " "%char
  else if from_option is_alpha false prev then lower_char c else upper_char c.

(** Every character is one the name pattern admits after the first. *)
Definition name_chars (s : string) : Prop :=
  Forall (λ a, is_name_char a = true) (String.list_ascii_of_string s).

(** The checks of [validate_port] that come before the probe: the range
    of the type asked for, the reserved lists and the allocation map. *)
Definition reaches_probe (r : RegistryModel) (port_type : string) (port : Z) : Prop :=
  (port_type = "frontend" →
   PortManager.in_range (frontend_range (port_allocation r)) port = true) ∧
  (port_type = "backend" →
   PortManager.in_range (backend_range (port_allocation r)) port = true) ∧
  PortManager.is_port_reserved r port = false ∧
  (allocated (port_allocation r) !! port = None ∨
   allocated (port_allocation r) !! port = Some "").

(** The conditions under which [validate_port] accepts a port. *)
Definition acceptable (E : Env) (r : RegistryModel) (port_type : string)
    (port : Z) : Prop :=
  (port_type = "frontend" →
   PortManager.in_range (frontend_range (port_allocation r)) port = true) ∧
  (port_type = "backend" →
   PortManager.in_range (backend_range (port_allocation r)) port = true) ∧
  PortManager.is_port_reserved r port = false ∧
  (allocated (port_allocation r) !! port = None ∨
   allocated (port_allocation r) !! port = Some "") ∧
  PortManager.is_port_in_use E port = Returns false.

(** The registry as [ProjectRegistry.save] stamps it before writing. *)
Definition stamped (E : Env) (actor : string) (r : RegistryModel) : RegistryModel :=
  set_metadata
    (mk_Metadata (meta_created_at (metadata r)) (isoformat (now E save_stamp))
                 actor (Z.of_nat (size (projects r)))
                 (active_projects (metadata r))) r.

(** The arguments [register_project] hands to [Project(...)], given the
    ports it was granted. *)
Definition new_project (E : Env) (r : RegistryModel) (n path : string)
    (display_name description : option string)
    (frontend_command backend_command frontend_cwd backend_cwd : option string)
    (env_vars : gmap string string) (tags : list string)
    (ports : gmap string Z) : Project :=
  mk_Project n (path_absolute E path) display_name description
    (ProjectRegistry.service_for frontend_command (ports !! "frontend") frontend_cwd)
    (ProjectRegistry.service_for backend_command (ports !! "backend") backend_cwd)
    env_vars [] (remove_dups (default_tags (settings r) ++ tags))
    (isoformat (now E project_created_at))
    (isoformat (now E project_updated_at)) None.

(** The four tests by which [search_projects] matches a project, the
    texts lowered by [str.lower]. *)
Definition matches (E : Env) (query : string) (p : Project) : Prop :=
  contains query (lower E (name p)) = true ∨
  (∃ d, display_name p = Some d ∧ d ≠ "" ∧
        contains query (lower E d) = true) ∨
  (∃ tag, tag ∈ tags p ∧ contains query (lower E tag) = true) ∨
  (∃ d, description p = Some d ∧ d ≠ "" ∧
        contains query (lower E d) = true).

(** ** Sample states

    [test_registry] is the registry document of the fixture of
    [tests/test_core.py], with the keys that the fixture leaves out filled
    in (the two timestamps of the metadata by the empty string);
    [test_world] is a data directory holding it, seen by a process that has
    loaded nothing yet. *)

Definition test_env : Env :=
  mk_Env (λ _, false) (λ _, mk_datetime 2024 5 17 9 30 0 0) (λ _, true)
         (λ _, true) (λ p, p) true ascii_lower
         (λ k, bool_decide (k ∈ ["__doc__"; "__eq__"; "__init__"; "__repr__"])).

Definition test_settings : Settings :=
  mk_Settings false ".env.local" "./ecosystem.config.js" 7 60 8501 ["test"].

Definition test_metadata : Metadata := mk_Metadata "" "" "system" 0 0.

Definition test_ports (reserved_be : list Z) (a : gmap Z string) : PortAllocation :=
  mk_PortAllocation (mk_PortRange 3000 3010 []) (mk_PortRange 8000 8010 reserved_be) a.

Definition test_registry : RegistryModel :=
  mk_RegistryModel "1.0.0" ∅ (test_ports [] ∅) test_settings test_metadata.

Definition test_world : World := mk_World (Some test_registry) ∅ ∅ None None.

(** The backend range lists port 3000 as reserved. *)
Definition cross_reserved_registry : RegistryModel :=
  mk_RegistryModel "1.0.0" ∅ (test_ports [3000] ∅) test_settings test_metadata.

Definition cross_reserved_world : World :=
  mk_World (Some cross_reserved_registry) ∅ ∅ None None.

(** Port 3001 is already held under the name "app". *)
Definition held_registry : RegistryModel :=
  mk_RegistryModel "1.0.0" ∅ (test_ports [] {[ 3001 := "app" ]})
                   test_settings test_metadata.

Definition held_world : World := mk_World (Some held_registry) ∅ ∅ None None.

(** Two ports in use, one in each range. *)
Definition busy_registry : RegistryModel :=
  mk_RegistryModel "1.0.0" ∅ (test_ports [] {[ 3000 := "app"; 8000 := "app" ]})
                   test_settings test_metadata.

Definition busy_world : World := mk_World (Some busy_registry) ∅ ∅ None None.

(** The frontend range lies outside the port numbers. *)
Definition distant_registry : RegistryModel :=
  mk_RegistryModel "1.0.0" ∅
    (mk_PortAllocation (mk_PortRange 70000 70010 []) (mk_PortRange 8000 8010 []) ∅)
    test_settings test_metadata.

Definition distant_world : World := mk_World (Some distant_registry) ∅ ∅ None None.

(** The frontend range has one slot and two reserved entries. *)
Definition crammed_registry : RegistryModel :=
  mk_RegistryModel "1.0.0" ∅
    (mk_PortAllocation (mk_PortRange 3000 3000 [3000; 3001])
                       (mk_PortRange 8000 8010 []) ∅)
    test_settings test_metadata.

Definition crammed_world : World := mk_World (Some crammed_registry) ∅ ∅ None None.

(** One registered project, without services. *)
Definition app_project : Project :=
  mk_Project "app" "/srv/app" (Some "App") None None None ∅ [] ["test"]
             "2024-05-01T08:00:00" "2024-05-01T08:00:00" None.

Definition app_registry : RegistryModel :=
  mk_RegistryModel "1.0.0" {[ "app" := app_project ]} (test_ports [] ∅)
                   test_settings test_metadata.

Definition app_world : World := mk_World (Some app_registry) ∅ ∅ None None.

(** A project with both services; the supervisor lists its frontend only. *)
Definition shop_project : Project :=
  mk_Project "shop" "/srv/shop" (Some "Shop") None
             (Some (mk_ServiceConfig true (Some 3000) "npm run dev" None ∅ None))
             (Some (mk_ServiceConfig true (Some 8000) "python main.py" None ∅ None))
             ∅ [] ["test"] "2024-05-01T08:00:00" "2024-05-01T08:00:00" None.

Definition shop_registry : RegistryModel :=
  mk_RegistryModel "1.0.0" {[ "shop" := shop_project ]}
                   (test_ports [] {[ 3000 := "shop"; 8000 := "shop" ]})
                   test_settings test_metadata.

Definition shop_world : World := mk_World (Some shop_registry) ∅ ∅ None None.

Definition shop_jlist : list ProcessController.Pm2Process :=
  [ProcessController.mk_Pm2Process (Some "shop-fe") (Some "online") (Some 4242)
     (Some 90000) (Some 1048576) None].

(** Both services of "shop" listed as online. *)
Definition shop_jlist_online : list ProcessController.Pm2Process :=
  [ProcessController.mk_Pm2Process (Some "shop-fe") (Some "online") (Some 4242)
     (Some 90000) (Some 1048576) None;
   ProcessController.mk_Pm2Process (Some "shop-be") (Some "online") (Some 4243)
     (Some 90000) (Some 1048576) None].

(** The probe finds every port in use. *)
Definition crowded_env : Env :=
  mk_Env (λ _, true) (λ _, mk_datetime 2024 5 17 9 30 0 0) (λ _, true)
         (λ _, true) (λ p, p) true ascii_lower (λ _, false).

(** A data directory without a registry file. *)
Definition fresh_world : World := mk_World None ∅ ∅ None None.

(** The arguments with which "test-project" is constructed: no display
    name is given. *)
Definition bare_project : Project :=
  mk_Project "test-project" "/srv/test-project" None None None
             (Some (mk_ServiceConfig true (Some 8000) "python main.py" None ∅ None))
             ∅ [] ["test"] "2024-05-17T09:30:00" "2024-05-17T09:30:00" None.

(** "test-project", registered on the fixture with a backend command. *)
Definition registered_project : Project :=
  mk_Project "test-project" "/srv/test-project" (Some "Test Project") None None
             (Some (mk_ServiceConfig true (Some 8000) "python main.py" None ∅ None))
             ∅ [] ["test"] "2024-05-17T09:30:00" "2024-05-17T09:30:00" None.

Definition registered_world : World :=
  (ProjectRegistry.register_project test_env "test-project" "/srv/test-project"
     None None None (Some "python main.py") None None ∅ [] true test_world).2.

(** The supervisor gives the same listing at every iteration. *)
Definition shop_answers (i : nat)
  : Outcome (list ProcessController.Pm2Process) *
    Outcome (list ProcessController.Pm2Process) :=
  (Returns shop_jlist, Returns shop_jlist).

(** ** Properties *)

Ltac unfold_monad :=
  unfold mbind, M_bind, mret, M_ret, raise, of_outcome, get_state, modify_state,
    try_reraise, with_local, outer, get_local, modify_local in *.

(** *** The lazily loaded registries *)

Section Registries.
Context (E : Env).

Lemma pm_registry_returns w r :
  pm_view E w = Returns r →
  PortManager.registry E w = (Returns r, set_pm_registry (Some r) w).
Proof.
  unfold pm_view, PortManager.registry. destruct w as [f b ef pr [r'|]]; simpl.
  - by intros [= ->].
  - destruct (load E _ f); simpl; [by intros [= ->] | done].
Qed.

Lemma pm_registry_raises w e :
  pm_view E w = Raises e → PortManager.registry E w = (Raises e, w).
Proof.
  unfold pm_view, PortManager.registry. destruct (pm_registry w); simpl; [done|].
  destruct (load E _ (file w)); simpl; [done | by intros [= ->]].
Qed.

Lemma pr_registry_returns w r :
  pr_view E w = Returns r →
  ProjectRegistry.registry E w = (Returns r, set_pr_registry (Some r) w).
Proof.
  unfold pr_view, ProjectRegistry.registry. destruct w as [f b ef [r'|] pm]; simpl.
  - by intros [= ->].
  - destruct (load E _ f); simpl; [by intros [= ->] | done].
Qed.

Lemma pr_registry_raises w e :
  pr_view E w = Raises e → ProjectRegistry.registry E w = (Raises e, w).
Proof.
  unfold pr_view, ProjectRegistry.registry. destruct (pr_registry w); simpl; [done|].
  destruct (load E _ (file w)); simpl; [done | by intros [= ->]].
Qed.

Lemma pm_view_allocated w a :
  pm_allocated E w = Returns a →
  ∃ r, pm_view E w = Returns r ∧ allocated (port_allocation r) = a.
Proof.
  unfold pm_allocated. destruct (pm_view E w) as [r|]; [|done].
  intros [= <-]. by exists r.
Qed.

Lemma set_allocated_same r : set_allocated (allocated (port_allocation r)) r = r.
Proof. by destruct r as [? ? [] ? ?]. Qed.

End Registries.

(** *** The scan for an available port *)

Section Scan.
Context (E : Env).

Lemma skipped_excluded r exclude p : p ∈ exclude → skipped E r exclude p.
Proof. intros Hin. split; intros (Hout & _); by apply Hout. Qed.

Lemma skipped_reserved r exclude p :
  PortManager.is_port_reserved r p = true → skipped E r exclude p.
Proof. intros Hres. split; intros (_ & Hfree & _); congruence. Qed.

Lemma skipped_allocated r exclude p :
  is_Some (allocated (port_allocation r) !! p) → skipped E r exclude p.
Proof. intros [v Hv]. split; intros (_ & _ & Hnone & _); congruence. Qed.

Lemma skipped_in_use r exclude p :
  PortManager.is_port_in_use E p = Returns true → skipped E r exclude p.
Proof.
  intros Huse. split.
  - intros (_ & _ & _ & Hfree). congruence.
  - intros (_ & _ & _ & Hout). unfold PortManager.is_port_in_use in Huse.
    by case_bool_decide.
Qed.

Lemma probe_refuses p e :
  PortManager.is_port_in_use E p = Raises e →
  e = OverflowError ∧ ¬ (0 ≤ p ≤ 65535).
Proof.
  unfold PortManager.is_port_in_use. case_bool_decide; [done|].
  by intros [= <-].
Qed.

(** Over [start, start + 1, ...] the scan returns the first port that is
    free, unless a port that the probe refuses comes first. *)
Lemma scan_seqZ r exclude n : ∀ start,
  match PortManager.scan E r exclude (seqZ start (Z.of_nat n)) with
  | Returns (Some p) =>
      (start ≤ p < start + Z.of_nat n) ∧ free E r exclude p ∧
      ∀ q, start ≤ q < p → skipped E r exclude q
  | Returns None => ∀ q, start ≤ q < start + Z.of_nat n → skipped E r exclude q
  | Raises e =>
      e = OverflowError ∧
      ∃ p, (start ≤ p < start + Z.of_nat n) ∧ refused r exclude p ∧
           ∀ q, start ≤ q < p → skipped E r exclude q
  end.
Proof.
  induction n as [|n IH]; intros start.
  - rewrite seqZ_nil by lia. simpl. intros q Hq. lia.
  - rewrite seqZ_cons by lia.
    replace (Z.pred (Z.of_nat (S n))) with (Z.of_nat n) by lia.
    simpl. specialize (IH (Z.succ start)).
    assert (Hstep : skipped E r exclude start →
      match PortManager.scan E r exclude (seqZ (Z.succ start) (Z.of_nat n)) with
      | Returns (Some p) =>
          (start ≤ p < start + Z.of_nat (S n)) ∧ free E r exclude p ∧
          ∀ q, start ≤ q < p → skipped E r exclude q
      | Returns None =>
          ∀ q, start ≤ q < start + Z.of_nat (S n) → skipped E r exclude q
      | Raises e =>
          e = OverflowError ∧
          ∃ p, (start ≤ p < start + Z.of_nat (S n)) ∧ refused r exclude p ∧
               ∀ q, start ≤ q < p → skipped E r exclude q
      end).
    { intros Hnot.
      destruct (PortManager.scan E r exclude (seqZ (Z.succ start) (Z.of_nat n)))
        as [[p|]|e].
      - destruct IH as (Hr & Hf & Hmin). split; [lia|]. split; [exact Hf|].
        intros q Hq. destruct (decide (q = start)) as [->|]; [exact Hnot|].
        apply Hmin. lia.
      - intros q Hq. destruct (decide (q = start)) as [->|]; [exact Hnot|].
        apply IH. lia.
      - destruct IH as (-> & p & Hr & Hf & Hmin). split; [done|].
        exists p. split; [lia|]. split; [exact Hf|].
        intros q Hq. destruct (decide (q = start)) as [->|]; [exact Hnot|].
        apply Hmin. lia. }
    case_bool_decide as Hex; [by apply Hstep, skipped_excluded|].
    destruct (PortManager.is_port_reserved r start) eqn:Hres;
      [by apply Hstep, skipped_reserved|].
    case_bool_decide as Hal; [by apply Hstep, skipped_allocated|].
    apply eq_None_not_Some in Hal.
    destruct (PortManager.is_port_in_use E start) as [[|]|e] eqn:Huse.
    + by apply Hstep, skipped_in_use.
    + split; [lia|]. split; [done|]. intros q Hq. lia.
    + apply probe_refuses in Huse as [-> Hout]. split; [done|].
      exists start. split; [lia|]. split; [done|]. intros q Hq. lia.
Qed.

Lemma scan_range r exclude start end_ :
  match PortManager.scan E r exclude (seqZ start (end_ + 1 - start)) with
  | Returns (Some p) =>
      (start ≤ p ≤ end_) ∧ free E r exclude p ∧
      ∀ q, start ≤ q < p → skipped E r exclude q
  | Returns None => ∀ q, start ≤ q ≤ end_ → skipped E r exclude q
  | Raises e =>
      e = OverflowError ∧
      ∃ p, (start ≤ p ≤ end_) ∧ refused r exclude p ∧
           ∀ q, start ≤ q < p → skipped E r exclude q
  end.
Proof.
  destruct (decide (end_ + 1 - start ≤ 0)) as [Hle|Hgt].
  - rewrite seqZ_nil by done. simpl. intros q Hq. lia.
  - pose proof (scan_seqZ r exclude (Z.to_nat (end_ + 1 - start)) start) as H.
    rewrite Z2Nat.id in H by lia.
    destruct (PortManager.scan E r exclude (seqZ start (end_ + 1 - start)))
      as [[p|]|e].
    + destruct H as (? & ? & ?). split; [lia|]. by split.
    + intros q Hq. apply H. lia.
    + destruct H as (-> & p & ? & ? & ?). split; [done|]. exists p.
      split; [lia|]. by split.
Qed.

Lemma free_available r start end_ p :
  start ≤ p ≤ end_ → (free E r [] p ↔ available E r start end_ p).
Proof.
  intros Hp. unfold free, available, PortManager.is_port_reserved.
  rewrite orb_false_iff, !bool_decide_eq_false. split.
  - intros (_ & [Hfe Hbe] & Ha & Hu). split_and!; try done; lia.
  - intros (_ & Hfe & Hbe & Ha & Hu). split_and!; try done. apply not_elem_of_nil.
Qed.

Lemma refused_unprobeable r start end_ p :
  start ≤ p ≤ end_ → (refused r [] p ↔ unprobeable r start end_ p).
Proof.
  intros Hp. unfold refused, unprobeable, PortManager.is_port_reserved.
  rewrite orb_false_iff, !bool_decide_eq_false. split.
  - intros (_ & [Hfe Hbe] & Ha & Hu). split_and!; try done; lia.
  - intros (_ & Hfe & Hbe & Ha & Hu). split_and!; try done. apply not_elem_of_nil.
Qed.

Lemma scan_Some_free r exclude ports p :
  PortManager.scan E r exclude ports = Returns (Some p) →
  allocated (port_allocation r) !! p = None.
Proof.
  induction ports as [|q ports IH]; simpl; [done|].
  repeat (case_match; try done).
  intros [= ->].
  match goal with
  | H : bool_decide (is_Some _) = false |- _ => apply bool_decide_eq_false in H
  end.
  by apply eq_None_not_Some.
Qed.

(** A range within 0..65535 holds no port that the probe refuses. *)
Lemma probeable_not_refused r exclude start end_ :
  0 ≤ start → end_ ≤ 65535 →
  ∀ q, start ≤ q ≤ end_ → ¬ refused r exclude q.
Proof. intros Hs He q Hq (_ & _ & _ & Hout). lia. Qed.

End Scan.

(** C5 (amended).  [find_available_port] scans [start .. end] upwards.  It
    returns the least port that is in neither range's reserved list, is no
    key of [allocated], and that the probe accepts and finds not in use,
    provided no port that reaches the probe and is outside 0..65535 comes
    before it; it returns no port exactly when the range holds neither such
    a port nor a port that the probe refuses.  It raises [OverflowError] when
    a port outside 0..65535 reaches the probe before an available port is
    found, which no range within 0..65535 leads to; apart from that it
    raises only when the registry cannot be loaded. *)
Theorem find_available_port_least (E : Env) (w : World) (start end_ : Z) :
  match PortManager.find_available_port E start end_ [] w with
  | (Returns (Some p), _) =>
      ∃ r, pm_view E w = Returns r ∧ available E r start end_ p ∧
           (∀ q, available E r start end_ q → p ≤ q) ∧
           (∀ q, unprobeable r start end_ q → p < q)
  | (Returns None, _) =>
      ∃ r, pm_view E w = Returns r ∧
           ∀ q, ¬ available E r start end_ q ∧ ¬ unprobeable r start end_ q
  | (Raises e, w') =>
      (pm_view E w = Raises e ∧ w' = w) ∨
      (e = OverflowError ∧ ¬ (0 ≤ start ∧ end_ ≤ 65535) ∧
       ∃ r p, pm_view E w = Returns r ∧ unprobeable r start end_ p ∧
              (∀ q, available E r start end_ q → p < q) ∧
              (∀ q, unprobeable r start end_ q → p ≤ q))
  end.
Proof.
  unfold PortManager.find_available_port. unfold_monad.
  destruct (pm_view E w) as [r|e] eqn:Hview.
  2:{ rewrite (pm_registry_raises E w e Hview). by left. }
  rewrite (pm_registry_returns E w r Hview).
  pose proof (scan_range E r [] start end_) as Hscan.
  assert (Hbelow : ∀ p, (∀ q, start ≤ q < p → skipped E r [] q) →
            (∀ q, available E r start end_ q → p ≤ q) ∧
            (∀ q, unprobeable r start end_ q → p ≤ q)).
  { intros p Hmin. split; intros q Hq.
    - destruct (decide (p ≤ q)) as [|Hlt]; [done|]. exfalso.
      destruct (Hmin q) as [Hnf _]; [destruct Hq; lia|]. apply Hnf.
      apply (free_available E r start end_ q); [by destruct Hq | done].
    - destruct (decide (p ≤ q)) as [|Hlt]; [done|]. exfalso.
      destruct (Hmin q) as [_ Hnr]; [destruct Hq; lia|]. apply Hnr.
      apply (refused_unprobeable r start end_ q); [by destruct Hq | done]. }
  destruct (PortManager.scan E r [] (seqZ start (end_ + 1 - start))) as [[p|]|e].
  - destruct Hscan as (Hp & Hfree & Hmin). exists r.
    destruct (Hbelow p Hmin) as [Hav Hun].
    split; [done|]. split; [by apply free_available|]. split; [done|].
    intros q Hq. specialize (Hun q Hq).
    destruct (decide (p = q)) as [->|]; [|lia].
    destruct Hfree as (_ & _ & _ & Huse). destruct Hq as (_ & _ & _ & _ & Hout).
    unfold PortManager.is_port_in_use in Huse. by case_bool_decide.
  - exists r. split; [done|]. intros q. split; intros Hq.
    + destruct (Hscan q) as [Hnf _]; [by destruct Hq|]. apply Hnf.
      apply (free_available E r start end_ q); [by destruct Hq | done].
    + destruct (Hscan q) as [_ Hnr]; [by destruct Hq|]. apply Hnr.
      apply (refused_unprobeable r start end_ q); [by destruct Hq | done].
  - destruct Hscan as (-> & p & Hp & Href & Hmin). right.
    destruct (Hbelow p Hmin) as [Hav Hun].
    split; [done|]. split.
    { intros [Hs He]. destruct Href as (_ & _ & _ & Hout). lia. }
    exists r, p. split; [done|].
    split; [by apply refused_unprobeable|]. split; [|done].
    intros q Hq. specialize (Hav q Hq).
    destruct (decide (p = q)) as [->|]; [|lia].
    destruct Href as (_ & _ & _ & Hout). destruct Hq as (_ & _ & _ & _ & Huse).
    unfold PortManager.is_port_in_use in Huse. by case_bool_decide.
Qed.

(** C5, as stated, fails: with port 3000 reserved in the backend range only,
    the search of the frontend range 3000..3010 skips 3000 and returns 3001,
    although 3000 passes every test the specification lists. *)
Lemma find_available_port_as_specified_fails :
  (PortManager.find_available_frontend_port test_env [] cross_reserved_world).1 =
    Returns (Some 3001) ∧
  available_as_specified test_env cross_reserved_registry
    (frontend_range (port_allocation cross_reserved_registry)) 3000.
Proof.
  split; [vm_compute; reflexivity|].
  unfold available_as_specified. simpl. split_and!; try done; try lia.
  apply not_elem_of_nil.
Qed.

(** *** Allocation *)

(** What [allocate_ports] leaves behind, case by case.  The proof runs the
    block on every combination of what is requested, what the two scans
    find and whether the file can be written. *)
Lemma allocate_ports_spec (E : Env) (project_name : string)
    (need_frontend need_backend : bool) (w : World) :
  match PortManager.allocate_ports E project_name need_frontend need_backend w with
  | (Raises _, w') =>
      pm_allocated E w' = pm_allocated E w ∧ file w' = file w
  | (Returns result, w') =>
      ∃ before after,
        pm_allocated E w = Returns before ∧
        pm_allocated E w' = Returns after ∧
        (∀ k, is_Some (result !! k) ↔ requested need_frontend need_backend k) ∧
        (∀ k p, result !! k = Some p →
                before !! p = None ∧ after !! p = Some project_name) ∧
        (∀ k1 k2 p, result !! k1 = Some p → result !! k2 = Some p → k1 = k2) ∧
        (∀ q, (∀ k, result !! k ≠ Some q) → after !! q = before !! q) ∧
        (allocated ∘ port_allocation) <$> file w' = Some after ∧
        can_write E = true
  end.
Proof.
  unfold pm_allocated, pm_view.
  destruct w as [f b ef pr pm].
  unfold PortManager.allocate_ports, PortManager.find_available_frontend_port,
    PortManager.find_available_backend_port, PortManager.find_available_port,
    PortManager.record_port, PortManager.save, model_save.
  unfold_monad.
  assert (Hkeys : ("backend" : string) ≠ "frontend") by done.
  destruct pm as [r|]; [|destruct (load E port_manager f) as [r|e] eqn:Hload];
    destruct need_frontend, need_backend; cbn; rewrite ?Hload; cbn;
    repeat (match goal with
            | |- context [PortManager.scan ?a ?b ?c ?d] =>
                let H := fresh "Hscan" in
                destruct (PortManager.scan a b c d) as [[?|]|?] eqn:H; cbn;
                try (apply scan_Some_free in H; cbn in H;
                     try (apply lookup_insert_None in H as [? ?]))
            end);
    try (destruct (can_write E) eqn:Hcw; cbn);
    unfold PortManager.pop_port; unfold_monad; cbn;
    rewrite ?Hload; cbn.
  all: try (split; [f_equal|done]).
  all: try by (apply map_eq; intros i; rewrite ?lookup_delete, ?lookup_insert;
               repeat case_decide; simplify_eq; done).
  all: try done.
  all: eexists _, _; split_and!; try done.
  all: unfold requested.
  all: try (intros k; rewrite ?lookup_insert, ?lookup_empty;
            repeat case_decide; simplify_eq; rewrite ?is_Some_alt;
            intuition (try done; congruence)).
  all: try (intros k p; rewrite ?lookup_insert, ?lookup_empty;
            repeat case_decide; simplify_eq; try done; intros [= <-];
            rewrite ?lookup_insert; repeat case_decide; simplify_eq; done).
  all: try (intros k1 k2 p; rewrite ?lookup_insert, ?lookup_empty;
            repeat case_decide; simplify_eq; try done; congruence).
  all: intros q Hq; rewrite ?lookup_insert; repeat case_decide; simplify_eq; try done.
  all: exfalso; first [ by apply (Hq "backend"); simplify_map_eq
                      | by apply (Hq "frontend"); simplify_map_eq ].
Qed.

(** C1.  [allocate_ports] is all or nothing.  When it raises, the allocation
    map the port manager holds is the map from before the call (and the file
    is untouched).  When it returns, the result has exactly the requested
    keys, every granted port was absent before and now maps to
    [project_name], the granted ports are distinct, every other port maps as
    before, and the file records the new map. *)
Theorem allocate_ports_all_or_nothing (E : Env) (project_name : string)
    (need_frontend need_backend : bool) (w : World) :
  match PortManager.allocate_ports E project_name need_frontend need_backend w with
  | (Raises _, w') =>
      pm_allocated E w' = pm_allocated E w ∧ file w' = file w
  | (Returns result, w') =>
      ∃ before after,
        pm_allocated E w = Returns before ∧
        pm_allocated E w' = Returns after ∧
        (∀ k, is_Some (result !! k) ↔ requested need_frontend need_backend k) ∧
        (∀ k p, result !! k = Some p →
                before !! p = None ∧ after !! p = Some project_name) ∧
        (∀ k1 k2 p, result !! k1 = Some p → result !! k2 = Some p → k1 = k2) ∧
        (∀ q, (∀ k, result !! k ≠ Some q) → after !! q = before !! q) ∧
        (allocated ∘ port_allocation) <$> file w' = Some after
  end.
Proof.
  pose proof (allocate_ports_spec E project_name need_frontend need_backend w) as H.
  destruct (PortManager.allocate_ports E project_name need_frontend need_backend w)
    as [[result|e] w']; [|done].
  destruct H as (before & after & ? & ? & ? & ? & ? & ? & ? & _).
  by exists before, after.
Qed.

(** *** Release *)

Section Release.
Context (E : Env).

Lemma release_each_loaded l : ∀ r w,
  PortManager.release_each E l (set_pm_registry (Some r) w) =
    (Returns (),
     set_pm_registry
       (Some (set_allocated
                (foldl (λ m k, delete k m) (allocated (port_allocation r)) l) r))
       w).
Proof.
  induction l as [|k l IH]; intros r w; simpl.
  - by rewrite set_allocated_same.
  - unfold PortManager.pop_port. unfold_monad. simpl.
    change (mk_World (file w) (backup_dir w) (env_files w) (pr_registry w) ?x)
      with (set_pm_registry x w).
    by rewrite IH.
Qed.

Lemma lookup_foldl_delete `{Countable K} {V} (l : list K) : ∀ (m : gmap K V) i,
  foldl (λ m k, delete k m) m l !! i = if decide (i ∈ l) then None else m !! i.
Proof.
  induction l as [|k l IH]; intros m i; simpl.
  - destruct (decide (i ∈ [])) as [Hi%elem_of_nil|]; done.
  - rewrite IH. destruct (decide (i ∈ l)) as [Hl|Hl], (decide (i ∈ k :: l)) as [Hkl|Hkl];
      try done.
    + exfalso. apply Hkl. by right.
    + apply elem_of_cons in Hkl as [->|?]; [|done]. by rewrite lookup_delete_eq.
    + rewrite lookup_delete_ne; [done|]. intros ->. apply Hkl. by left.
Qed.

Lemma elem_of_filter_keys (name : string) (m : gmap Z string) i :
  i ∈ (map_to_list (filter (λ kv, kv.2 = name) m)).*1 ↔ m !! i = Some name.
Proof.
  rewrite list_elem_of_fmap. split.
  - intros ([k v] & -> & Hkv). apply elem_of_map_to_list in Hkv.
    apply map_lookup_filter_Some in Hkv as [? ?]. simpl in *. by subst.
  - intros Hi. exists (i, name). split; [done|].
    apply elem_of_map_to_list. by apply map_lookup_filter_Some.
Qed.

Lemma released_map (name : string) (m : gmap Z string) :
  foldl (λ m k, delete k m) m (map_to_list (filter (λ kv, kv.2 = name) m)).*1 =
  filter (λ kv, kv.2 ≠ name) m.
Proof.
  apply map_eq. intros i. rewrite lookup_foldl_delete.
  case_decide as Hi.
  - apply elem_of_filter_keys in Hi. symmetry.
    apply map_lookup_filter_None. right. intros x Hx. simpl. congruence.
  - rewrite elem_of_filter_keys in Hi.
    destruct (m !! i) as [x|] eqn:Hm.
    + symmetry. apply map_lookup_filter_Some. split; [done|]. simpl. congruence.
    + symmetry. apply map_lookup_filter_None. by left.
Qed.

(** What [release_ports] does from a state in which the port manager sees
    the registry [r]. *)
Lemma release_ports_spec (name : string) (w : World) (r : RegistryModel) :
  pm_view E w = Returns r →
  let a := allocated (port_allocation r) in
  let released := (map_to_list (filter (λ kv, kv.2 = name) a)).*1 in
  let r' := set_allocated (filter (λ kv, kv.2 ≠ name) a) r in
  PortManager.release_ports E name w =
    if bool_decide (released = []) then
      (Returns released, set_pm_registry (Some r') w)
    else if can_write E then
      (Returns released, set_file (Some r') (set_pm_registry (Some r') w))
    else (Raises OSError, set_pm_registry (Some r') w).
Proof.
  intros Hview. cbv zeta.
  unfold PortManager.release_ports. unfold_monad.
  rewrite (pm_registry_returns E w r Hview).
  rewrite release_each_loaded, released_map.
  case_bool_decide; [done|].
  unfold PortManager.save, model_save. unfold_monad. simpl.
  by destruct (can_write E).
Qed.

End Release.

(** C6 (amended).  When no entry of the allocation map carries the project's
    name before the allocation, [allocate_ports] followed by [release_ports]
    for that name returns the map to its value before the allocation, and
    the ports released are the ports that were granted. *)
Theorem allocate_then_release_restores (E : Env) (project_name : string)
    (need_frontend need_backend : bool) (w w1 : World)
    (before : gmap Z string) (result : gmap string Z) :
  pm_allocated E w = Returns before →
  (∀ p, before !! p ≠ Some project_name) →
  PortManager.allocate_ports E project_name need_frontend need_backend w =
    (Returns result, w1) →
  ∃ released w2,
    PortManager.release_ports E project_name w1 = (Returns released, w2) ∧
    pm_allocated E w2 = Returns before ∧
    (∀ p, p ∈ released ↔ ∃ k, result !! k = Some p).
Proof.
  intros Hbefore Hfresh Halloc.
  pose proof (allocate_ports_spec E project_name need_frontend need_backend w) as H.
  rewrite Halloc in H.
  destruct H as (before' & after & Hb & Ha & Hreq & Hgrant & _ & Hother & _ & Hcw).
  rewrite Hbefore in Hb. injection Hb as <-.
  apply pm_view_allocated in Ha as (r1 & Hview & <-).
  assert (Hkeys : ∀ q, (∀ k, result !! k ≠ Some q) ∨ (∃ k, result !! k = Some q)).
  { intros q.
    destruct (decide (result !! "frontend" = Some q)) as [|Hfe]; [right; eauto|].
    destruct (decide (result !! "backend" = Some q)) as [|Hbe]; [right; eauto|].
    left. intros k Hk.
    assert (is_Some (result !! k)) as Hs by eauto.
    apply Hreq in Hs as [[-> _]|[-> _]]; done. }
  assert (Hname : ∀ q, allocated (port_allocation r1) !! q = Some project_name ↔
                       ∃ k, result !! k = Some q).
  { intros q. split.
    - intros Hq. destruct (Hkeys q) as [Hno|]; [|done].
      rewrite (Hother q Hno) in Hq. by apply Hfresh in Hq.
    - intros [k Hk]. by apply Hgrant in Hk as [_ ?]. }
  assert (Hmap : filter (λ kv, kv.2 ≠ project_name) (allocated (port_allocation r1))
                 = before).
  { apply map_eq. intros q.
    destruct (Hkeys q) as [Hno|[k Hk]].
    - rewrite <- (Hother q Hno).
      destruct (allocated (port_allocation r1) !! q) as [v|] eqn:Hq.
      + apply map_lookup_filter_Some. split; [done|]. simpl. intros ->.
        rewrite (Hother q Hno) in Hq. by apply Hfresh in Hq.
      + apply map_lookup_filter_None. by left.
    - destruct (Hgrant k q Hk) as [-> Hq].
      apply map_lookup_filter_None. right. intros v Hv. simpl. congruence. }
  rewrite (release_ports_spec E project_name w1 r1 Hview), Hcw, Hmap.
  case_bool_decide; (eexists _, _; split_and!; [done | done |]);
    intros p; by rewrite elem_of_filter_keys.
Qed.

Lemma allocate_then_release_restores_witness :
  ∃ released w2,
    PortManager.release_ports test_env "web"
      (PortManager.allocate_ports test_env "web" true true held_world).2 =
      (Returns released, w2) ∧
    pm_allocated test_env w2 = Returns {[ 3001 := "app" ]}.
Proof.
  destruct (allocate_then_release_restores test_env "web" true true held_world
              (PortManager.allocate_ports test_env "web" true true held_world).2
              {[ 3001 := "app" ]}
              (<["backend" := 8000]> (<["frontend" := 3000]> ∅)))
    as (released & w2 & Hrel & Hmap & _).
  - vm_compute. reflexivity.
  - intros p. destruct (decide (p = 3001)) as [->|Hne].
    + rewrite lookup_singleton_eq. discriminate.
    + rewrite lookup_singleton_ne by (intros Heq; apply Hne; symmetry; exact Heq).
      discriminate.
  - vm_compute. reflexivity.
  - exists released, w2. split; [exact Hrel | exact Hmap].
Defined.

(** C6, as stated, fails: when "app" already holds port 3001, allocating for
    "app" and releasing "app" drops that earlier port too, and the map ends
    empty instead of as it began. *)
Lemma allocate_then_release_loses_earlier_ports :
  pm_allocated test_env held_world = Returns {[ 3001 := "app" ]} ∧
  pm_allocated test_env
    (PortManager.release_ports test_env "app"
       (PortManager.allocate_ports test_env "app" true true held_world).2).2 =
    Returns ∅ ∧
  ({[ 3001 := "app" ]} : gmap Z string) ≠ ∅.
Proof.
  split_and!.
  - vm_compute. reflexivity.
  - vm_compute. reflexivity.
  - apply insert_non_empty.
Qed.

(** *** Port status *)

(** The two searches of [get_port_status] return when the ranges lie within
    0..65535. *)
Lemma scan_probeable (E : Env) (r : RegistryModel) (rg : PortRange) :
  probeable rg →
  ∃ next, PortManager.scan E r []
            (seqZ (range_start rg) (range_end rg + 1 - range_start rg)) =
          Returns next.
Proof.
  intros [Hs He].
  pose proof (scan_range E r [] (range_start rg) (range_end rg)) as Hscan.
  destruct (PortManager.scan E r [] _) as [next|e]; [by exists next|].
  destruct Hscan as (_ & p & Hp & Href & _).
  destruct (probeable_not_refused r [] (range_start rg) (range_end rg) Hs He p Hp Href).
Qed.

Lemma get_port_status_outcome (E : Env) (w : World) (r : RegistryModel) :
  pm_view E w = Returns r →
  let fe := frontend_range (port_allocation r) in
  let be := backend_range (port_allocation r) in
  probeable fe → probeable be →
  if bool_decide (usable fe = 0) then
    (PortManager.get_port_status E w).1 = Raises ZeroDivisionError
  else if bool_decide (usable be = 0) then
    (PortManager.get_port_status E w).1 = Raises ZeroDivisionError
  else ∃ st, (PortManager.get_port_status E w).1 = Returns st.
Proof.
  intros Hview. cbv zeta. intros Hfe Hbe.
  destruct (scan_probeable E r _ Hfe) as [nfe Hnfe].
  destruct (scan_probeable E r _ Hbe) as [nbe Hnbe].
  unfold PortManager.get_port_status, PortManager.find_available_frontend_port,
    PortManager.find_available_backend_port, PortManager.find_available_port,
    PortManager.utilization, usable.
  unfold_monad. rewrite (pm_registry_returns E w r Hview). cbn.
  rewrite Hnfe. cbn. rewrite Hnbe. cbn.
  repeat case_bool_decide; cbn; eauto.
Qed.

(** C9 (amended).  For a registry whose two ranges lie within 0..65535:
    with a non-zero count of usable slots in each range, and in particular
    with fewer reserved ports than slots in each range, [get_port_status]
    returns a summary; when the count of either range is zero, it raises
    [ZeroDivisionError] instead. *)
Theorem get_port_status_needs_usable_slots (E : Env) (w : World) (r : RegistryModel) :
  pm_view E w = Returns r →
  let fe := frontend_range (port_allocation r) in
  let be := backend_range (port_allocation r) in
  probeable fe → probeable be →
  (Z.of_nat (length (reserved fe)) < range_end fe - range_start fe + 1 →
   Z.of_nat (length (reserved be)) < range_end be - range_start be + 1 →
   ∃ st, (PortManager.get_port_status E w).1 = Returns st) ∧
  (usable fe ≠ 0 → usable be ≠ 0 →
   ∃ st, (PortManager.get_port_status E w).1 = Returns st) ∧
  (usable fe = 0 ∨ usable be = 0 →
   (PortManager.get_port_status E w).1 = Raises ZeroDivisionError).
Proof.
  intros Hview fe be Hfe Hbe.
  pose proof (get_port_status_outcome E w r Hview Hfe Hbe) as H. cbv zeta in H.
  fold fe be in H. unfold usable in *.
  repeat case_bool_decide; split_and!; try done; try lia; intros [?|?]; done.
Qed.

Lemma get_port_status_needs_usable_slots_witness :
  ∃ st, (PortManager.get_port_status test_env busy_world).1 = Returns st.
Proof.
  apply (get_port_status_needs_usable_slots test_env busy_world busy_registry).
  - vm_compute. reflexivity.
  - split; vm_compute; discriminate.
  - split; vm_compute; discriminate.
  - vm_compute. discriminate.
  - vm_compute. discriminate.
Defined.

(** C9, as stated, fails on both counts.  With the frontend range
    70000..70010 and no reserved port, each range has fewer reserved ports
    than slots, and [get_port_status] raises [OverflowError]: the search for
    the next frontend port probes port 70000.  And the condition is not
    necessary: with range 3000..3000 and two reserved entries the count of
    usable slots is -1, and a summary is returned. *)
Lemma get_port_status_fails_outside_port_numbers :
  (Z.of_nat (length (reserved (frontend_range (port_allocation distant_registry))))
   < range_end (frontend_range (port_allocation distant_registry))
     - range_start (frontend_range (port_allocation distant_registry)) + 1) ∧
  (Z.of_nat (length (reserved (backend_range (port_allocation distant_registry))))
   < range_end (backend_range (port_allocation distant_registry))
     - range_start (backend_range (port_allocation distant_registry)) + 1) ∧
  (PortManager.get_port_status test_env distant_world).1 = Raises OverflowError ∧
  ¬ (Z.of_nat (length (reserved (frontend_range (port_allocation crammed_registry))))
     < range_end (frontend_range (port_allocation crammed_registry))
       - range_start (frontend_range (port_allocation crammed_registry)) + 1) ∧
  ∃ st, (PortManager.get_port_status test_env crammed_world).1 = Returns st.
Proof.
  split_and!.
  - simpl. lia.
  - simpl. lia.
  - vm_compute. reflexivity.
  - simpl. lia.
  - eexists. vm_compute. reflexivity.
Qed.

(** A range with more reserved ports than slots has a negative count of
    usable slots, and the summary is still returned. *)
Lemma get_port_status_negative_usable (E : Env) (w : World) (r : RegistryModel) :
  pm_view E w = Returns r →
  probeable (frontend_range (port_allocation r)) →
  probeable (backend_range (port_allocation r)) →
  usable (frontend_range (port_allocation r)) ≠ 0 →
  usable (backend_range (port_allocation r)) ≠ 0 →
  ∃ st, (PortManager.get_port_status E w).1 = Returns st.
Proof.
  intros Hview Hpf Hpb Hfe Hbe.
  pose proof (get_port_status_outcome E w r Hview Hpf Hpb) as H. cbv zeta in H.
  by rewrite !bool_decide_eq_false_2 in H.
Qed.

(** *** Search and update *)

Lemma contains_empty s : contains "" s = true.
Proof. by destruct s. Qed.

Lemma search_loop_empty E ps : ProjectRegistry.search_loop E "" ps = ps.
Proof.
  induction ps as [|p ps IH]; simpl; [done|].
  by rewrite contains_empty, IH.
Qed.

(** C10.  [search_projects] with the empty query returns every registered
    project: each one matches on its name, the first test.  It raises only
    when the registry cannot be loaded. *)
Theorem search_projects_empty_query (E : Env) (w : World) :
  match ProjectRegistry.search_projects E "" w with
  | (Returns found, _) =>
      ∃ r, pr_view E w = Returns r ∧ found = (map_to_list (projects r)).*2
  | (Raises e, _) => pr_view E w = Raises e
  end.
Proof.
  unfold ProjectRegistry.search_projects. unfold_monad.
  destruct (pr_view E w) as [r|e] eqn:Hview.
  - rewrite (pr_registry_returns E w r Hview). exists r.
    split; [done|]. apply search_loop_empty.
  - by rewrite (pr_registry_raises E w e Hview).
Qed.

Lemma is_field_hasattr E k :
  ProjectRegistry.is_field k = true → ProjectRegistry.hasattr E k = true.
Proof. unfold ProjectRegistry.hasattr. by intros ->. Qed.

Lemma apply_updates_name E updates : ∀ project,
  Forall (leaves_name E) updates →
  ∃ patched,
    ProjectRegistry.apply_updates E updates project = (patched, None) ∧
    name patched = name project.
Proof.
  induction updates as [|u updates IH]; intros project Hall.
  - by exists project.
  - apply Forall_cons in Hall as [Hu Hall].
    destruct u; try done; cbn [ProjectRegistry.apply_updates ProjectRegistry.key].
    all: try (rewrite is_field_hasattr by done; cbn [ProjectRegistry.setattr];
              edestruct IH as (patched & Hrun & Hname); [exact Hall|];
              exists patched; split; [exact Hrun|by rewrite Hname]).
    simpl in Hu. rewrite Hu. by apply IH.
Qed.

(** C8 (amended).  An update whose patch has no entry for ["name"] and no
    entry for an attribute of the project that is no dataclass field leaves
    the project's name as it was: the project stored under the same key
    afterwards carries the name it had before, and no key is added or
    removed.  (The in-memory registry is updated even when the save that
    follows cannot write the file.) *)
Theorem update_project_keeps_name (E : Env) (key : string)
    (updates : list ProjectRegistry.Update) (w : World) (r : RegistryModel)
    (project : Project) :
  pr_view E w = Returns r →
  projects r !! key = Some project →
  Forall (leaves_name E) updates →
  ∃ outcome w' r' project',
    ProjectRegistry.update_project E key updates w = (outcome, w') ∧
    (can_write E = true → outcome = Returns project') ∧
    pr_view E w' = Returns r' ∧
    projects r' !! key = Some project' ∧
    name project' = name project ∧
    dom (projects r') = dom (projects r).
Proof.
  intros Hview Hkey Hupd.
  destruct (apply_updates_name E updates project Hupd) as (patched & Hrun & Hname).
  unfold ProjectRegistry.update_project, ProjectRegistry.get_project,
    ProjectRegistry.save, ProjectRegistry._create_backup, model_save.
  unfold_monad. rewrite (pr_registry_returns E w r Hview), Hkey.
  cbn. rewrite Hrun. cbn.
  assert (Hdom : ∀ p : Project, dom (<[key := p]> (projects r)) = dom (projects r)).
  { intros p. rewrite dom_insert_L. apply elem_of_dom_2 in Hkey.
    apply set_eq. intros k. rewrite elem_of_union, elem_of_singleton.
    split; [intros [->|?]; done | by right]. }
  destruct (file w) as [doc|]; cbn; destruct (can_write E); cbn;
    (eexists _, _, _, _; split; [reflexivity|]; split_and!;
     [done | reflexivity | cbn; apply lookup_insert_eq
     | cbn; exact Hname
     | cbn; apply Hdom ]).
Qed.

Lemma update_project_keeps_name_witness :
  ∃ r project,
    pr_view test_env
      (ProjectRegistry.update_project test_env "app"
         [ProjectRegistry.set_notes (Some "moved");
          ProjectRegistry.other "owner" (ProjectRegistry.assigns (λ p, p))]
         app_world).2 = Returns r ∧
    projects r !! "app" = Some project ∧ name project = "app".
Proof.
  destruct (update_project_keeps_name test_env "app"
              [ProjectRegistry.set_notes (Some "moved");
               ProjectRegistry.other "owner" (ProjectRegistry.assigns (λ p, p))]
              app_world app_registry app_project)
    as (outcome & w' & r' & project' & Hrun & _ & Hview & Hkey & Hname & _).
  - vm_compute. reflexivity.
  - vm_compute. reflexivity.
  - apply Forall_cons_2.
    + exact I.
    + apply Forall_cons_2.
      * vm_compute. reflexivity.
      * apply Forall_nil_2.
  - rewrite Hrun. exists r', project'. split_and!.
    + exact Hview.
    + exact Hkey.
    + exact Hname.
Defined.

(** C8, as stated, fails: a patch with the entry ["name" := "other"] renames
    the project, which stays stored under its old key "app"; and so does a
    patch without such an entry that assigns a dictionary with another name
    to the attribute ["__dict__"]. *)
Lemma update_project_renames :
  (∃ project,
     (ProjectRegistry.update_project test_env "app"
        [ProjectRegistry.set_name "other"] app_world).1 = Returns project ∧
     name project = "other") ∧
  (∃ r, pr_view test_env
          (ProjectRegistry.update_project test_env "app"
             [ProjectRegistry.set_name "other"] app_world).2 = Returns r ∧
        name <$> (projects r !! "app") = Some "other") ∧
  (∃ r, pr_view test_env
          (ProjectRegistry.update_project test_env "app"
             [ProjectRegistry.other "__dict__"
                (ProjectRegistry.assigns
                   (λ _, ProjectRegistry.set_field app_project
                           (ProjectRegistry.set_name "other")))]
             app_world).2 = Returns r ∧
        name <$> (projects r !! "app") = Some "other").
Proof.
  split_and!; eexists; (split; [vm_compute; reflexivity|]); vm_compute; reflexivity.
Qed.

(** *** Backups *)

Section Backups.

Lemma elem_of_sorted_backups (dir : gmap string RegistryModel) n :
  n ∈ ProjectRegistry.sorted_backups dir ↔
  ProjectRegistry.glob_backups n = true ∧ is_Some (dir !! n).
Proof.
  unfold ProjectRegistry.sorted_backups.
  rewrite merge_sort_Permutation, list_elem_of_filter, list_elem_of_fmap.
  split.
  - intros [Hg ([k v] & -> & Hkv)]. apply elem_of_map_to_list in Hkv. eauto.
  - intros [Hg [v Hv]]. split; [done|]. exists (n, v).
    split; [done|]. by apply elem_of_map_to_list.
Qed.

Lemma NoDup_sorted_backups (dir : gmap string RegistryModel) :
  NoDup (ProjectRegistry.sorted_backups dir).
Proof.
  unfold ProjectRegistry.sorted_backups. rewrite merge_sort_Permutation.
  apply NoDup_filter, NoDup_fst_map_to_list.
Qed.

Lemma StronglySorted_sorted_backups (dir : gmap string RegistryModel) :
  StronglySorted String.le (ProjectRegistry.sorted_backups dir).
Proof. apply StronglySorted_merge_sort; apply _. Qed.

Lemma endswith_app p s : endswith p (s +:+ p) = true.
Proof.
  induction s as [|c s IH]; simpl.
  - change ("" +:+ p) with p.
    destruct p; cbn [endswith]; by rewrite bool_decide_eq_true_2.
  - change (String c s +:+ p) with (String c (s +:+ p)). cbn [endswith].
    rewrite IH. apply orb_true_r.
Qed.

(** The name of a fresh backup is one the rotation looks at. *)
Lemma glob_backup_name t :
  ProjectRegistry.glob_backups (ProjectRegistry.backup_name t) = true.
Proof.
  unfold ProjectRegistry.glob_backups, ProjectRegistry.backup_name.
  change (strip_prefix "projects_" ("projects_" +:+ strftime_stamp t +:+ ".json"))
    with (Some (strftime_stamp t +:+ ".json")).
  apply endswith_app.
Qed.

(** The name has the resolution of a second. *)
Lemma backup_name_seconds y mo d h mi s us us' :
  ProjectRegistry.backup_name (mk_datetime y mo d h mi s us) =
  ProjectRegistry.backup_name (mk_datetime y mo d h mi s us').
Proof. done. Qed.

Lemma rotated_lookup dir n :
  rotated dir !! n =
    if decide (n ∈ take (length (ProjectRegistry.sorted_backups dir) - 10)
                        (ProjectRegistry.sorted_backups dir))
    then None else dir !! n.
Proof. apply lookup_foldl_delete. Qed.

Lemma rotated_subseteq dir : rotated dir ⊆ dir.
Proof.
  apply map_subseteq_spec. intros n v. rewrite rotated_lookup.
  by case_decide.
Qed.

Lemma rotated_other dir n :
  ProjectRegistry.glob_backups n = false → rotated dir !! n = dir !! n.
Proof.
  intros Hg. rewrite rotated_lookup. case_decide as Hin; [|done].
  apply elem_of_take in Hin as (i & Hi & _).
  apply list_elem_of_lookup_2, elem_of_sorted_backups in Hi as [Hg' _].
  congruence.
Qed.

(** After the rotation the backups are the last ten of the sorted names. *)
Lemma rotated_kept dir :
  ProjectRegistry.sorted_backups (rotated dir) =
    drop (length (ProjectRegistry.sorted_backups dir) - 10)
         (ProjectRegistry.sorted_backups dir).
Proof.
  set (l := ProjectRegistry.sorted_backups dir).
  set (k := (length l - 10)%nat).
  assert (Hnd : NoDup (take k l ++ drop k l)).
  { rewrite take_drop. apply NoDup_sorted_backups. }
  assert (Hss : StronglySorted String.le (take k l ++ drop k l)).
  { rewrite take_drop. apply StronglySorted_sorted_backups. }
  apply NoDup_app in Hnd as (_ & Hdisj & Hnd).
  apply (Sorted_unique String.le).
  - apply StronglySorted_Sorted, StronglySorted_sorted_backups.
  - apply StronglySorted_Sorted. by apply StronglySorted_app_1_r in Hss.
  - apply NoDup_Permutation; [apply NoDup_sorted_backups | done |].
    intros n. rewrite elem_of_sorted_backups, rotated_lookup. fold l k.
    case_decide as Hin.
    + split; [intros [_ [? ?]]; done|]. intros Hd. exfalso. by apply (Hdisj n).
    + rewrite <- elem_of_sorted_backups. fold l.
      rewrite <- (take_drop k l) at 1. rewrite elem_of_app. tauto.
Qed.

Lemma rotated_length dir :
  length (ProjectRegistry.sorted_backups (rotated dir)) =
    (length (ProjectRegistry.sorted_backups dir) `min` 10)%nat.
Proof. rewrite rotated_kept, length_drop. lia. Qed.

Lemma rotated_deletes_least dir n m :
  n ∈ ProjectRegistry.sorted_backups dir →
  n ∉ ProjectRegistry.sorted_backups (rotated dir) →
  m ∈ ProjectRegistry.sorted_backups (rotated dir) →
  String.le n m ∧ n ≠ m.
Proof.
  rewrite rotated_kept.
  set (l := ProjectRegistry.sorted_backups dir).
  set (k := (length l - 10)%nat).
  intros Hn Hnot Hm.
  assert (Hin : n ∈ take k l).
  { rewrite <- (take_drop k l) in Hn. apply elem_of_app in Hn as [|]; done. }
  split; [|by intros ->].
  apply (StronglySorted_app_1_elem_of String.le (take k l) (drop k l)); [|done..].
  rewrite take_drop. apply StronglySorted_sorted_backups.
Qed.

End Backups.

(** What [ProjectRegistry.save] does when a registry file is on disk. *)
Lemma save_outcome (E : Env) (modified_by : string) (w : World)
    (doc r : RegistryModel) :
  file w = Some doc →
  pr_view E w = Returns r →
  let r' :=
    set_metadata
      (mk_Metadata (meta_created_at (metadata r)) (isoformat (now E save_stamp))
                   modified_by (Z.of_nat (size (projects r)))
                   (active_projects (metadata r))) r in
  let dir' := rotated (<[ProjectRegistry.backup_name (now E backup_stamp) := doc]> (backup_dir w)) in
  ProjectRegistry.save E modified_by w =
    if can_write E
    then (Returns (), set_file (Some r') (set_backup_dir dir' (set_pr_registry (Some r') w)))
    else (Raises OSError, set_backup_dir dir' (set_pr_registry (Some r') w)).
Proof.
  intros Hfile Hview. cbv zeta.
  unfold ProjectRegistry.save, ProjectRegistry._create_backup, model_save.
  unfold_monad. rewrite (pr_registry_returns E w r Hview). cbn.
  rewrite Hfile. cbn. by destruct (can_write E).
Qed.

Lemma pm_save_backup_dir (E : Env) (w : World) :
  backup_dir (PortManager.save E w).2 = backup_dir w.
Proof.
  unfold PortManager.save, model_save. unfold_monad.
  destruct (PortManager.registry E w) as [[?|?] w1] eqn:Hreg; cbn.
  - unfold PortManager.registry in Hreg.
    destruct (pm_registry w); [|destruct (load E _ (file w))];
      simplify_eq; by destruct (can_write E).
  - unfold PortManager.registry in Hreg.
    destruct (pm_registry w); [|destruct (load E _ (file w))]; by simplify_eq.
Qed.

(** C3 (amended).  A write of the registry file made by
    [ProjectRegistry.save] (the write that registration, update and removal
    end with) while a registry file is on disk: the file as it is on disk is
    first copied into the backup directory under
    [projects_<YYYYMMDD_HHMMSS>.json], a name the rotation looks at; after
    the rotation every file left is a file of the directory with that copy,
    files of other names are untouched, at most ten backups remain (all of
    them when there were at most ten), and every backup that was unlinked is
    lexicographically below every backup that remains; then the file is
    replaced.  A write by [PortManager.save] (port allocation and release)
    leaves the backup directory as it was. *)
Theorem save_backs_up_and_rotates (E : Env) (modified_by : string) (w : World)
    (doc r : RegistryModel) :
  file w = Some doc →
  pr_view E w = Returns r →
  let w' := (ProjectRegistry.save E modified_by w).2 in
  let copied := <[ProjectRegistry.backup_name (now E backup_stamp) := doc]> (backup_dir w) in
  let kept := ProjectRegistry.sorted_backups (backup_dir w') in
  ProjectRegistry.glob_backups (ProjectRegistry.backup_name (now E backup_stamp)) = true ∧
  backup_dir w' ⊆ copied ∧
  (∀ n, ProjectRegistry.glob_backups n = false → backup_dir w' !! n = copied !! n) ∧
  length kept = (length (ProjectRegistry.sorted_backups copied) `min` 10)%nat ∧
  (∀ n m, n ∈ ProjectRegistry.sorted_backups copied → n ∉ kept → m ∈ kept →
          String.le n m ∧ n ≠ m) ∧
  (can_write E = true →
   ∃ r', file w' = Some r' ∧ projects r' = projects r ∧
         port_allocation r' = port_allocation r ∧
         last_modified_by (metadata r') = modified_by) ∧
  backup_dir (PortManager.save E w).2 = backup_dir w.
Proof.
  intros Hfile Hview. cbv zeta.
  rewrite (save_outcome E modified_by w doc r Hfile Hview).
  assert (Hdir : ∀ A (x y : Outcome A) w1 w2,
            backup_dir w1 = backup_dir w2 →
            backup_dir (if can_write E then (x, w1) else (y, w2)).2 = backup_dir w1).
  { intros. by destruct (can_write E). }
  rewrite Hdir by done. cbn [backup_dir set_file set_backup_dir].
  split_and!.
  - apply glob_backup_name.
  - apply rotated_subseteq.
  - apply rotated_other.
  - apply rotated_length.
  - apply rotated_deletes_least.
  - intros ->. cbn. eexists. split; [reflexivity|]. done.
  - apply pm_save_backup_dir.
Qed.

Lemma save_backs_up_and_rotates_witness :
  backup_dir (ProjectRegistry.save test_env "update_project" app_world).2 ⊆
    {[ "projects_20240517_093000.json" := app_registry ]} ∧
  length (ProjectRegistry.sorted_backups
            (backup_dir (ProjectRegistry.save test_env "update_project" app_world).2))
    = 1%nat.
Proof.
  destruct (save_backs_up_and_rotates test_env "update_project" app_world
              app_registry app_registry)
    as (_ & Hsub & _ & Hlen & _).
  - vm_compute. reflexivity.
  - vm_compute. reflexivity.
  - split.
    + exact Hsub.
    + exact Hlen.
Defined.

(** C3, as stated, fails: port allocation rewrites the registry file that is
    on disk and places nothing in the backup directory. *)
Lemma allocate_ports_writes_without_backup :
  (allocated ∘ port_allocation) <$> file test_world = Some ∅ ∧
  (allocated ∘ port_allocation) <$>
    file (PortManager.allocate_ports test_env "app" true true test_world).2 =
    Some {[ 3000 := "app"; 8000 := "app" ]} ∧
  backup_dir (PortManager.allocate_ports test_env "app" true true test_world).2 = ∅.
Proof. split_and!; vm_compute; reflexivity. Qed.

(** Registration, update and removal end with that save: when one of them
    returns, the file and the backup directory are as its
    [ProjectRegistry.save] left them. *)

Section EndsWithSave.
Context (E : Env).

Lemma pr_registry_keeps_files w :
  file (ProjectRegistry.registry E w).2 = file w ∧
  backup_dir (ProjectRegistry.registry E w).2 = backup_dir w.
Proof.
  unfold ProjectRegistry.registry.
  destruct (pr_registry w); [done|]. by destruct (load E _ (file w)).
Qed.

Lemma update_project_ends_with_save key updates w project w' :
  ProjectRegistry.update_project E key updates w = (Returns project, w') →
  ends_with_save E "update_project" w'.
Proof.
  unfold ProjectRegistry.update_project, ProjectRegistry.get_project.
  unfold_monad.
  destruct (ProjectRegistry.registry E w) as [[r|e] w1]; [|done].
  destruct (projects r !! key) as [p|]; [|done].
  destruct (ProjectRegistry.apply_updates E updates p) as [patched [e|]].
  { destruct (ProjectRegistry.registry E w1) as [[r1|e1] w2]; done. }
  destruct (ProjectRegistry.registry E w1) as [[r1|e] w2]; [|done].
  match goal with
  | |- context [ProjectRegistry.save E ?a ?wm] =>
      destruct (ProjectRegistry.save E a wm) as [[[]|e] ws] eqn:Hsave; [|done]
  end.
  intros [= _ <-]. by eexists _, _.
Qed.

Lemma remove_project_ends_with_save name release_ports w b w' :
  ProjectRegistry.remove_project E name release_ports w = (Returns b, w') →
  ends_with_save E "remove_project" w'.
Proof.
  unfold ProjectRegistry.remove_project.
  unfold_monad.
  destruct (ProjectRegistry.registry E w) as [[r|e] w1]; [|done].
  case_bool_decide; [done|].
  destruct release_ports.
  - destruct (PortManager.release_ports E name w1) as [[released|e] w2]; [|done].
    destruct (ProjectRegistry.registry E w2) as [[r2|e] w3]; [|done].
    match goal with
    | |- context [ProjectRegistry.save E ?a ?wm] =>
        destruct (ProjectRegistry.save E a wm) as [[[]|e] ws] eqn:Hsave; [|done]
    end.
    intros [= _ <-]. by eexists _, _.
  - destruct (ProjectRegistry.registry E w1) as [[r2|e] w3]; [|done].
    match goal with
    | |- context [ProjectRegistry.save E ?a ?wm] =>
        destruct (ProjectRegistry.save E a wm) as [[[]|e] ws] eqn:Hsave; [|done]
    end.
    intros [= _ <-]. by eexists _, _.
Qed.

Lemma register_project_ends_with_save name path display_name description
    frontend_command backend_command frontend_cwd backend_cwd env_vars tags
    auto_allocate_ports w project w' :
  ProjectRegistry.register_project E name path display_name description
    frontend_command backend_command frontend_cwd backend_cwd env_vars tags
    auto_allocate_ports w = (Returns project, w') →
  ends_with_save E "register_project" w'.
Proof.
  unfold ProjectRegistry.register_project, ProjectRegistry.lift_outcome,
    ProjectRegistry._generate_env_file.
  unfold_monad.
  destruct (ProjectRegistry.registry E w) as [[r|e] w1]; [|done].
  case_bool_decide; [done|].
  destruct (path_exists E path); [|done]. destruct (path_is_dir E path); [|done].
  cbn [negb].
  match goal with
  | |- context [(if auto_allocate_ports then ?a else ?b) w1] =>
      destruct ((if auto_allocate_ports then a else b) w1) as [[ports|e] w2]; [|done]
  end.
  destruct (ProjectRegistry.registry E w2) as [[r2|e] w3]; [|done].
  match goal with
  | |- context [__post_init__ ?p] => destruct (__post_init__ p) as [pj|]; [|done]
  end.
  destruct (ProjectRegistry.registry E w3) as [[r3|e] w4]; [|done].
  match goal with
  | |- context [ProjectRegistry.save E ?a ?wm] =>
      destruct (ProjectRegistry.save E a wm) as [[[]|e] ws] eqn:Hsave; [|done]
  end.
  pose proof (pr_registry_keeps_files ws) as [Hf Hb].
  destruct (ProjectRegistry.registry E ws) as [[r4|e] w5]; [|done].
  simpl in Hf, Hb.
  destruct (auto_generate_env (settings r4)).
  - pose proof (pr_registry_keeps_files w5) as [Hf' Hb'].
    destruct (ProjectRegistry.registry E w5) as [[r5|e] w6]; [|done].
    simpl in Hf', Hb'. cbn.
    intros [= _ <-]. eexists _, ws. split; [exact Hsave|]. cbn. split; congruence.
  - intros [= _ <-]. eexists _, ws. split; [exact Hsave|]. split; congruence.
Qed.

End EndsWithSave.

(** *** Registration *)

Section Rejections.
Context (E : Env).

(** [allocate_ports] touches the port manager's registry and the file,
    nothing else. *)
Lemma allocate_ports_frame project_name need_frontend need_backend w :
  pr_registry
    (PortManager.allocate_ports E project_name need_frontend need_backend w).2 =
    pr_registry w ∧
  backup_dir
    (PortManager.allocate_ports E project_name need_frontend need_backend w).2 =
    backup_dir w.
Proof.
  destruct w as [f b ef pr pm].
  unfold PortManager.allocate_ports, PortManager.find_available_frontend_port,
    PortManager.find_available_backend_port, PortManager.find_available_port,
    PortManager.record_port, PortManager.save, model_save.
  unfold_monad.
  destruct pm as [r|]; [|destruct (load E port_manager f) as [r|e] eqn:Hload];
    destruct need_frontend, need_backend; cbn; rewrite ?Hload; cbn;
    repeat (match goal with
            | |- context [PortManager.scan ?a ?b ?c ?d] =>
                destruct (PortManager.scan a b c d) as [[?|]|?]; cbn
            end);
    try (destruct (can_write E); cbn);
    unfold PortManager.pop_port; unfold_monad; cbn;
    rewrite ?Hload; cbn; done.
Qed.

Lemma pr_registry_cached w r :
  pr_registry w = Some r → ProjectRegistry.registry E w = (Returns r, w).
Proof. unfold ProjectRegistry.registry. by intros ->. Qed.

Lemma pr_view_ext w1 w2 :
  pr_registry w1 = pr_registry w2 → file w1 = file w2 → pr_view E w1 = pr_view E w2.
Proof.
  unfold pr_view, ProjectRegistry.registry. intros -> ->.
  destruct (pr_registry w2); [done|]. by destruct (load E _ (file w2)).
Qed.

Lemma pm_allocated_ext w1 w2 :
  pm_registry w1 = pm_registry w2 → file w1 = file w2 →
  pm_allocated E w1 = pm_allocated E w2.
Proof.
  unfold pm_allocated, pm_view, PortManager.registry. intros -> ->.
  destruct (pm_registry w2); [done|]. by destruct (load E _ (file w2)).
Qed.

Lemma bind_raises {S A B} (m : M S A) (f : A → M S B) s e s' :
  (m ≫= f) s = (Raises e, s') →
  m s = (Raises e, s') ∨ ∃ a s1, m s = (Returns a, s1) ∧ f a s1 = (Raises e, s').
Proof.
  unfold mbind, M_bind. destruct (m s) as [[a|e0] s1]; simpl.
  - intros Hf. right. by exists a, s1.
  - intros Hf. left. by injection Hf as <- <-.
Qed.

Lemma save_raises_OSError modified_by w r e w' :
  pr_registry w = Some r →
  ProjectRegistry.save E modified_by w = (Raises e, w') → e = OSError.
Proof.
  intros Hpr. unfold ProjectRegistry.save, ProjectRegistry._create_backup, model_save.
  unfold_monad. rewrite (pr_registry_cached w r Hpr). cbn.
  destruct (file w); cbn; destruct (can_write E); cbn; congruence.
Qed.

Lemma save_keeps_registry_loaded modified_by w r o w' :
  pr_registry w = Some r →
  ProjectRegistry.save E modified_by w = (o, w') → is_Some (pr_registry w').
Proof.
  intros Hpr. unfold ProjectRegistry.save, ProjectRegistry._create_backup, model_save.
  unfold_monad. rewrite (pr_registry_cached w r Hpr). cbn.
  destruct (file w); cbn; destruct (can_write E); cbn; intros [= _ <-]; cbn; eauto.
Qed.

Lemma generate_env_file_returns project w r :
  pr_registry w = Some r →
  ∃ w', ProjectRegistry._generate_env_file E project w = (Returns (), w').
Proof.
  intros Hpr. unfold ProjectRegistry._generate_env_file. unfold_monad.
  rewrite (pr_registry_cached w r Hpr). eauto.
Qed.

(** The rejections that are detected before anything is committed: a name
    already taken, a path that is no directory, a range with no port left.
    They leave the file, the backups, the port manager's map and the
    projects as they were. *)
Lemma register_project_rejects_cleanly name path display_name description
    frontend_command backend_command frontend_cwd backend_cwd env_vars tags
    auto_allocate_ports w e w' :
  ProjectRegistry.register_project E name path display_name description
    frontend_command backend_command frontend_cwd backend_cwd env_vars tags
    auto_allocate_ports w = (Raises e, w') →
  e ∈ [ProjectExistsError; InvalidPathError; PortExhaustedError] →
  file w' = file w ∧ backup_dir w' = backup_dir w ∧
  pm_allocated E w' = pm_allocated E w ∧ pr_view E w' = pr_view E w.
Proof.
  intros Hrun He.
  assert (Hnot : e ≠ ValueError ∧ e ≠ OSError).
  { repeat rewrite elem_of_cons in He. rewrite elem_of_nil in He.
    destruct He as [->|[->|[->|[]]]]; done. }
  destruct Hnot as [Hv Ho].
  unfold ProjectRegistry.register_project in Hrun.
  apply bind_raises in Hrun as [Hreg|(r & w1 & Hreg & Hrun)].
  { unfold ProjectRegistry.registry in Hreg.
    destruct (pr_registry w); [done|].
    destruct (load E _ (file w)); [done|]. by injection Hreg as _ <-. }
  assert (Hw1 : pr_registry w1 = Some r ∧ file w1 = file w ∧
                backup_dir w1 = backup_dir w ∧ pm_registry w1 = pm_registry w ∧
                pr_view E w1 = pr_view E w).
  { unfold pr_view. unfold ProjectRegistry.registry in *.
    destruct (pr_registry w) eqn:Hpr.
    - injection Hreg as <- <-. by rewrite Hpr.
    - destruct (load E _ (file w)) eqn:Hload; [|done].
      injection Hreg as <- <-. cbn. rewrite ?Hpr, ?Hload. done. }
  destruct Hw1 as (Hpr1 & Hf1 & Hb1 & Hpm1 & Hv1).
  assert (Hclean1 : file w1 = file w ∧ backup_dir w1 = backup_dir w ∧
                    pm_allocated E w1 = pm_allocated E w ∧ pr_view E w1 = pr_view E w).
  { split_and!; try done. by apply pm_allocated_ext. }
  case_bool_decide; [by injection Hrun as _ <-|].
  destruct (path_exists E path); [|by injection Hrun as _ <-].
  destruct (path_is_dir E path); [|by injection Hrun as _ <-].
  cbn [negb] in Hrun.
  apply bind_raises in Hrun as [Halloc|(ports & w2 & Halloc & Hrun)].
  - (* the allocation failed *)
    destruct auto_allocate_ports; [|done].
    destruct (_ || _); [|done].
    pose proof (allocate_ports_spec E name (bool_decide (is_Some frontend_command))
                  (bool_decide (is_Some backend_command)) w1) as Hspec.
    pose proof (allocate_ports_frame name (bool_decide (is_Some frontend_command))
                  (bool_decide (is_Some backend_command)) w1) as [Hfp Hfb].
    rewrite Halloc in Hspec, Hfp, Hfb. cbn in Hfp, Hfb.
    destruct Hspec as [Ha Hf]. split_and!.
    + congruence.
    + congruence.
    + destruct Hclean1 as (_ & _ & <- & _). done.
    + rewrite <- Hv1. apply pr_view_ext; congruence.
  - (* nothing raises one of the three errors after the allocation *)
    exfalso.
    assert (Hpr2 : pr_registry w2 = Some r).
    { destruct auto_allocate_ports; [|by injection Halloc as _ <-].
      destruct (_ || _); [|by injection Halloc as _ <-].
      pose proof (allocate_ports_frame name (bool_decide (is_Some frontend_command))
                    (bool_decide (is_Some backend_command)) w1) as [Hfp _].
      rewrite Halloc in Hfp. cbn in Hfp. congruence. }
    apply bind_raises in Hrun as [Hreg2|(r2 & w3 & Hreg2 & Hrun)].
    { by rewrite (pr_registry_cached w2 r Hpr2) in Hreg2. }
    rewrite (pr_registry_cached w2 r Hpr2) in Hreg2. injection Hreg2 as <- <-.
    apply bind_raises in Hrun as [Hpost|(pj & w3 & Hpost & Hrun)].
    { unfold ProjectRegistry.lift_outcome, __post_init__ in Hpost.
      case_match; [done|]. by injection Hpost as <- _. }
    assert (w3 = w2) as ->.
    { unfold ProjectRegistry.lift_outcome in Hpost. by injection Hpost as _ <-. }
    apply bind_raises in Hrun as [Hreg3|(r3 & w4 & Hreg3 & Hrun)].
    { by rewrite (pr_registry_cached w2 r Hpr2) in Hreg3. }
    rewrite (pr_registry_cached w2 r Hpr2) in Hreg3. injection Hreg3 as <- <-.
    apply bind_raises in Hrun as [Hmod|([] & w5 & Hmod & Hrun)]; [done|].
    injection Hmod as <-.
    apply bind_raises in Hrun as [Hsave|([] & ws & Hsave & Hrun)].
    { eapply save_raises_OSError in Hsave; [done|]. reflexivity. }
    eapply save_keeps_registry_loaded in Hsave as [rs Hprs]; [|reflexivity].
    apply bind_raises in Hrun as [Hreg4|(r4 & w6 & Hreg4 & Hrun)].
    { by rewrite (pr_registry_cached ws rs Hprs) in Hreg4. }
    rewrite (pr_registry_cached ws rs Hprs) in Hreg4. injection Hreg4 as <- <-.
    apply bind_raises in Hrun as [Hgen|([] & w7 & Hgen & Hrun)]; [|done].
    destruct (auto_generate_env (settings rs)); [|done].
    destruct (generate_env_file_returns pj ws rs Hprs) as [wg Hg]. congruence.
Qed.

End Rejections.

Section StaleAllocation.
Context (E : Env).

Lemma bind_returns {S A B} (m : M S A) (f : A → M S B) s b s' :
  (m ≫= f) s = (Returns b, s') →
  ∃ a s1, m s = (Returns a, s1) ∧ f a s1 = (Returns b, s').
Proof.
  unfold mbind, M_bind. destruct (m s) as [[a|e0] s1]; simpl; [|done].
  intros Hf. by exists a, s1.
Qed.

Lemma save_returns_file modified_by w r w' :
  pr_registry w = Some r →
  ProjectRegistry.save E modified_by w = (Returns (), w') →
  ∃ r', file w' = Some r' ∧ pr_registry w' = Some r' ∧
        port_allocation r' = port_allocation r.
Proof.
  intros Hpr. unfold ProjectRegistry.save, ProjectRegistry._create_backup, model_save.
  unfold_monad. rewrite (pr_registry_cached E w r Hpr). cbn.
  destruct (file w); cbn; destruct (can_write E); cbn; intros [= <-]; cbn; eauto.
Qed.

Lemma service_for_port command granted cwd service :
  ProjectRegistry.service_for command granted cwd = Some service →
  port service = granted.
Proof.
  unfold ProjectRegistry.service_for. destruct command as [[|c s]|]; try done.
  by intros [= <-].
Qed.

Lemma fill_display_name_services q :
  frontend (fill_display_name q) = frontend q ∧
  backend (fill_display_name q) = backend q.
Proof. unfold fill_display_name. by destruct (display_name q) as [[|]|]. Qed.

(** Whatever a registration grants, the file it leaves carries the
    allocation map that the project directory had loaded, and none of the
    ports the new project holds is a key of it (the project directory and the
    port manager having started from the same map). *)
Lemma register_project_persists_stale_allocation name path display_name
    description frontend_command backend_command frontend_cwd backend_cwd
    env_vars tags auto_allocate_ports w r project w' :
  pr_view E w = Returns r →
  pm_allocated E w = Returns (allocated (port_allocation r)) →
  ProjectRegistry.register_project E name path display_name description
    frontend_command backend_command frontend_cwd backend_cwd env_vars tags
    auto_allocate_ports w = (Returns project, w') →
  (allocated ∘ port_allocation) <$> file w' = Some (allocated (port_allocation r)) ∧
  ∀ service p,
    frontend project = Some service ∨ backend project = Some service →
    port service = Some p →
    allocated (port_allocation r) !! p = None.
Proof.
  intros Hview Hpm Hrun.
  unfold ProjectRegistry.register_project in Hrun.
  apply bind_returns in Hrun as (r0 & w1 & Hreg & Hrun).
  rewrite (pr_registry_returns E w r Hview) in Hreg. injection Hreg as <- <-.
  set (w1 := set_pr_registry (Some r) w) in *.
  case_bool_decide; [done|].
  destruct (path_exists E path); [|done].
  destruct (path_is_dir E path); [|done].
  cbn [negb] in Hrun.
  apply bind_returns in Hrun as (ports & w2 & Halloc & Hrun).
  assert (Hports : pr_registry w2 = Some r ∧
                   ∀ k p, ports !! k = Some p →
                          allocated (port_allocation r) !! p = None).
  { assert (Hnone : (Returns (∅ : gmap string Z), w1) = (Returns ports, w2) →
                    pr_registry w2 = Some r ∧
                    ∀ k p, ports !! k = Some p →
                           allocated (port_allocation r) !! p = None).
    { intros [= <- <-]. split; [done|]. intros k p Hk. by rewrite lookup_empty in Hk. }
    destruct auto_allocate_ports; [|by apply Hnone].
    destruct (_ || _); [|by apply Hnone].
    pose proof (allocate_ports_spec E name (bool_decide (is_Some frontend_command))
                  (bool_decide (is_Some backend_command)) w1) as Hspec.
    pose proof (allocate_ports_frame E name (bool_decide (is_Some frontend_command))
                  (bool_decide (is_Some backend_command)) w1) as [Hfp _].
    rewrite Halloc in Hspec, Hfp. cbn in Hfp.
    destruct Hspec as (before & after & Hb & _ & _ & Hgrant & _).
    split; [by rewrite Hfp|].
    rewrite (pm_allocated_ext E w1 w) in Hb by done.
    rewrite Hpm in Hb. injection Hb as <-.
    intros k p Hk. by apply Hgrant in Hk as [? _]. }
  destruct Hports as [Hpr2 Hfresh].
  apply bind_returns in Hrun as (r2 & w3 & Hreg2 & Hrun).
  rewrite (pr_registry_cached E w2 r Hpr2) in Hreg2. injection Hreg2 as <- <-.
  apply bind_returns in Hrun as (pj & w3 & Hpost & Hrun).
  unfold ProjectRegistry.lift_outcome, __post_init__ in Hpost.
  case_match; [|done]. injection Hpost as <- <-.
  apply bind_returns in Hrun as (r3 & w4 & Hreg3 & Hrun).
  rewrite (pr_registry_cached E w2 r Hpr2) in Hreg3. injection Hreg3 as <- <-.
  apply bind_returns in Hrun as ([] & w5 & Hmod & Hrun).
  injection Hmod as <-.
  apply bind_returns in Hrun as ([] & ws & Hsave & Hrun).
  eapply save_returns_file in Hsave as (rs & Hfs & Hprs & Hpa); [|reflexivity].
  cbn in Hpa.
  apply bind_returns in Hrun as (r4 & w6 & Hreg4 & Hrun).
  rewrite (pr_registry_cached E ws rs Hprs) in Hreg4. injection Hreg4 as <- <-.
  apply bind_returns in Hrun as ([] & w7 & Hgen & Hrun).
  injection Hrun as <- <-.
  assert (Hfile : file w7 = file ws).
  { destruct (auto_generate_env (settings rs)); [|by injection Hgen as <-].
    unfold ProjectRegistry._generate_env_file in Hgen. unfold_monad.
    rewrite (pr_registry_cached E ws rs Hprs) in Hgen. by injection Hgen as <-. }
  split.
  - rewrite Hfile, Hfs. cbn. by rewrite Hpa.
  - intros service p Hservice Hp.
    destruct (fill_display_name_services (mk_Project name (path_absolute E path) display_name description
        (ProjectRegistry.service_for frontend_command (ports !! "frontend") frontend_cwd)
        (ProjectRegistry.service_for backend_command (ports !! "backend") backend_cwd)
        env_vars [] (remove_dups (default_tags (settings r) ++ tags))
        (isoformat (now E project_created_at))
        (isoformat (now E project_updated_at)) None)) as [Hfe Hbe].
    cbn in Hfe, Hbe. rewrite Hfe, Hbe in Hservice.
    destruct Hservice as [Hs|Hs]; apply service_for_port in Hs;
      rewrite Hs in Hp; by eapply Hfresh.
Qed.

End StaleAllocation.

(** C2, on the fixture of the tests: registering "test-project" with a
    backend command returns a project whose backend holds port 8000, and the
    port manager records that port; the file written last comes from the
    project directory's own copy of the registry, whose allocation map never
    saw the port, so the document on disk has no entry for it. *)
Lemma register_project_loses_allocation :
  ∃ project w',
    ProjectRegistry.register_project test_env "test-project" "/srv/test-project"
      None None None (Some "python main.py") None None ∅ [] true test_world =
      (Returns project, w') ∧
    port <$> backend project = Some (Some 8000) ∧
    pm_allocated test_env w' = Returns {[ 8000 := "test-project" ]} ∧
    (allocated ∘ port_allocation) <$> file w' = Some ∅.
Proof.
  eexists _, _. split; [vm_compute; reflexivity|].
  split_and!; vm_compute; reflexivity.
Qed.

(** C4, on the fixture of the tests: a name that does not match the pattern
    is rejected with [ValueError] only when the project is built, after the
    ports were allocated and saved; the port stays in the port manager's map
    and in the file. *)
Lemma register_project_bad_name_leaves_ports :
  ∃ w',
    ProjectRegistry.register_project test_env "Bad_Name" "/srv/bad"
      None None (Some "npm run dev") None None None ∅ [] true test_world =
      (Raises ValueError, w') ∧
    pm_allocated test_env test_world = Returns ∅ ∧
    pm_allocated test_env w' = Returns {[ 3000 := "Bad_Name" ]} ∧
    (allocated ∘ port_allocation) <$> file test_world = Some ∅ ∧
    (allocated ∘ port_allocation) <$> file w' = Some {[ 3000 := "Bad_Name" ]}.
Proof.
  eexists. split; [vm_compute; reflexivity|].
  split_and!; vm_compute; reflexivity.
Qed.

(** *** Status aggregation *)

Section StatusFacts.

Lemma service_status_cases processes pm2_name port :
  ProcessController.status
    (ProcessController._get_service_status processes pm2_name port)
  ∈ ["online"; "stopped"; "errored"; "not_started"].
Proof.
  unfold ProcessController._get_service_status.
  destruct (ProcessController._get_pm2_process processes pm2_name); simpl.
  - repeat case_bool_decide; rewrite !elem_of_cons; auto.
  - rewrite !elem_of_cons; auto.
Qed.

Lemma forallb_Forall_eq (P : string → Prop) `{∀ s, Decision (P s)} l :
  forallb (λ s, bool_decide (P s)) l = true ↔ Forall P l.
Proof.
  rewrite forallb_forall, Forall_forall.
  setoid_rewrite bool_decide_eq_true. by setoid_rewrite list_elem_of_In.
Qed.

Lemma existsb_Exists_eq (P : string → Prop) `{∀ s, Decision (P s)} l :
  existsb (λ s, bool_decide (P s)) l = true ↔ Exists P l.
Proof.
  rewrite existsb_exists, Exists_exists.
  setoid_rewrite bool_decide_eq_true. by setoid_rewrite list_elem_of_In.
Qed.

Lemma online_not_stopped s :
  s = "online" → s ∈ ["stopped"; "not_started"] → False.
Proof.
  intros ->. rewrite !elem_of_cons, elem_of_nil. intros [?|[?|[]]]; discriminate.
Qed.

Lemma errored_not_stopped s :
  s = "errored" → s ∈ ["stopped"; "not_started"] → False.
Proof.
  intros ->. rewrite !elem_of_cons, elem_of_nil. intros [?|[?|[]]]; discriminate.
Qed.

(** The [if / elif] chain decides by the first test that holds. *)
Lemma overall_chain statuses :
  ProcessController.overall statuses =
    if decide (statuses = []) then "stopped"
    else if decide (Forall (λ s, s = "online") statuses) then "running"
    else if decide (Forall (λ s, s ∈ ["stopped"; "not_started"]) statuses)
         then "stopped"
    else if decide (Exists (λ s, s = "errored") statuses) then "error"
    else "partial".
Proof.
  unfold ProcessController.overall.
  case_bool_decide; case_decide; try done.
  destruct (forallb (λ s, bool_decide (s = "online")) statuses) eqn:Hon.
  { apply forallb_Forall_eq in Hon. by rewrite decide_True. }
  apply not_true_iff_false in Hon. rewrite forallb_Forall_eq in Hon.
  rewrite decide_False by done.
  destruct (forallb (λ s, bool_decide (s ∈ ["stopped"; "not_started"])) statuses)
    eqn:Hst.
  { apply forallb_Forall_eq in Hst. by rewrite decide_True. }
  apply not_true_iff_false in Hst. rewrite forallb_Forall_eq in Hst.
  rewrite decide_False by done.
  destruct (existsb (λ s, bool_decide (s = "errored")) statuses) eqn:Her.
  { apply existsb_Exists_eq in Her. by rewrite decide_True. }
  apply not_true_iff_false in Her. rewrite existsb_Exists_eq in Her.
  by rewrite decide_False.
Qed.

(** The table of section 4.4 of the specification. *)
Lemma overall_table statuses :
  (statuses = [] → ProcessController.overall statuses = "stopped") ∧
  (statuses ≠ [] → Forall (λ s, s = "online") statuses →
   ProcessController.overall statuses = "running") ∧
  (Forall (λ s, s ∈ ["stopped"; "not_started"]) statuses →
   ProcessController.overall statuses = "stopped") ∧
  (Exists (λ s, s = "errored") statuses →
   ProcessController.overall statuses = "error") ∧
  (¬ Forall (λ s, s = "online") statuses →
   ¬ Forall (λ s, s ∈ ["stopped"; "not_started"]) statuses →
   ¬ Exists (λ s, s = "errored") statuses →
   ProcessController.overall statuses = "partial").
Proof.
  rewrite overall_chain. split_and!.
  - intros ->. done.
  - intros Hne Hon. by rewrite decide_False, decide_True.
  - intros Hst. case_decide as Hnil; [done|].
    case_decide as Hon; [|by rewrite decide_True].
    destruct statuses as [|s statuses]; [done|].
    apply Forall_cons in Hon as [Hs _]. apply Forall_cons in Hst as [Hs' _].
    destruct (online_not_stopped s Hs Hs').
  - intros Her. apply Exists_exists in Her as (s & Hin & Hs).
    case_decide as Hnil; [subst; by apply elem_of_nil in Hin|].
    case_decide as Hon.
    { rewrite Forall_forall in Hon. specialize (Hon s Hin). congruence. }
    case_decide as Hst.
    { rewrite Forall_forall in Hst. destruct (errored_not_stopped s Hs (Hst s Hin)). }
    rewrite decide_True; [done|]. apply Exists_exists. eauto.
  - intros Hon Hst Her. case_decide as Hnil.
    { subst. destruct Hon. constructor. }
    by rewrite !decide_False.
Qed.

Lemma overall_mixed statuses :
  Forall (λ s, s ∈ ["online"; "stopped"; "errored"; "not_started"]) statuses →
  ¬ Forall (λ s, s = "online") statuses →
  ¬ Forall (λ s, s ∈ ["stopped"; "not_started"]) statuses →
  ¬ Exists (λ s, s = "errored") statuses →
  Exists (λ s, s = "online") statuses ∧
  Exists (λ s, s ∈ ["stopped"; "not_started"]) statuses.
Proof.
  intros Hfour Hon Hst Her.
  apply not_Forall_Exists in Hon; [|apply _].
  apply not_Forall_Exists in Hst; [|apply _].
  rewrite Forall_forall in Hfour.
  apply Exists_exists in Hon as (s1 & Hs1 & Hn1).
  apply Exists_exists in Hst as (s2 & Hs2 & Hn2).
  assert (He : ∀ s, s ∈ statuses → s ≠ "errored").
  { intros s Hs ->. apply Her, Exists_exists. eauto. }
  split; apply Exists_exists.
  - exists s2. split; [done|].
    specialize (Hfour s2 Hs2). specialize (He s2 Hs2). simpl in Hn2.
    repeat rewrite elem_of_cons in Hfour. repeat rewrite elem_of_cons in Hn2.
    rewrite elem_of_nil in Hfour, Hn2. tauto.
  - exists s1. split; [done|].
    specialize (Hfour s1 Hs1). specialize (He s1 Hs1). simpl in Hn1.
    repeat rewrite elem_of_cons in Hfour. rewrite elem_of_nil in Hfour.
    repeat rewrite elem_of_cons. unfold compose in Hn1. tauto.
Qed.

Lemma aggregate_facts statuses :
  Forall (λ s, s ∈ ["online"; "stopped"; "errored"; "not_started"]) statuses →
  let overall := ProcessController.overall statuses in
  Forall (λ s, s ∈ ["online"; "stopped"; "errored"; "not_started"]) statuses ∧
  (statuses = [] → overall = "stopped") ∧
  (statuses ≠ [] → Forall (λ s, s = "online") statuses → overall = "running") ∧
  (Forall (λ s, s ∈ ["stopped"; "not_started"]) statuses → overall = "stopped") ∧
  (Exists (λ s, s = "errored") statuses → overall = "error") ∧
  (¬ Forall (λ s, s = "online") statuses →
   ¬ Forall (λ s, s ∈ ["stopped"; "not_started"]) statuses →
   ¬ Exists (λ s, s = "errored") statuses →
   overall = "partial" ∧
   Exists (λ s, s = "online") statuses ∧
   Exists (λ s, s ∈ ["stopped"; "not_started"]) statuses).
Proof.
  intros Hfour. cbv zeta.
  destruct (overall_table statuses) as (H1 & H2 & H3 & H4 & H5).
  split_and!; try done.
  intros Hon Hst Her. split; [by apply H5|]. by apply overall_mixed.
Qed.

End StatusFacts.

Lemma service_status_listed processes pm2_name port :
  listed_as processes pm2_name
    (ProcessController.status
       (ProcessController._get_service_status processes pm2_name port)).
Proof.
  unfold listed_as, ProcessController._get_service_status,
    ProcessController._get_pm2_process.
  destruct (list_find _ processes) as [[i proc]|] eqn:Hfind; simpl.
  - apply list_find_Some in Hfind as (Hi & Hn & Hmin). right. exists i, proc.
    split; [done|]. split; [done|].
    split; [intros j q Hj Hq; by apply (Hmin j q)|].
    destruct (ProcessController.pm2_status proc) as [s|]; simpl;
      repeat case_bool_decide; subst; try done.
    + by left.
    + right. by left.
    + right. right. split_and!; [by intros [= ?]|by intros [= ?]|done].
    + right. right. by split_and!.
  - left. split; [done|]. apply list_find_None in Hfind. intros q Hq.
    by apply (proj1 (Forall_forall _ _) Hfind).
Qed.

Lemma service_reported jlist processes pm2_name s :
  jlist = Returns processes → enabled s = true →
  reports jlist pm2_name (Some s)
    (Some (ProcessController._get_service_status processes pm2_name (port s))).
Proof.
  intros -> Hen. unfold reports. rewrite Hen. eexists _, _.
  split; [done|]. split; [done|]. split_and!.
  - unfold ProcessController._get_service_status.
    by destruct (ProcessController._get_pm2_process processes pm2_name).
  - unfold ProcessController._get_service_status.
    by destruct (ProcessController._get_pm2_process processes pm2_name).
  - apply service_status_listed.
Qed.

(** C7.  The overall status of a project is computed from the statuses of
    its present (configured and enabled) services alone.  The project is
    the registered one of that name; a status is reported for the frontend
    exactly when the project has an enabled frontend, and for the backend
    likewise; the status of a reported service is what the supervisor's
    listing says of the process "<name>-fe" or "<name>-be": "online" or
    "stopped" as listed, "errored" for any other listed state, and
    "not_started" for a service that is not listed.  From those statuses:
    with no present service the overall status is "stopped"; all "online"
    gives "running"; all "stopped" or "not_started" gives "stopped"; any
    "errored" gives "error"; and in every remaining case, which mixes
    "online" with "stopped" or "not_started", it is "partial".  No status
    is returned for a project that is not registered; the call raises only
    when the registry cannot be loaded or the supervisor cannot be asked. *)
Theorem overall_status_aggregates (E : Env)
    (jlist_fe jlist_be : Outcome (list ProcessController.Pm2Process))
    (project_name : string) (w : World) :
  match (ProcessController.get_project_status E jlist_fe jlist_be project_name w).1 with
  | Returns (Some ps) =>
      let statuses := present_statuses ps in
      let overall := ProcessController.overall_status ps in
      (∃ r project,
         pr_view E w = Returns r ∧ projects r !! project_name = Some project ∧
         reports jlist_fe (project_name +:+ "-fe") (frontend project)
                 (ProcessController.frontend_status ps) ∧
         reports jlist_be (project_name +:+ "-be") (backend project)
                 (ProcessController.backend_status ps)) ∧
      ProcessController.project_name ps = project_name ∧
      Forall (λ s, s ∈ ["online"; "stopped"; "errored"; "not_started"]) statuses ∧
      (statuses = [] → overall = "stopped") ∧
      (statuses ≠ [] → Forall (λ s, s = "online") statuses → overall = "running") ∧
      (Forall (λ s, s ∈ ["stopped"; "not_started"]) statuses → overall = "stopped") ∧
      (Exists (λ s, s = "errored") statuses → overall = "error") ∧
      (¬ Forall (λ s, s = "online") statuses →
       ¬ Forall (λ s, s ∈ ["stopped"; "not_started"]) statuses →
       ¬ Exists (λ s, s = "errored") statuses →
       overall = "partial" ∧
       Exists (λ s, s = "online") statuses ∧
       Exists (λ s, s ∈ ["stopped"; "not_started"]) statuses)
  | Returns None =>
      ∃ r, pr_view E w = Returns r ∧ projects r !! project_name = None
  | Raises e =>
      pr_view E w = Raises e ∨ jlist_fe = Raises e ∨ jlist_be = Raises e
  end.
Proof.
  unfold ProcessController.get_project_status, ProjectRegistry.get_project,
    ProjectRegistry.lift_outcome.
  unfold_monad.
  destruct (pr_view E w) as [r|e] eqn:Hview.
  2:{ rewrite (pr_registry_raises E w e Hview). by left. }
  rewrite (pr_registry_returns E w r Hview). cbn.
  destruct (projects r !! project_name) as [project|] eqn:Hfound; [|by exists r].
  unfold ProcessController.queried.
  destruct (frontend project) as [fe|] eqn:Hfe;
    [destruct (enabled fe) eqn:Hen_fe;
     [destruct jlist_fe as [ps_fe|] eqn:Hjfe; [|by right; left]|]|];
    (destruct (backend project) as [be|] eqn:Hbe;
     [destruct (enabled be) eqn:Hen_be;
      [destruct jlist_be as [ps_be|] eqn:Hjbe; [|by right; right]|]|]);
    cbn;
    (split;
     [exists r, project; split; [done|]; split; [done|]; rewrite ?Hfe, ?Hbe;
      split;
      first [ by apply service_reported
            | by (unfold reports; rewrite ?Hen_fe, ?Hen_be) ]
     |split; [done|]; apply aggregate_facts; cbn;
      repeat (apply Forall_cons_2; [apply service_status_cases|]);
      apply Forall_nil_2]).
Qed.

(** Frontend online, backend not started: partial. *)
Example overall_status_partial :
  ProcessController.overall_status <$>
    match (ProcessController.get_project_status test_env (Returns shop_jlist)
             (Returns shop_jlist) "shop" shop_world).1 with
    | Returns found => found
    | Raises _ => None
    end = Some "partial".
Proof. vm_compute. reflexivity. Qed.

(** Both services online: running. *)
Example overall_status_running :
  ProcessController.overall_status <$>
    match (ProcessController.get_project_status test_env
             (Returns shop_jlist_online) (Returns shop_jlist_online)
             "shop" shop_world).1 with
    | Returns found => found
    | Raises _ => None
    end = Some "running".
Proof. vm_compute. reflexivity. Qed.

(** *** Names and documents *)

Lemma match_name_tail_spec s :
  match_name_tail s = true ↔
  ∃ body, name_chars body ∧ (s = body ∨ s = body +:+ String "010" "").
Proof.
  unfold name_chars. induction s as [|c s IH]; simpl.
  - split; [|done]. intros _. exists "". split; [constructor|by left].
  - destruct (is_name_char c) eqn:Hc.
    + rewrite IH. split.
      * intros (body & Hb & Hs). exists (String c body). split.
        { simpl. by constructor. }
        destruct Hs as [->| ->]; [by left|by right].
      * intros ([|c' body] & Hb & Hs).
        { destruct Hs as [?|Hs]; [done|]. injection Hs as -> _. done. }
        simpl in Hb. apply Forall_cons in Hb as [_ Hb].
        exists body. split; [done|].
        destruct Hs as [Hs|Hs]; injection Hs as _ ->; [by left|by right].
    + rewrite andb_true_iff, bool_decide_eq_true. split.
      * intros [Hnl ->]. apply Ascii.eqb_eq in Hnl as ->.
        exists "". split; [constructor|by right].
      * intros ([|c' body] & Hb & Hs).
        { destruct Hs as [?|Hs]; [done|]. by injection Hs as -> ->. }
        simpl in Hb. apply Forall_cons in Hb as [Hc' _].
        destruct Hs as [Hs|Hs]; injection Hs as -> _; congruence.
Qed.

(** X1.  The names that [Project.__post_init__] accepts: a lowercase letter
    followed by lowercase letters, digits and hyphens, and nothing else, but
    for one newline that may end the string (the [$] of the pattern matches
    before a final newline). *)
Theorem match_name_accepts s :
  match_name s = true ↔
  ∃ c body, is_lower c = true ∧ name_chars body ∧
            (s = String c body ∨ s = String c body +:+ String "010" "").
Proof.
  destruct s as [|c s]; simpl.
  - split; [done|]. by intros (c & body & _ & _ & [?|?]).
  - rewrite andb_true_iff, match_name_tail_spec. split.
    + intros (Hc & body & Hb & Hs). exists c, body. split_and!; [done..|].
      destruct Hs as [->| ->]; [by left|by right].
    + intros (c' & body & Hc & Hb & Hs).
      destruct Hs as [Hs|Hs]; injection Hs as -> ->; (split; [done|]);
        exists body; (split; [done|]); [by left|by right].
Qed.

Lemma fill_display_name_name p : name (fill_display_name p) = name p.
Proof. unfold fill_display_name. by destruct (display_name p) as [[|]|]. Qed.

Lemma fill_display_name_idemp p :
  fill_display_name (fill_display_name p) = fill_display_name p.
Proof.
  destruct p as [n pa [[|c d]|] de fe be ev dp tg ca ua no];
    unfold fill_display_name; simpl; try done;
    by destruct (title (replace_char "-" " " n)).
Qed.

Lemma title_from_length b s : String.length (title_from b s) = String.length s.
Proof. revert b. induction s as [|c s IH]; intros b; simpl; [done|]. by rewrite IH. Qed.

Lemma map_string_length f s : String.length (map_string f s) = String.length s.
Proof. induction s as [|c s IH]; simpl; [done|]. by rewrite IH. Qed.

Lemma default_display_name_length s :
  String.length (title (replace_char "-" " " s)) = String.length s.
Proof. unfold title, replace_char. by rewrite title_from_length, map_string_length. Qed.

Lemma title_from_get s : ∀ b i c,
  String.get i s = Some c →
  String.get i (title_from b s) =
    Some (if match i with
             | O => b
             | S j => from_option is_alpha false (String.get j s)
             end
          then lower_char c else upper_char c).
Proof.
  induction s as [|a s IH]; intros b i c; [by destruct i|].
  destruct i as [|j]; cbn [String.get title_from].
  - by intros [= ->].
  - intros Hc. rewrite (IH _ _ _ Hc). by destruct j.
Qed.

Lemma map_string_get f s : ∀ i,
  String.get i (map_string f s) = f <$> String.get i s.
Proof.
  induction s as [|a s IH]; intros i; [by destruct i|].
  destruct i as [|j]; cbn [String.get map_string]; [done|]. apply IH.
Qed.

Lemma default_display_name_get s i c :
  String.get i s = Some c →
  String.get i (title (replace_char "-" " " s)) =
    Some (default_display_char
            (match i with O => None | S j => String.get j s end) c).
Proof.
  intros Hc. unfold title, replace_char.
  erewrite title_from_get; [|by rewrite map_string_get, Hc].
  f_equal. unfold default_display_char.
  assert (Halpha : ∀ a, is_alpha (if Ascii.eqb a "-" then " "%char else a) =
                        is_alpha a).
  { intros a. destruct (Ascii.eqb_spec a "-") as [->|]; done. }
  assert (Hprev : match i with
                  | O => false
                  | S j => from_option is_alpha false
                             (String.get j
                                (map_string (λ a, if Ascii.eqb a "-" then " "%char
                                                  else a) s))
                  end =
                  from_option is_alpha false
                    (match i with O => None | S j => String.get j s end)).
  { destruct i as [|j]; [done|]. rewrite map_string_get.
    destruct (String.get j s) as [a|]; [apply Halpha|done]. }
  rewrite Hprev. destruct (Ascii.eqb_spec c "-") as [->|]; [|done].
  by destruct (from_option _ _ _).
Qed.

(** X2.  A project that [Project.__post_init__] lets through has a valid
    name, and the construction changes nothing but the display name, which
    afterwards is never empty.  A non-empty display name that was given is
    kept.  One that was missing or empty becomes
    [name.replace("-", " ").title()]: it has the length of the name, and at
    each position it holds a space for a hyphen, and otherwise the
    character of the name, raised unless the character before it is a
    letter. *)
Theorem post_init_display_name p p' :
  __post_init__ p = Returns p' →
  match_name (name p) = true ∧ name p' = name p ∧
  ∃ d, display_name p' = Some d ∧ d ≠ "" ∧
       p' = mk_Project (name p) (path p) (Some d) (description p) (frontend p)
              (backend p) (env_vars p) (dependencies p) (tags p) (created_at p)
              (updated_at p) (notes p) ∧
       (∀ d0, display_name p = Some d0 → d0 ≠ "" → d = d0) ∧
       (display_name p = None ∨ display_name p = Some "" →
        d = title (replace_char "-" " " (name p)) ∧
        String.length d = String.length (name p) ∧
        ∀ i c, String.get i (name p) = Some c →
               String.get i d =
                 Some (default_display_char
                         (match i with
                          | O => None
                          | S j => String.get j (name p)
                          end) c)).
Proof.
  unfold __post_init__. destruct (match_name (name p)) eqn:Hm; [|done].
  intros [= <-]. split; [done|]. split; [apply fill_display_name_name|].
  assert (Hne : title (replace_char "-" " " (name p)) ≠ "").
  { intros Heq. pose proof (default_display_name_length (name p)) as Hl.
    rewrite Heq in Hl. by destruct (name p). }
  assert (Hdefault :
    title (replace_char "-" " " (name p)) = title (replace_char "-" " " (name p)) ∧
    String.length (title (replace_char "-" " " (name p))) = String.length (name p) ∧
    ∀ i c, String.get i (name p) = Some c →
           String.get i (title (replace_char "-" " " (name p))) =
             Some (default_display_char
                     (match i with
                      | O => None
                      | S j => String.get j (name p)
                      end) c)).
  { split; [done|]. split; [apply default_display_name_length|].
    intros i c. apply default_display_name_get. }
  unfold fill_display_name. destruct (display_name p) as [[|c d]|] eqn:Hd; simpl.
  - eexists. split_and!; [done|done|done| |done].
    intros d0 [= <-]. done.
  - rewrite Hd. eexists. split_and!; [done|done| | |].
    + destruct p. simpl in *. by subst.
    + by intros d0 [= <-].
    + by intros [?|?].
  - eexists. split_and!; [done|done|done| |done].
    by intros d0.
Qed.

Lemma post_init_display_name_witness :
  match_name (name bare_project) = true ∧
  name registered_project = name bare_project ∧
  ∃ d, display_name registered_project = Some d ∧ d ≠ "" ∧
       registered_project =
         mk_Project (name bare_project) (path bare_project) (Some d)
           (description bare_project) (frontend bare_project)
           (backend bare_project) (env_vars bare_project)
           (dependencies bare_project) (tags bare_project)
           (created_at bare_project) (updated_at bare_project)
           (notes bare_project) ∧
       (∀ d0, display_name bare_project = Some d0 → d0 ≠ "" → d = d0) ∧
       (display_name bare_project = None ∨ display_name bare_project = Some "" →
        d = title (replace_char "-" " " (name bare_project)) ∧
        String.length d = String.length (name bare_project) ∧
        ∀ i c, String.get i (name bare_project) = Some c →
               String.get i d =
                 Some (default_display_char
                         (match i with
                          | O => None
                          | S j => String.get j (name bare_project)
                          end) c)).
Proof.
  apply (post_init_display_name bare_project registered_project).
  vm_compute. reflexivity.
Defined.

(** The default display name of "test-project" is "Test Project". *)
Example default_display_name_sample :
  title (replace_char "-" " " "test-project") = "Test Project".
Proof. reflexivity. Qed.

Lemma from_dict_idemp doc r : from_dict doc = Returns r → from_dict r = Returns r.
Proof.
  unfold from_dict. case_bool_decide as Hall; [|done]. intros [= <-].
  rewrite bool_decide_eq_true_2.
  - unfold set_projects. simpl. f_equal. f_equal.
    rewrite <- map_fmap_compose. apply map_fmap_ext.
    intros k p _. apply fill_display_name_idemp.
  - simpl. apply map_Forall_fmap. intros k p Hp. simpl.
    rewrite fill_display_name_name. by apply (Hall k p).
Qed.

(** X3.  Round trip of the registry document: a registry that [load]
    returned (from a file, or the default one for a missing file), written
    out and loaded again, by either object and at any later time, is the
    same registry. *)
Theorem load_round_trip E who f r :
  load E who f = Returns r → ∀ E2 who2, load E2 who2 (Some r) = Returns r.
Proof.
  destruct f as [doc|]; simpl.
  - intros Hdoc E2 who2. by apply from_dict_idemp in Hdoc.
  - intros [= <-] E2 who2. unfold from_dict, default_registry. simpl.
    rewrite bool_decide_eq_true_2 by apply map_Forall_empty.
    unfold set_projects. simpl. by rewrite fmap_empty.
Qed.

Lemma load_round_trip_witness :
  load test_env port_manager (Some app_registry) = Returns app_registry.
Proof.
  apply (load_round_trip test_env directory (Some app_registry)).
  vm_compute. reflexivity.
Defined.

(** *** Search, allocation and release of ports, continued *)

Lemma free_not_refused E r exclude p :
  free E r exclude p → refused r exclude p → False.
Proof.
  intros (_ & _ & _ & Huse) (_ & _ & _ & Hout).
  unfold PortManager.is_port_in_use in Huse. by case_bool_decide.
Qed.

Lemma skipped_below E r exclude start p :
  (∀ q, start ≤ q < p → skipped E r exclude q) →
  ∀ q, start ≤ q →
       (free E r exclude q → p ≤ q) ∧ (refused r exclude q → p ≤ q).
Proof.
  intros Hmin q Hq. split; intros Hfq;
    (destruct (decide (p ≤ q)) as [|Hlt]; [done|]); exfalso;
    destruct (Hmin q) as [Hnf Hnr]; try lia; tauto.
Qed.

(** X4.  [find_available_port] with an [exclude] list.  The scan goes
    upwards through [start .. end]; a port stops it when it is not excluded,
    in neither reserved list and no key of [allocated].  If the probe
    accepts the first such port that is not in use, that port is returned;
    if it meets a port outside 0..65535 before, the call raises
    [OverflowError]; no port is returned exactly when the range holds
    neither (an empty range, [end < start], in particular).  Apart from
    that the call raises only when the registry cannot be loaded. *)
Theorem find_available_port_skips_excluded (E : Env) (w : World)
    (start end_ : Z) (exclude : list Z) :
  match PortManager.find_available_port E start end_ exclude w with
  | (Returns (Some p), _) =>
      ∃ r, pm_view E w = Returns r ∧ (start ≤ p ≤ end_) ∧ free E r exclude p ∧
           ∀ q, start ≤ q ≤ end_ →
                (free E r exclude q → p ≤ q) ∧ (refused r exclude q → p < q)
  | (Returns None, _) =>
      ∃ r, pm_view E w = Returns r ∧
           ∀ q, start ≤ q ≤ end_ → skipped E r exclude q
  | (Raises e, w') =>
      (pm_view E w = Raises e ∧ w' = w) ∨
      (e = OverflowError ∧
       ∃ r p, pm_view E w = Returns r ∧ (start ≤ p ≤ end_) ∧
              refused r exclude p ∧
              ∀ q, start ≤ q ≤ end_ →
                   (free E r exclude q → p < q) ∧ (refused r exclude q → p ≤ q))
  end.
Proof.
  unfold PortManager.find_available_port. unfold_monad.
  destruct (pm_view E w) as [r|e] eqn:Hview.
  2:{ rewrite (pm_registry_raises E w e Hview). by left. }
  rewrite (pm_registry_returns E w r Hview).
  pose proof (scan_range E r exclude start end_) as Hscan.
  destruct (PortManager.scan E r exclude (seqZ start (end_ + 1 - start)))
    as [[p|]|e].
  - destruct Hscan as (Hp & Hfree & Hmin). exists r. do 3 (split; [done|]).
    intros q Hq.
    destruct (skipped_below E r exclude start p Hmin q) as [Hf Hr]; [lia|].
    split; [done|]. intros Hrq. specialize (Hr Hrq).
    destruct (decide (p = q)) as [->|]; [|lia].
    destruct (free_not_refused E r exclude q Hfree Hrq).
  - by exists r.
  - destruct Hscan as (-> & p & Hp & Href & Hmin). right. split; [done|].
    exists r, p. do 3 (split; [done|]). intros q Hq.
    destruct (skipped_below E r exclude start p Hmin q) as [Hf Hr]; [lia|].
    split; [|done]. intros Hfq. specialize (Hf Hfq).
    destruct (decide (p = q)) as [->|]; [|lia].
    destruct (free_not_refused E r exclude q Hfq Href).
Qed.

Lemma pm_view_cases (E : Env) f b ef pr pm r :
  pm_view E (mk_World f b ef pr pm) = Returns r →
  pm = Some r ∨ (pm = None ∧ load E port_manager f = Returns r).
Proof.
  unfold pm_view, PortManager.registry. destruct pm; simpl.
  - left. congruence.
  - intros Hview. right. destruct (load E _ f); by simplify_eq.
Qed.

(** Where the granted ports come from: each lies in the range it was asked
    from, is in neither reserved list and was not in use. *)
Lemma allocate_ports_granted (E : Env) (project_name : string)
    (need_frontend need_backend : bool) (w : World) (r : RegistryModel)
    (result : gmap string Z) (w' : World) :
  pm_view E w = Returns r →
  PortManager.allocate_ports E project_name need_frontend need_backend w =
    (Returns result, w') →
  (∀ p, result !! "frontend" = Some p →
        PortManager.in_range (frontend_range (port_allocation r)) p = true ∧
        PortManager.is_port_reserved r p = false ∧
        PortManager.is_port_in_use E p = Returns false) ∧
  (∀ p, result !! "backend" = Some p →
        PortManager.in_range (backend_range (port_allocation r)) p = true ∧
        PortManager.is_port_reserved r p = false ∧
        PortManager.is_port_in_use E p = Returns false).
Proof.
  destruct w as [f b ef pr pm]. intros Hcases%pm_view_cases.
  unfold PortManager.allocate_ports, PortManager.find_available_frontend_port,
    PortManager.find_available_backend_port, PortManager.find_available_port,
    PortManager.record_port, PortManager.save, model_save, PortManager.in_range.
  unfold_monad.
  assert (Hkeys : ("backend" : string) ≠ "frontend") by done.
  destruct Hcases as [->|[-> Hload]];
    destruct need_frontend, need_backend; cbn; rewrite ?Hload; cbn;
    repeat (match goal with
            | |- context [PortManager.scan ?a ?b ?c (seqZ ?s (?e + 1 - ?s))] =>
                let H := fresh "Hscan" in
                pose proof (scan_range a b c s e) as H;
                destruct (PortManager.scan a b c (seqZ s (e + 1 - s)))
                  as [[?|]|?]; cbn;
                [destruct H as (? & (_ & ? & _ & ?) & _)|clear H|clear H]
            end);
    try (destruct (can_write E) eqn:Hcw; cbn);
    unfold PortManager.pop_port; unfold_monad; cbn;
    rewrite ?Hload; cbn; try done.
  all: intros [= <- <-]; split; intros p; rewrite ?lookup_insert, ?lookup_empty;
    repeat case_decide; simplify_eq; try done; intros [= <-];
    rewrite !andb_true_iff, !bool_decide_eq_true; split_and!; try done; lia.
Qed.

(** X5.  What [allocate_ports] hands out: the frontend port lies in the
    frontend range and the backend port in the backend range, neither is in
    a reserved list, neither answered the probe; afterwards
    [is_port_allocated] names the project for each of them, and no search,
    whatever its range and exclusions, finds one of them again. *)
Theorem allocate_ports_grants_usable_ports (E : Env) (project_name : string)
    (need_frontend need_backend : bool) (w : World) (r : RegistryModel)
    (result : gmap string Z) (w' : World) :
  pm_view E w = Returns r →
  PortManager.allocate_ports E project_name need_frontend need_backend w =
    (Returns result, w') →
  (∀ p, result !! "frontend" = Some p →
        PortManager.in_range (frontend_range (port_allocation r)) p = true) ∧
  (∀ p, result !! "backend" = Some p →
        PortManager.in_range (backend_range (port_allocation r)) p = true) ∧
  ∀ k p, result !! k = Some p →
    PortManager.is_port_reserved r p = false ∧
    PortManager.is_port_in_use E p = Returns false ∧
    (PortManager.is_port_allocated E p w').1 = Returns (Some project_name) ∧
    ∀ start end_ exclude,
      (PortManager.find_available_port E start end_ exclude w').1 ≠
        Returns (Some p).
Proof.
  intros Hview Hrun.
  destruct (allocate_ports_granted E project_name need_frontend need_backend
              w r result w' Hview Hrun) as [Hfe Hbe].
  pose proof (allocate_ports_spec E project_name need_frontend need_backend w) as S.
  rewrite Hrun in S.
  destruct S as (b & a & _ & Ha & Hreq & Hg & _ & _ & _ & _).
  apply pm_view_allocated in Ha as (r' & Hview' & <-).
  split; [intros p Hp; by apply Hfe|]. split; [intros p Hp; by apply Hbe|].
  intros k p Hk. destruct (Hg k p Hk) as [_ Hp].
  assert (Hwhich : k = "frontend" ∨ k = "backend").
  { destruct (proj1 (Hreq k)) as [[-> _]|[-> _]]; [by eexists|by left|by right]. }
  assert (Hok : PortManager.is_port_reserved r p = false ∧
                PortManager.is_port_in_use E p = Returns false).
  { destruct Hwhich as [-> | ->]; [apply Hfe in Hk|apply Hbe in Hk]; tauto. }
  destruct Hok as [Hres Huse]. split_and!; [done|done| |].
  - unfold PortManager.is_port_allocated. unfold_monad.
    rewrite (pm_registry_returns E w' r' Hview'). simpl. by rewrite Hp.
  - intros start end_ exclude.
    unfold PortManager.find_available_port. unfold_monad.
    rewrite (pm_registry_returns E w' r' Hview'). simpl.
    unfold of_outcome. intros [= Hscan]. apply scan_Some_free in Hscan. congruence.
Qed.

Lemma allocate_ports_grants_usable_ports_witness :
  (∀ p, ({[ "frontend" := 3000; "backend" := 8000 ]} : gmap string Z) !! "frontend" = Some p →
        PortManager.in_range (frontend_range (port_allocation test_registry)) p = true) ∧
  (∀ p, ({[ "frontend" := 3000; "backend" := 8000 ]} : gmap string Z) !! "backend" = Some p →
        PortManager.in_range (backend_range (port_allocation test_registry)) p = true) ∧
  ∀ k p, ({[ "frontend" := 3000; "backend" := 8000 ]} : gmap string Z) !! k = Some p →
    PortManager.is_port_reserved test_registry p = false ∧
    PortManager.is_port_in_use test_env p = Returns false ∧
    (PortManager.is_port_allocated test_env p
       (PortManager.allocate_ports test_env "app" true true test_world).2).1 =
      Returns (Some "app") ∧
    ∀ start end_ exclude,
      (PortManager.find_available_port test_env start end_ exclude
         (PortManager.allocate_ports test_env "app" true true test_world).2).1 ≠
        Returns (Some p).
Proof.
  apply (allocate_ports_grants_usable_ports test_env "app" true true test_world
           test_registry).
  - vm_compute. reflexivity.
  - vm_compute. reflexivity.
Defined.

Lemma allocate_ports_exhausted_outcome (E : Env) (project_name : string)
    (need_frontend need_backend : bool) (w : World) (r : RegistryModel) :
  pm_view E w = Returns r →
  (need_frontend = true ∧
   ∀ q, range_start (frontend_range (port_allocation r)) ≤ q
          ≤ range_end (frontend_range (port_allocation r)) → skipped E r [] q) ∨
  (need_backend = true ∧
   (need_frontend = true → probeable (frontend_range (port_allocation r))) ∧
   ∀ q, range_start (backend_range (port_allocation r)) ≤ q
          ≤ range_end (backend_range (port_allocation r)) → skipped E r [] q) →
  (PortManager.allocate_ports E project_name need_frontend need_backend w).1 =
    Raises PortExhaustedError.
Proof.
  destruct w as [f b ef pr pm]. intros Hcases%pm_view_cases Hfull.
  unfold PortManager.allocate_ports, PortManager.find_available_frontend_port,
    PortManager.find_available_backend_port, PortManager.find_available_port,
    PortManager.record_port, PortManager.save, model_save.
  unfold_monad.
  assert (Hins : ∀ p q exclude,
    free E (set_allocated (<[p := project_name]> (allocated (port_allocation r))) r)
         exclude q → free E r exclude q).
  { intros p q exclude (? & ? & Ha & ?). split_and!; try done.
    simpl in Ha. by apply lookup_insert_None in Ha as [? ?]. }
  assert (Hins' : ∀ p q exclude,
    refused (set_allocated (<[p := project_name]> (allocated (port_allocation r))) r)
            exclude q → refused r exclude q).
  { intros p q exclude (? & ? & Ha & ?). split_and!; try done.
    simpl in Ha. by apply lookup_insert_None in Ha as [? ?]. }
  destruct Hcases as [->|[-> Hload]];
    destruct Hfull as [[-> Hfull]|(-> & Hprobe & Hfull)];
    try destruct need_frontend; try destruct need_backend;
    cbn; rewrite ?Hload; cbn;
    repeat (match goal with
            | |- context [PortManager.scan ?a ?b ?c (seqZ ?s (?e + 1 - ?s))] =>
                let H := fresh "Hscan" in
                pose proof (scan_range a b c s e) as H;
                destruct (PortManager.scan a b c (seqZ s (e + 1 - s)))
                  as [[?|]|?]; cbn;
                [destruct H as (? & ? & _)|clear H
                |destruct H as (-> & ? & ? & ? & _)]
            end);
    unfold PortManager.pop_port; unfold_monad; cbn;
    rewrite ?Hload; cbn; try done.
  all: exfalso.
  all: first
    [ by (edestruct Hfull as [Hnf Hnr]; [eassumption|];
          first [by (apply Hnf; eauto)|by (apply Hnr; eauto)])
    | destruct (Hprobe eq_refl) as [Hlo Hhi];
      match goal with
      | H : refused _ _ _ |- _ => destruct H as (_ & _ & _ & Hout)
      end;
      apply Hout; lia ].
Qed.

(** X6.  Exhaustion: when the scan passes over every port of a range that
    is asked for (none is free, and none is outside 0..65535 where the
    probe would refuse it), [allocate_ports] raises [PortExhaustedError];
    for the backend range this supposes that the frontend search, when it
    runs first, stays within 0..65535.  The allocation map and the file are
    as before, also when the frontend port had already been recorded before
    the backend search failed. *)
Theorem allocate_ports_exhausted (E : Env) (project_name : string)
    (need_frontend need_backend : bool) (w : World) (r : RegistryModel) :
  pm_view E w = Returns r →
  (need_frontend = true ∧
   ∀ q, range_start (frontend_range (port_allocation r)) ≤ q
          ≤ range_end (frontend_range (port_allocation r)) → skipped E r [] q) ∨
  (need_backend = true ∧
   (need_frontend = true → probeable (frontend_range (port_allocation r))) ∧
   ∀ q, range_start (backend_range (port_allocation r)) ≤ q
          ≤ range_end (backend_range (port_allocation r)) → skipped E r [] q) →
  ∃ w',
    PortManager.allocate_ports E project_name need_frontend need_backend w =
      (Raises PortExhaustedError, w') ∧
    pm_allocated E w' = Returns (allocated (port_allocation r)) ∧
    file w' = file w.
Proof.
  intros Hview Hfull.
  pose proof (allocate_ports_exhausted_outcome E project_name need_frontend
                need_backend w r Hview Hfull) as Hout.
  pose proof (allocate_ports_spec E project_name need_frontend need_backend w) as S.
  destruct (PortManager.allocate_ports E project_name need_frontend need_backend w)
    as [o w'].
  simpl in Hout. subst o. destruct S as [Ha Hf]. exists w'.
  split; [done|]. split; [|done].
  rewrite Ha. unfold pm_allocated. by rewrite Hview.
Qed.

Lemma allocate_ports_exhausted_witness :
  ∃ w',
    PortManager.allocate_ports crowded_env "app" true false test_world =
      (Raises PortExhaustedError, w') ∧
    pm_allocated crowded_env w' = Returns (allocated (port_allocation test_registry)) ∧
    file w' = file test_world.
Proof.
  apply (allocate_ports_exhausted crowded_env "app" true false test_world
           test_registry).
  - vm_compute. reflexivity.
  - left. split; [reflexivity|].
    intros q Hq. simpl in Hq. split.
    + intros (_ & _ & _ & Huse). unfold PortManager.is_port_in_use in Huse.
      case_bool_decide; simpl in Huse; discriminate.
    + intros (_ & _ & _ & Hout). lia.
Defined.

Lemma pm_allocated_any_env (E1 E2 : Env) (w : World) :
  is_Some (file w) → pm_allocated E1 w = pm_allocated E2 w.
Proof.
  intros [doc Hdoc]. unfold pm_allocated, pm_view, PortManager.registry.
  destruct (pm_registry w); [done|]. by rewrite Hdoc.
Qed.

(** X7.  No two allocations share a port: after two successive calls of
    [allocate_ports] (the probe and the clock may have changed in between)
    the ports granted by the first still belong to the first name, the
    ports granted by the second belong to the second name, no port was
    granted twice, and the file records all of it. *)
Theorem successive_allocations_disjoint (E E2 : Env) (n1 n2 : string)
    (need_fe1 need_be1 need_fe2 need_be2 : bool) (w w1 w2 : World)
    (result1 result2 : gmap string Z) :
  PortManager.allocate_ports E n1 need_fe1 need_be1 w = (Returns result1, w1) →
  PortManager.allocate_ports E2 n2 need_fe2 need_be2 w1 = (Returns result2, w2) →
  ∃ held, pm_allocated E2 w2 = Returns held ∧
    (allocated ∘ port_allocation) <$> file w2 = Some held ∧
    ∀ k1 p1, result1 !! k1 = Some p1 →
      held !! p1 = Some n1 ∧
      ∀ k2 p2, result2 !! k2 = Some p2 → p1 ≠ p2 ∧ held !! p2 = Some n2.
Proof.
  intros H1 H2.
  pose proof (allocate_ports_spec E n1 need_fe1 need_be1 w) as S1.
  pose proof (allocate_ports_spec E2 n2 need_fe2 need_be2 w1) as S2.
  rewrite H1 in S1. rewrite H2 in S2.
  destruct S1 as (b1 & a1 & _ & Ha1 & _ & Hg1 & _ & _ & Hfile1 & _).
  destruct S2 as (b2 & a2 & Hb2 & Ha2 & _ & Hg2 & _ & Hother & Hfile & _).
  rewrite (pm_allocated_any_env E E2 w1) in Ha1
    by (destruct (file w1); [by eexists|done]).
  rewrite Ha1 in Hb2. injection Hb2 as <-.
  exists a2. split; [done|]. split; [done|].
  intros k1 p1 Hk1. destruct (Hg1 k1 p1 Hk1) as [_ Hp1].
  assert (Hne : ∀ k2 p2, result2 !! k2 = Some p2 → p1 ≠ p2).
  { intros k2 p2 Hk2 ->. destruct (Hg2 k2 p2 Hk2) as [Hnone _]. congruence. }
  split.
  - rewrite Hother; [done|]. intros k2 Hk2. by apply (Hne k2 p1).
  - intros k2 p2 Hk2. split; [by apply (Hne k2)|]. by apply (Hg2 k2 p2).
Qed.

Lemma successive_allocations_disjoint_witness :
  ∃ held,
    pm_allocated test_env
      (PortManager.allocate_ports test_env "web" true true
         (PortManager.allocate_ports test_env "app" true true test_world).2).2 =
      Returns held ∧
    (allocated ∘ port_allocation) <$>
      file (PortManager.allocate_ports test_env "web" true true
              (PortManager.allocate_ports test_env "app" true true test_world).2).2 =
      Some held ∧
    ∀ k1 p1, ({[ "frontend" := 3000; "backend" := 8000 ]} : gmap string Z) !! k1 = Some p1 →
      held !! p1 = Some "app" ∧
      ∀ k2 p2, ({[ "frontend" := 3001; "backend" := 8001 ]} : gmap string Z) !! k2 = Some p2 →
        p1 ≠ p2 ∧ held !! p2 = Some "web".
Proof.
  apply (successive_allocations_disjoint test_env test_env "app" "web" true true
           true true test_world
           (PortManager.allocate_ports test_env "app" true true test_world).2).
  - vm_compute. reflexivity.
  - vm_compute. reflexivity.
Defined.

(** X8.  [release_ports] releases exactly the ports of the project: the list
    returned names each port that mapped to the project once, those ports
    are gone from the allocation map, every other port maps as before, and
    when something was released the file records the new map. *)
Theorem release_ports_exact (E : Env) (project_name : string) (w : World)
    (a : gmap Z string) (released : list Z) (w' : World) :
  pm_allocated E w = Returns a →
  PortManager.release_ports E project_name w = (Returns released, w') →
  NoDup released ∧
  (∀ p, p ∈ released ↔ a !! p = Some project_name) ∧
  ∃ a', pm_allocated E w' = Returns a' ∧
        (∀ p, p ∈ released → a' !! p = None) ∧
        (∀ p, p ∉ released → a' !! p = a !! p) ∧
        (released ≠ [] → (allocated ∘ port_allocation) <$> file w' = Some a').
Proof.
  intros Ha Hrun. apply pm_view_allocated in Ha as (r & Hview & <-).
  rewrite (release_ports_spec E project_name w r Hview) in Hrun.
  set (a := allocated (port_allocation r)) in *.
  assert (Hrel : released = (map_to_list (filter (λ kv, kv.2 = project_name) a)).*1 ∧
                 pm_registry w' =
                   Some (set_allocated (filter (λ kv, kv.2 ≠ project_name) a) r) ∧
                 (released ≠ [] →
                  file w' = Some (set_allocated (filter (λ kv, kv.2 ≠ project_name) a) r))).
  { case_bool_decide as Hnil.
    - injection Hrun as <- <-. by rewrite Hnil.
    - destruct (can_write E); [|done]. by injection Hrun as <- <-. }
  destruct Hrel as (-> & Hpm & Hfile).
  split; [apply NoDup_fst_map_to_list|].
  split; [intros p; apply elem_of_filter_keys|].
  exists (filter (λ kv, kv.2 ≠ project_name) a). split_and!.
  - unfold pm_allocated, pm_view, PortManager.registry. by rewrite Hpm.
  - intros p Hp%elem_of_filter_keys. apply map_lookup_filter_None. right.
    intros x Hx. simpl. congruence.
  - intros p Hp. rewrite elem_of_filter_keys in Hp.
    destruct (a !! p) as [x|] eqn:Hx.
    + apply map_lookup_filter_Some. split; [done|]. simpl. congruence.
    + apply map_lookup_filter_None. by left.
  - intros Hne. by rewrite (Hfile Hne).
Qed.

Lemma release_ports_exact_witness :
  NoDup [3000; 8000] ∧
  (∀ p, p ∈ [3000; 8000] ↔
        ({[ 3000 := "shop"; 8000 := "shop" ]} : gmap Z string) !! p = Some "shop") ∧
  ∃ a', pm_allocated test_env (PortManager.release_ports test_env "shop" shop_world).2 =
          Returns a' ∧
        (∀ p, p ∈ [3000; 8000] → a' !! p = None) ∧
        (∀ p, p ∉ [3000; 8000] →
              a' !! p = ({[ 3000 := "shop"; 8000 := "shop" ]} : gmap Z string) !! p) ∧
        ([3000; 8000] ≠ [] →
         (allocated ∘ port_allocation) <$>
           file (PortManager.release_ports test_env "shop" shop_world).2 = Some a').
Proof.
  apply (release_ports_exact test_env "shop" shop_world).
  - vm_compute. reflexivity.
  - vm_compute. reflexivity.
Defined.

(** X9.  Releasing for a name that holds no port returns the empty list and
    writes nothing: the file and the allocation map are as before, also
    when the file could not have been written. *)
Theorem release_ports_nothing_held (E : Env) (project_name : string) (w : World)
    (a : gmap Z string) :
  pm_allocated E w = Returns a →
  (∀ p, a !! p ≠ Some project_name) →
  ∃ w', PortManager.release_ports E project_name w = (Returns [], w') ∧
        file w' = file w ∧ pm_allocated E w' = Returns a.
Proof.
  intros Ha Hnone. apply pm_view_allocated in Ha as (r & Hview & <-).
  rewrite (release_ports_spec E project_name w r Hview).
  set (a := allocated (port_allocation r)) in *.
  assert (Hnil : (map_to_list (filter (λ kv, kv.2 = project_name) a)).*1 = []).
  { apply elem_of_nil_inv. intros p Hp%elem_of_filter_keys. by apply (Hnone p). }
  rewrite Hnil, bool_decide_eq_true_2 by done.
  eexists. split; [done|]. split; [done|].
  unfold pm_allocated, pm_view. simpl. f_equal.
  apply map_eq. intros p. destruct (a !! p) as [x|] eqn:Hx.
  - apply map_lookup_filter_Some. split; [done|]. simpl. intros ->. by apply (Hnone p).
  - apply map_lookup_filter_None. by left.
Qed.

Lemma release_ports_nothing_held_witness :
  ∃ w', PortManager.release_ports test_env "app" shop_world = (Returns [], w') ∧
        file w' = file shop_world ∧
        pm_allocated test_env w' = Returns {[ 3000 := "shop"; 8000 := "shop" ]}.
Proof.
  apply (release_ports_nothing_held test_env "app" shop_world).
  - vm_compute. reflexivity.
  - intros p Hp. apply lookup_insert_Some in Hp as [[_ Hp]|[_ Hp]]; [discriminate|].
    apply lookup_singleton_Some in Hp as [_ Hp]. discriminate.
Defined.

(** *** Validation of a port and the summary of the ports *)

Lemma validate_checks_verdict E r w port :
  pm_registry w = Some r →
  match PortManager.validate_checks E r port w with
  | (Returns (v, msg), w') =>
      w' = w ∧
      (v = true ↔
         PortManager.is_port_reserved r port = false ∧
         (allocated (port_allocation r) !! port = None ∨
          allocated (port_allocation r) !! port = Some "") ∧
         PortManager.is_port_in_use E port = Returns false) ∧
      (v = true → msg = "Port is available") ∧
      (PortManager.is_port_reserved r port = false ∧
       (allocated (port_allocation r) !! port = None ∨
        allocated (port_allocation r) !! port = Some "") → 0 ≤ port ≤ 65535)
  | (Raises e, w') =>
      w' = w ∧ e = OverflowError ∧
      PortManager.is_port_reserved r port = false ∧
      (allocated (port_allocation r) !! port = None ∨
       allocated (port_allocation r) !! port = Some "") ∧
      ¬ (0 ≤ port ≤ 65535)
  end.
Proof.
  intros Hpm. unfold PortManager.validate_checks, PortManager.is_port_allocated,
    PortManager.registry, PortManager.is_port_in_use. unfold_monad.
  destruct (PortManager.is_port_reserved r port);
    [cbn; intuition congruence|].
  rewrite Hpm.
  destruct (allocated (port_allocation r) !! port) as [[|c s]|];
    cbn; try (intuition congruence);
    case_bool_decide; cbn; try (destruct (connects E port); cbn);
    intuition congruence.
Qed.

Lemma validate_port_outcome (E : Env) (w : World) (r : RegistryModel)
    (port : Z) (port_type : string) :
  pm_view E w = Returns r →
  match PortManager.validate_port E port port_type w with
  | (Returns (v, msg), w') =>
      w' = set_pm_registry (Some r) w ∧
      (v = true ↔ acceptable E r port_type port) ∧
      (v = true → msg = "Port is available") ∧
      (reaches_probe r port_type port → 0 ≤ port ≤ 65535)
  | (Raises e, w') =>
      w' = set_pm_registry (Some r) w ∧ e = OverflowError ∧
      reaches_probe r port_type port ∧ ¬ (0 ≤ port ≤ 65535)
  end.
Proof.
  intros Hview. unfold PortManager.validate_port. unfold_monad.
  rewrite (pm_registry_returns E w r Hview).
  pose proof (validate_checks_verdict E r (set_pm_registry (Some r) w) port eq_refl)
    as Hchecks.
  unfold acceptable, reaches_probe.
  case_bool_decide as Hfe; [|case_bool_decide as Hbe].
  - subst port_type.
    destruct (PortManager.in_range (frontend_range (port_allocation r)) port) eqn:Hin;
      simpl.
    + destruct (PortManager.validate_checks E r port (set_pm_registry (Some r) w))
        as [[[v msg]|e] w'].
      * destruct Hchecks as (-> & Hv & Hmsg & Hp). rewrite Hv.
        split; [done|]. intuition congruence.
      * destruct Hchecks as (-> & -> & Hres & Hal & Hp). intuition congruence.
    + split; [done|]. split; [|split; [done|]].
      * split; [done|]. intros (Hr & _). specialize (Hr eq_refl). congruence.
      * intros (Hr & _). specialize (Hr eq_refl). congruence.
  - subst port_type.
    destruct (PortManager.in_range (backend_range (port_allocation r)) port) eqn:Hin;
      simpl.
    + destruct (PortManager.validate_checks E r port (set_pm_registry (Some r) w))
        as [[[v msg]|e] w'].
      * destruct Hchecks as (-> & Hv & Hmsg & Hp). rewrite Hv.
        split; [done|]. intuition congruence.
      * destruct Hchecks as (-> & -> & Hres & Hal & Hp). intuition congruence.
    + split; [done|]. split; [|split; [done|]].
      * split; [done|]. intros (_ & Hr & _). specialize (Hr eq_refl). congruence.
      * intros (_ & Hr & _). specialize (Hr eq_refl). congruence.
  - destruct (PortManager.validate_checks E r port (set_pm_registry (Some r) w))
      as [[[v msg]|e] w'].
    + destruct Hchecks as (-> & Hv & Hmsg & Hp). rewrite Hv.
      split; [done|]. intuition congruence.
    + destruct Hchecks as (-> & -> & Hres & Hal & Hp). intuition congruence.
Qed.

(** X10.  [validate_port] changes nothing, and it returns a verdict unless
    the port passes every check before the probe and lies outside
    0..65535: then, and only then, the probe raises [OverflowError].  A
    verdict is positive exactly when the port lies in the range of the type
    asked for (no range is looked at for a type other than "frontend" and
    "backend"), is in neither reserved list, has no owner in the allocation
    map (an empty owner counts as none) and the probe does not connect; the
    message then is "Port is available". *)
Theorem validate_port_verdict (E : Env) (w : World) (r : RegistryModel)
    (port : Z) (port_type : string) :
  pm_view E w = Returns r →
  match (PortManager.validate_port E port port_type w).1 with
  | Returns (v, msg) =>
      (v = true ↔ acceptable E r port_type port) ∧
      (v = true → msg = "Port is available") ∧
      (reaches_probe r port_type port → 0 ≤ port ≤ 65535)
  | Raises e =>
      e = OverflowError ∧ reaches_probe r port_type port ∧ ¬ (0 ≤ port ≤ 65535)
  end ∧
  file (PortManager.validate_port E port port_type w).2 = file w ∧
  pm_view E (PortManager.validate_port E port port_type w).2 = Returns r.
Proof.
  intros Hview.
  pose proof (validate_port_outcome E w r port port_type Hview) as Hout.
  destruct (PortManager.validate_port E port port_type w) as [[[v msg]|e] w'];
    simpl.
  - destruct Hout as (-> & Hv & Hmsg & Hp). by split_and!.
  - destruct Hout as (-> & -> & Hr & Hp). by split_and!.
Qed.

Lemma validate_port_verdict_witness :
  match (PortManager.validate_port test_env 70000 "any" held_world).1 with
  | Returns (v, msg) =>
      (v = true ↔ acceptable test_env held_registry "any" 70000) ∧
      (v = true → msg = "Port is available") ∧
      (reaches_probe held_registry "any" 70000 → 0 ≤ 70000 ≤ 65535)
  | Raises e =>
      e = OverflowError ∧ reaches_probe held_registry "any" 70000 ∧
      ¬ (0 ≤ 70000 ≤ 65535)
  end ∧
  file (PortManager.validate_port test_env 70000 "any" held_world).2 =
    file held_world ∧
  pm_view test_env (PortManager.validate_port test_env 70000 "any" held_world).2 =
    Returns held_registry.
Proof.
  apply (validate_port_verdict test_env held_world held_registry).
  vm_compute. reflexivity.
Defined.

(** The outcomes on the sample registry: a port of the frontend range
    that nobody holds is accepted, a port that a project holds is turned
    down, and a port beyond 65535 makes the probe raise. *)
Example validate_port_samples :
  (PortManager.validate_port test_env 3000 "frontend" held_world).1 =
    Returns (true, "Port is available") ∧
  (PortManager.validate_port test_env 3001 "frontend" held_world).1 =
    Returns (false, "Port 3001 is allocated to project 'app'") ∧
  (PortManager.validate_port test_env 70000 "any" held_world).1 =
    Raises OverflowError.
Proof. split_and!; vm_compute; reflexivity. Qed.

Lemma find_available_port_state E start end_ exclude w o w1 :
  PortManager.find_available_port E start end_ exclude w = (Returns o, w1) →
  ∃ r, pm_view E w = Returns r ∧ w1 = set_pm_registry (Some r) w ∧
       PortManager.scan E r exclude (seqZ start (end_ + 1 - start)) = Returns o.
Proof.
  unfold PortManager.find_available_port. unfold_monad.
  destruct (pm_view E w) as [r|e] eqn:Hview.
  - rewrite (pm_registry_returns E w r Hview).
    destruct (PortManager.scan E r exclude (seqZ start (end_ + 1 - start)))
      eqn:Hscan; cbn; [|done].
    intros [= <- <-]. by exists r.
  - by rewrite (pm_registry_raises E w e Hview).
Qed.

Lemma pm_registry_loads E w r w0 :
  PortManager.registry E w = (Returns r, w0) →
  pm_registry w0 = Some r ∧ pm_view E w0 = Returns r.
Proof.
  unfold pm_view, PortManager.registry.
  destruct (pm_registry w) eqn:Hw.
  - intros [= <- <-]. by rewrite Hw.
  - destruct (load E _ (file w)); [|done]. by intros [= <- <-].
Qed.

Lemma scanned_port_acceptable E r start end_ port_type p :
  PortManager.scan E r [] (seqZ start (end_ + 1 - start)) = Returns (Some p) →
  (port_type = "frontend" →
   start = range_start (frontend_range (port_allocation r)) ∧
   end_ = range_end (frontend_range (port_allocation r))) →
  (port_type = "backend" →
   start = range_start (backend_range (port_allocation r)) ∧
   end_ = range_end (backend_range (port_allocation r))) →
  acceptable E r port_type p.
Proof.
  intros Hscan Hfe Hbe.
  pose proof (scan_range E r [] start end_) as Hs. rewrite Hscan in Hs.
  destruct Hs as (Hin & (_ & Hres & Hal & Huse) & _).
  unfold acceptable, PortManager.in_range. split_and!; try done; [| |by left].
  - intros [-> ->]%Hfe. rewrite andb_true_iff, !bool_decide_eq_true. lia.
  - intros [-> ->]%Hbe. rewrite andb_true_iff, !bool_decide_eq_true. lia.
Qed.

(** X11.  The search and the validation agree: a port that
    [find_available_frontend_port] (or [find_available_backend_port])
    returns is accepted by [validate_port] for that type, with the message
    "Port is available". *)
Theorem found_port_validates (E : Env) (w : World) (port_type : string)
    (p : Z) (w1 : World) :
  (port_type = "frontend" ∧
   PortManager.find_available_frontend_port E [] w = (Returns (Some p), w1)) ∨
  (port_type = "backend" ∧
   PortManager.find_available_backend_port E [] w = (Returns (Some p), w1)) →
  PortManager.validate_port E p port_type w1 =
    (Returns (true, "Port is available"), w1).
Proof.
  intros Hfound.
  assert (∃ r, pm_registry w1 = Some r ∧ acceptable E r port_type p)
    as (r & Hpm & Hacc).
  { destruct Hfound as [[-> Hrun]|[-> Hrun]].
    - unfold PortManager.find_available_frontend_port in Hrun.
      apply bind_returns in Hrun as (r & w0 & Hreg & Hrun).
      apply pm_registry_loads in Hreg as [Hpm0 Hview0].
      apply find_available_port_state in Hrun as (r' & Hview' & -> & Hscan).
      rewrite Hview0 in Hview'. injection Hview' as <-.
      exists r. split; [done|].
      by apply (scanned_port_acceptable E r _ _ "frontend" p Hscan).
    - unfold PortManager.find_available_backend_port in Hrun.
      apply bind_returns in Hrun as (r & w0 & Hreg & Hrun).
      apply pm_registry_loads in Hreg as [Hpm0 Hview0].
      apply find_available_port_state in Hrun as (r' & Hview' & -> & Hscan).
      rewrite Hview0 in Hview'. injection Hview' as <-.
      exists r. split; [done|].
      by apply (scanned_port_acceptable E r _ _ "backend" p Hscan). }
  assert (Hview : pm_view E w1 = Returns r).
  { unfold pm_view, PortManager.registry. by rewrite Hpm. }
  assert (Hsame : set_pm_registry (Some r) w1 = w1).
  { destruct w1. simpl in *. by subst. }
  pose proof (validate_port_outcome E w1 r p port_type Hview) as Hout.
  destruct (PortManager.validate_port E p port_type w1) as [[[v msg]|e] w'].
  - destruct Hout as (-> & Hv & Hmsg & _). apply Hv in Hacc. subst v.
    by rewrite (Hmsg eq_refl), Hsame.
  - destruct Hout as (_ & _ & _ & Hp). destruct Hacc as (_ & _ & _ & _ & Huse).
    unfold PortManager.is_port_in_use in Huse. by case_bool_decide.
Qed.

Lemma found_port_validates_witness :
  PortManager.validate_port test_env 3000 "frontend"
    (PortManager.find_available_frontend_port test_env [] held_world).2 =
    (Returns (true, "Port is available"),
     (PortManager.find_available_frontend_port test_env [] held_world).2).
Proof.
  apply (found_port_validates test_env held_world "frontend" 3000).
  left. split; [reflexivity|]. vm_compute. reflexivity.
Defined.

Lemma StronglySorted_merge_sort_Z (l : list Z) :
  StronglySorted Z.le (merge_sort Z.le l).
Proof. apply StronglySorted_merge_sort; apply _. Qed.

Lemma elem_of_allocated_keys (a : gmap Z string) p :
  p ∈ (map_to_list a).*1 ↔ is_Some (a !! p).
Proof.
  rewrite list_elem_of_fmap. split.
  - intros ([k v] & -> & Hkv). apply elem_of_map_to_list in Hkv. eauto.
  - intros [v Hv]. exists (p, v). split; [done|]. by apply elem_of_map_to_list.
Qed.

(** X12.  The summary of [get_port_status], when both ranges lie within
    0..65535 and have usable slots: the used frontend ports are the allocated ports of the frontend
    range, the used backend ports are the allocated ports of the backend
    range that are not in the frontend range as well, each list is in
    ascending order, no port is listed twice, and the next available ports
    are what the two searches return. *)
Theorem get_port_status_used_ports (E : Env) (w : World) (r : RegistryModel) :
  pm_view E w = Returns r →
  probeable (frontend_range (port_allocation r)) →
  probeable (backend_range (port_allocation r)) →
  usable (frontend_range (port_allocation r)) ≠ 0 →
  usable (backend_range (port_allocation r)) ≠ 0 →
  let a := allocated (port_allocation r) in
  let fe := frontend_range (port_allocation r) in
  let be := backend_range (port_allocation r) in
  ∃ st,
    (PortManager.get_port_status E w).1 = Returns st ∧
    (∀ p, p ∈ PortManager.used_frontend st ↔
          is_Some (a !! p) ∧ PortManager.in_range fe p = true) ∧
    (∀ p, p ∈ PortManager.used_backend st ↔
          is_Some (a !! p) ∧ PortManager.in_range fe p = false ∧
          PortManager.in_range be p = true) ∧
    StronglySorted Z.le (PortManager.used_frontend st) ∧
    StronglySorted Z.le (PortManager.used_backend st) ∧
    NoDup (PortManager.used_frontend st ++ PortManager.used_backend st) ∧
    (PortManager.find_available_frontend_port E [] w).1 =
      Returns (PortManager.next_frontend st) ∧
    (PortManager.find_available_backend_port E [] w).1 =
      Returns (PortManager.next_backend st).
Proof.
  intros Hview Hpfe Hpbe Hfe Hbe. cbv zeta.
  destruct (scan_probeable E r _ Hpfe) as [nfe Hnfe].
  destruct (scan_probeable E r _ Hpbe) as [nbe Hnbe].
  unfold PortManager.get_port_status, PortManager.find_available_frontend_port,
    PortManager.find_available_backend_port, PortManager.find_available_port,
    PortManager.utilization, usable in *.
  unfold_monad. rewrite (pm_registry_returns E w r Hview). cbn.
  rewrite Hnfe. cbn. rewrite Hnbe. cbn.
  rewrite !bool_decide_eq_false_2 by done. cbn.
  eexists. split; [done|]. cbn. split_and!.
  - intros p.
    rewrite merge_sort_Permutation, list_elem_of_filter, elem_of_allocated_keys.
    tauto.
  - intros p.
    rewrite merge_sort_Permutation, list_elem_of_filter, elem_of_allocated_keys.
    tauto.
  - apply StronglySorted_merge_sort_Z.
  - apply StronglySorted_merge_sort_Z.
  - rewrite !merge_sort_Permutation. apply NoDup_app. split_and!.
    + apply NoDup_filter, NoDup_fst_map_to_list.
    + intros p [Hp _]%list_elem_of_filter [[Hq _] _]%list_elem_of_filter. congruence.
    + apply NoDup_filter, NoDup_fst_map_to_list.
  - done.
  - done.
Qed.

Lemma get_port_status_used_ports_witness :
  ∃ st,
    (PortManager.get_port_status test_env busy_world).1 = Returns st ∧
    (∀ p, p ∈ PortManager.used_frontend st ↔
          is_Some (allocated (port_allocation busy_registry) !! p) ∧
          PortManager.in_range (frontend_range (port_allocation busy_registry)) p = true) ∧
    (∀ p, p ∈ PortManager.used_backend st ↔
          is_Some (allocated (port_allocation busy_registry) !! p) ∧
          PortManager.in_range (frontend_range (port_allocation busy_registry)) p = false ∧
          PortManager.in_range (backend_range (port_allocation busy_registry)) p = true) ∧
    StronglySorted Z.le (PortManager.used_frontend st) ∧
    StronglySorted Z.le (PortManager.used_backend st) ∧
    NoDup (PortManager.used_frontend st ++ PortManager.used_backend st) ∧
    (PortManager.find_available_frontend_port test_env [] busy_world).1 =
      Returns (PortManager.next_frontend st) ∧
    (PortManager.find_available_backend_port test_env [] busy_world).1 =
      Returns (PortManager.next_backend st).
Proof.
  apply (get_port_status_used_ports test_env busy_world busy_registry).
  - vm_compute. reflexivity.
  - split; vm_compute; discriminate.
  - split; vm_compute; discriminate.
  - vm_compute. discriminate.
  - vm_compute. discriminate.
Defined.

(** *** The project directory: what a call that returned has done *)

Section Inversions.
Context (E : Env).

Lemma pr_view_loaded w r : pr_registry w = Some r → pr_view E w = Returns r.
Proof. intros H. unfold pr_view. by rewrite (pr_registry_cached E w r H). Qed.

Lemma pr_registry_loads w r w1 :
  ProjectRegistry.registry E w = (Returns r, w1) →
  pr_view E w = Returns r ∧ w1 = set_pr_registry (Some r) w.
Proof.
  intros Hreg. assert (Hview : pr_view E w = Returns r).
  { unfold pr_view. by rewrite Hreg. }
  split; [done|]. rewrite (pr_registry_returns E w r Hview) in Hreg. congruence.
Qed.

Lemma save_returns_stamped modified_by w r w' :
  pr_registry w = Some r →
  ProjectRegistry.save E modified_by w = (Returns (), w') →
  file w' = Some (stamped E modified_by r) ∧
  pr_registry w' = Some (stamped E modified_by r) ∧
  pm_registry w' = pm_registry w ∧ can_write E = true.
Proof.
  intros Hpr. unfold ProjectRegistry.save, ProjectRegistry._create_backup, model_save.
  unfold_monad. rewrite (pr_registry_cached E w r Hpr). cbn.
  destruct (file w); cbn; destruct (can_write E); cbn; by intros [= <-].
Qed.

Lemma allocation_keeps_pr_registry n need_fe need_be (auto : bool) w ports w2 :
  (if auto then
     if need_fe || need_be
     then PortManager.allocate_ports E n need_fe need_be
     else mret ∅
   else mret ∅) w = (Returns ports, w2) →
  pr_registry w2 = pr_registry w.
Proof.
  destruct auto; [|by intros [= _ <-]].
  destruct (_ || _); [|by intros [= _ <-]].
  intros Halloc.
  pose proof (allocate_ports_frame E n need_fe need_be w) as [Hfp _].
  by rewrite Halloc in Hfp.
Qed.

Lemma register_project_returns n path display_name description
    frontend_command backend_command frontend_cwd backend_cwd env_vars tags
    auto_allocate_ports w project w' :
  ProjectRegistry.register_project E n path display_name description
    frontend_command backend_command frontend_cwd backend_cwd env_vars tags
    auto_allocate_ports w = (Returns project, w') →
  ∃ r ports,
    pr_view E w = Returns r ∧ projects r !! n = None ∧
    path_exists E path = true ∧ path_is_dir E path = true ∧
    match_name n = true ∧
    (auto_allocate_ports = false → ports = ∅) ∧
    project = fill_display_name
                (new_project E r n path display_name description frontend_command
                   backend_command frontend_cwd backend_cwd env_vars tags ports) ∧
    file w' = Some (stamped E "register_project"
                      (set_projects (<[n := project]> (projects r)) r)) ∧
    pr_registry w' = Some (stamped E "register_project"
                             (set_projects (<[n := project]> (projects r)) r)).
Proof.
  intros Hrun. unfold ProjectRegistry.register_project in Hrun.
  apply bind_returns in Hrun as (r & w1 & Hreg & Hrun).
  apply pr_registry_loads in Hreg as [Hview ->].
  case_bool_decide as Hnew; [done|].
  destruct (path_exists E path) eqn:Hex; [|done].
  destruct (path_is_dir E path) eqn:Hdir; [|done].
  cbn [negb] in Hrun.
  apply bind_returns in Hrun as (ports & w2 & Halloc & Hrun).
  assert (Hauto : auto_allocate_ports = false → ports = ∅).
  { intros ->. by injection Halloc as <- _. }
  apply allocation_keeps_pr_registry in Halloc. simpl in Halloc.
  apply bind_returns in Hrun as (r2 & w3 & Hreg2 & Hrun).
  rewrite (pr_registry_cached E w2 r Halloc) in Hreg2. injection Hreg2 as <- <-.
  apply bind_returns in Hrun as (pj & w3 & Hpost & Hrun).
  unfold ProjectRegistry.lift_outcome, __post_init__ in Hpost.
  destruct (match_name _) eqn:Hname in Hpost; [|done]. injection Hpost as <- <-.
  apply bind_returns in Hrun as (r3 & w4 & Hreg3 & Hrun).
  rewrite (pr_registry_cached E w2 r Halloc) in Hreg3. injection Hreg3 as <- <-.
  apply bind_returns in Hrun as ([] & w5 & Hmod & Hrun).
  injection Hmod as <-.
  apply bind_returns in Hrun as ([] & ws & Hsave & Hrun).
  eapply save_returns_stamped in Hsave as (Hfs & Hprs & _ & _); [|reflexivity].
  apply bind_returns in Hrun as (r4 & w6 & Hreg4 & Hrun).
  rewrite (pr_registry_cached E ws _ Hprs) in Hreg4. injection Hreg4 as <- <-.
  apply bind_returns in Hrun as ([] & w7 & Hgen & Hrun).
  injection Hrun as <- <-.
  assert (Hkeep : file w7 = file ws ∧ pr_registry w7 = pr_registry ws).
  { destruct (auto_generate_env _); [|by injection Hgen as <-].
    unfold ProjectRegistry._generate_env_file in Hgen. unfold_monad.
    rewrite (pr_registry_cached E ws _ Hprs) in Hgen. by injection Hgen as <-. }
  destruct Hkeep as [Hf7 Hp7].
  exists r, ports. split_and!; try done.
  - by apply eq_None_not_Some.
  - by rewrite Hf7.
  - by rewrite Hp7.
Qed.

Lemma release_ports_frame n w :
  pr_registry (PortManager.release_ports E n w).2 = pr_registry w ∧
  backup_dir (PortManager.release_ports E n w).2 = backup_dir w.
Proof.
  destruct (pm_view E w) as [r|e] eqn:Hview.
  - rewrite (release_ports_spec E n w r Hview).
    case_bool_decide; [done|]. by destruct (can_write E).
  - unfold PortManager.release_ports. unfold_monad.
    by rewrite (pm_registry_raises E w e Hview).
Qed.

Lemma release_ports_returns n w released w' :
  PortManager.release_ports E n w = (Returns released, w') →
  ∃ r, pm_view E w = Returns r ∧
       pm_registry w' =
         Some (set_allocated
                 (filter (λ kv, kv.2 ≠ n) (allocated (port_allocation r))) r).
Proof.
  destruct (pm_view E w) as [r|e] eqn:Hview.
  - rewrite (release_ports_spec E n w r Hview). intros Hrun. exists r.
    split; [done|]. case_bool_decide; [by injection Hrun as _ <-|].
    destruct (can_write E); [|done]. by injection Hrun as _ <-.
  - unfold PortManager.release_ports. unfold_monad.
    by rewrite (pm_registry_raises E w e Hview).
Qed.

Lemma remove_project_returns n (release : bool) w b w' :
  ProjectRegistry.remove_project E n release w = (Returns b, w') →
  ∃ r, pr_view E w = Returns r ∧ is_Some (projects r !! n) ∧ b = true ∧
       file w' = Some (stamped E "remove_project"
                         (set_projects (delete n (projects r)) r)) ∧
       pr_registry w' = Some (stamped E "remove_project"
                                (set_projects (delete n (projects r)) r)) ∧
       (release = true →
        ∃ rp, pm_registry w' =
                Some (set_allocated
                        (filter (λ kv, kv.2 ≠ n) (allocated (port_allocation rp)))
                        rp)).
Proof.
  intros Hrun. unfold ProjectRegistry.remove_project in Hrun.
  apply bind_returns in Hrun as (r & w1 & Hreg & Hrun).
  apply pr_registry_loads in Hreg as [Hview ->].
  case_bool_decide as Hin; [done|].
  apply bind_returns in Hrun as ([] & w2 & Hrel & Hrun).
  assert (Hpr2 : pr_registry w2 = Some r ∧
                 (release = true →
                  ∃ rp, pm_registry w2 =
                    Some (set_allocated
                            (filter (λ kv, kv.2 ≠ n) (allocated (port_allocation rp)))
                            rp))).
  { destruct release; [|by injection Hrel as <-].
    apply bind_returns in Hrel as (released & w2' & Hrel & Hret).
    injection Hret as <-.
    pose proof (release_ports_frame n (set_pr_registry (Some r) w)) as [Hf _].
    rewrite Hrel in Hf. split; [done|]. intros _.
    apply release_ports_returns in Hrel as (rp & _ & Hpm). by exists rp. }
  destruct Hpr2 as [Hpr2 Hpm2].
  apply bind_returns in Hrun as (r2 & w3 & Hreg2 & Hrun).
  rewrite (pr_registry_cached E w2 r Hpr2) in Hreg2. injection Hreg2 as <- <-.
  apply bind_returns in Hrun as ([] & w4 & Hmod & Hrun).
  injection Hmod as <-.
  apply bind_returns in Hrun as ([] & ws & Hsave & Hrun).
  injection Hrun as <- <-.
  eapply save_returns_stamped in Hsave as (Hfs & Hprs & Hpms & _); [|reflexivity].
  exists r. split_and!; try done.
  - by apply not_eq_None_Some.
  - intros Hr. destruct (Hpm2 Hr) as [rp Hrp]. exists rp. by rewrite Hpms.
Qed.

Lemma update_project_returns k updates w project w' :
  ProjectRegistry.update_project E k updates w = (Returns project, w') →
  ∃ r old patched, pr_view E w = Returns r ∧ projects r !! k = Some old ∧
       ProjectRegistry.apply_updates E updates old = (patched, None) ∧
       project = ProjectRegistry.set_field patched
                   (ProjectRegistry.set_updated_at
                      (isoformat (now E update_stamp))) ∧
       file w' = Some (stamped E "update_project"
                         (set_projects (<[k := project]> (projects r)) r)) ∧
       pr_registry w' = Some (stamped E "update_project"
                                (set_projects (<[k := project]> (projects r)) r)).
Proof.
  intros Hrun.
  unfold ProjectRegistry.update_project, ProjectRegistry.get_project in Hrun.
  apply bind_returns in Hrun as (found & w1 & Hget & Hrun).
  apply bind_returns in Hget as (r & w1' & Hreg & Hret).
  apply pr_registry_loads in Hreg as [Hview ->]. injection Hret as <- <-.
  destruct (projects r !! k) as [old|] eqn:Hold; [|done].
  destruct (ProjectRegistry.apply_updates E updates old) as [patched [e|]] eqn:Hupd.
  { apply bind_returns in Hrun as (r2 & w3 & _ & Hrun).
    apply bind_returns in Hrun as ([] & w4 & _ & Hrun). done. }
  apply bind_returns in Hrun as (r2 & w3 & Hreg2 & Hrun).
  rewrite (pr_registry_cached E (set_pr_registry (Some r) w) r eq_refl) in Hreg2.
  injection Hreg2 as <- <-.
  apply bind_returns in Hrun as ([] & w4 & Hmod & Hrun).
  injection Hmod as <-.
  apply bind_returns in Hrun as ([] & ws & Hsave & Hrun).
  injection Hrun as <- <-.
  eapply save_returns_stamped in Hsave as (Hfs & Hprs & _ & _); [|reflexivity].
  by exists r, old, patched.
Qed.

Lemma apply_updates_unknown updates : ∀ project,
  Forall (λ u, ProjectRegistry.hasattr E (ProjectRegistry.key u) = false) updates →
  ProjectRegistry.apply_updates E updates project = (project, None).
Proof.
  induction updates as [|u updates IH]; intros project Hall; simpl; [done|].
  apply Forall_cons in Hall as [Hu Hall]. rewrite Hu. by apply IH.
Qed.

End Inversions.

(** X13.  A registration that returned has stored the project under its
    name, in memory and in the file: the name was free before, [get_project]
    now returns the project, every other entry is as before, and the file's
    metadata counts one project more and names "register_project" as the
    last writer. *)
Theorem register_project_stores (E : Env) (n path : string)
    (display_name description frontend_command backend_command
     frontend_cwd backend_cwd : option string)
    (env_vars : gmap string string) (tags : list string)
    (auto_allocate_ports : bool) (w : World) (project : Project) (w' : World) :
  ProjectRegistry.register_project E n path display_name description
    frontend_command backend_command frontend_cwd backend_cwd env_vars tags
    auto_allocate_ports w = (Returns project, w') →
  ∃ r r',
    pr_view E w = Returns r ∧ projects r !! n = None ∧
    pr_view E w' = Returns r' ∧ file w' = Some r' ∧
    projects r' !! n = Some project ∧
    (∀ k, k ≠ n → projects r' !! k = projects r !! k) ∧
    total_projects (metadata r') = Z.of_nat (size (projects r)) + 1 ∧
    total_projects (metadata r') = Z.of_nat (size (projects r')) ∧
    last_modified_by (metadata r') = "register_project" ∧
    (ProjectRegistry.get_project E n w').1 = Returns (Some project).
Proof.
  intros Hrun.
  apply register_project_returns in Hrun
    as (r & ports & Hview & Hnew & _ & _ & _ & _ & _ & Hfile & Hpr).
  eexists r, _. split_and!; [done|done|by apply pr_view_loaded|done|..].
  - simpl. by rewrite lookup_insert_eq.
  - intros k Hk. simpl. by rewrite lookup_insert_ne.
  - simpl. rewrite map_size_insert_None by done. lia.
  - done.
  - done.
  - unfold ProjectRegistry.get_project. unfold_monad.
    rewrite (pr_registry_cached E w' _ Hpr). simpl. by rewrite lookup_insert_eq.
Qed.

Lemma register_project_stores_witness :
  (ProjectRegistry.get_project test_env "test-project" registered_world).1 =
    Returns (Some registered_project).
Proof.
  destruct (register_project_stores test_env "test-project" "/srv/test-project"
              None None None (Some "python main.py") None None ∅ [] true
              test_world registered_project registered_world)
    as (r & r' & _ & _ & _ & _ & _ & _ & _ & _ & _ & Hget).
  - vm_compute. reflexivity.
  - exact Hget.
Defined.

Lemma service_for_is_Some command granted cwd :
  is_Some (ProjectRegistry.service_for command granted cwd) ↔
  ∃ c, command = Some c ∧ c ≠ "".
Proof.
  destruct command as [[|a c]|]; simpl; split;
    try (by intros [? ?]); try (by intros (? & ? & ?)).
  - by intros (c' & [= <-] & ?).
  - intros _. by eexists.
Qed.

Lemma service_for_enabled command granted cwd s :
  ProjectRegistry.service_for command granted cwd = Some s →
  enabled s = true ∧ port s = granted.
Proof. destruct command as [[|a c]|]; simpl; try done. by intros [= <-]. Qed.

(** X14.  The project that a registration returns: it carries the name that
    was asked for, which matches the pattern, and the absolute form of the
    path, which exists and is a directory; its tags are the default tags and
    the given tags, each once; a service is present exactly when its command
    was given and is not empty, and it is enabled; without automatic
    allocation a service has no port. *)
Theorem register_project_builds (E : Env) (n project_path : string)
    (display_name description frontend_command backend_command
     frontend_cwd backend_cwd : option string)
    (env_vars : gmap string string) (given_tags : list string)
    (auto_allocate_ports : bool) (w : World) (project : Project) (w' : World) :
  ProjectRegistry.register_project E n project_path display_name description
    frontend_command backend_command frontend_cwd backend_cwd env_vars given_tags
    auto_allocate_ports w = (Returns project, w') →
  ∃ r, pr_view E w = Returns r ∧
    name project = n ∧ match_name n = true ∧
    path project = path_absolute E project_path ∧
    path_exists E project_path = true ∧ path_is_dir E project_path = true ∧
    NoDup (tags project) ∧
    (∀ t, t ∈ tags project ↔ t ∈ default_tags (settings r) ∨ t ∈ given_tags) ∧
    (is_Some (frontend project) ↔ ∃ c, frontend_command = Some c ∧ c ≠ "") ∧
    (is_Some (backend project) ↔ ∃ c, backend_command = Some c ∧ c ≠ "") ∧
    (∀ s, frontend project = Some s ∨ backend project = Some s →
          enabled s = true ∧ (auto_allocate_ports = false → port s = None)).
Proof.
  intros Hrun.
  apply register_project_returns in Hrun
    as (r & ports & Hview & _ & Hex & Hdir & Hname & Hauto & -> & _ & _).
  exists r. split; [done|].
  unfold fill_display_name, new_project.
  destruct display_name as [[|a d]|]; simpl;
    (split_and!; try done;
     [apply NoDup_remove_dups
     |intros t; by rewrite elem_of_remove_dups, elem_of_app
     |apply service_for_is_Some
     |apply service_for_is_Some
     |intros s [Hs|Hs]; apply service_for_enabled in Hs as [? Hp];
      (split; [done|]); intros Hf; rewrite Hp, (Hauto Hf); apply lookup_empty]).
Qed.

Lemma register_project_builds_witness :
  ∃ r, pr_view test_env test_world = Returns r ∧
    name registered_project = "test-project" ∧ match_name "test-project" = true ∧
    path registered_project = path_absolute test_env "/srv/test-project" ∧
    path_exists test_env "/srv/test-project" = true ∧
    path_is_dir test_env "/srv/test-project" = true ∧
    NoDup (tags registered_project) ∧
    (∀ t, t ∈ tags registered_project ↔ t ∈ default_tags (settings r) ∨ t ∈ []) ∧
    (is_Some (frontend registered_project) ↔ ∃ c, None = Some c ∧ c ≠ "") ∧
    (is_Some (backend registered_project) ↔
       ∃ c, Some "python main.py" = Some c ∧ c ≠ "") ∧
    (∀ s, frontend registered_project = Some s ∨ backend registered_project = Some s →
          enabled s = true ∧ (true = false → port s = None)).
Proof.
  apply (register_project_builds test_env "test-project" "/srv/test-project"
           None None None (Some "python main.py") None None ∅ [] true
           test_world registered_project registered_world).
  vm_compute. reflexivity.
Defined.

(** X15.  A name can be registered once: after a registration that
    returned, every further registration under the same name, whatever its
    other arguments and whatever the system answers by then, raises
    [ProjectExistsError] and changes nothing. *)
Theorem register_project_twice (E E2 : Env) (n path1 path2 : string)
    (display_name1 description1 frontend_command1 backend_command1
     frontend_cwd1 backend_cwd1 : option string)
    (display_name2 description2 frontend_command2 backend_command2
     frontend_cwd2 backend_cwd2 : option string)
    (env_vars1 env_vars2 : gmap string string) (tags1 tags2 : list string)
    (auto_allocate_ports1 auto_allocate_ports2 : bool)
    (w : World) (project : Project) (w' : World) :
  ProjectRegistry.register_project E n path1 display_name1 description1
    frontend_command1 backend_command1 frontend_cwd1 backend_cwd1 env_vars1 tags1
    auto_allocate_ports1 w = (Returns project, w') →
  ProjectRegistry.register_project E2 n path2 display_name2 description2
    frontend_command2 backend_command2 frontend_cwd2 backend_cwd2 env_vars2 tags2
    auto_allocate_ports2 w' = (Raises ProjectExistsError, w').
Proof.
  intros Hrun.
  apply register_project_returns in Hrun
    as (r & ports & _ & _ & _ & _ & _ & _ & _ & _ & Hpr).
  unfold ProjectRegistry.register_project. unfold_monad.
  rewrite (pr_registry_cached E2 w' _ Hpr). simpl.
  by rewrite lookup_insert_eq, bool_decide_eq_true_2.
Qed.

Lemma register_project_twice_witness :
  ProjectRegistry.register_project crowded_env "test-project" "/srv/other"
    (Some "Other") None (Some "npm run dev") None None None ∅ ["web"] false
    registered_world = (Raises ProjectExistsError, registered_world).
Proof.
  apply (register_project_twice test_env crowded_env "test-project"
           "/srv/test-project"
           "/srv/other" None None None (Some "python main.py") None None
           (Some "Other") None (Some "npm run dev") None None None ∅ ∅ []
           ["web"] true false test_world registered_project registered_world).
  vm_compute. reflexivity.
Defined.

(** X16.  A removal that returned: the project existed, the call returned
    [True], the project is gone from memory and from the file while every
    other entry is as before, and the metadata counts one project less.  The
    file carries the allocation map of the project directory's own copy of
    the registry, untouched; with [release_ports] the port manager's map has
    no port left under the name. *)
Theorem remove_project_removes (E : Env) (n : string) (release : bool)
    (w : World) (b : bool) (w' : World) :
  ProjectRegistry.remove_project E n release w = (Returns b, w') →
  ∃ r r',
    pr_view E w = Returns r ∧ is_Some (projects r !! n) ∧ b = true ∧
    pr_view E w' = Returns r' ∧ file w' = Some r' ∧
    projects r' !! n = None ∧
    (∀ k, k ≠ n → projects r' !! k = projects r !! k) ∧
    total_projects (metadata r') = Z.of_nat (size (projects r)) - 1 ∧
    last_modified_by (metadata r') = "remove_project" ∧
    port_allocation r' = port_allocation r ∧
    (ProjectRegistry.get_project E n w').1 = Returns None ∧
    (release = true →
     ∃ a', pm_allocated E w' = Returns a' ∧ ∀ p, a' !! p ≠ Some n).
Proof.
  intros Hrun.
  apply remove_project_returns in Hrun
    as (r & Hview & [old Hold] & -> & Hfile & Hpr & Hpm).
  eexists r, _. split_and!; [done|by eexists|done|by apply pr_view_loaded|done|..].
  - simpl. apply lookup_delete_eq.
  - intros k Hk. simpl. by rewrite lookup_delete_ne.
  - simpl. rewrite map_size_delete, Hold.
    assert (size (projects r) ≠ 0%nat)
      by (apply map_size_ne_0_lookup_2 with n; eauto).
    lia.
  - done.
  - done.
  - unfold ProjectRegistry.get_project. unfold_monad.
    rewrite (pr_registry_cached E w' _ Hpr). simpl. by rewrite lookup_delete_eq.
  - intros Hr. destruct (Hpm Hr) as [rp Hrp]. eexists. split.
    + unfold pm_allocated, pm_view, PortManager.registry. by rewrite Hrp.
    + intros p Hp. simpl in Hp. apply map_lookup_filter_Some in Hp as [_ Hp]. done.
Qed.

Lemma remove_project_removes_witness :
  (ProjectRegistry.get_project test_env "shop"
     (ProjectRegistry.remove_project test_env "shop" true shop_world).2).1 =
    Returns None.
Proof.
  destruct (remove_project_removes test_env "shop" true shop_world true
              (ProjectRegistry.remove_project test_env "shop" true shop_world).2)
    as (r & r' & _ & _ & _ & _ & _ & _ & _ & _ & _ & _ & Hget & _).
  - vm_compute. reflexivity.
  - exact Hget.
Defined.

(** X17.  Registering a project and removing it again gives back the
    registry of before: the project directory's registry and the file are
    the registry from before the registration, but for the metadata that
    the last save stamped. *)
Theorem register_then_remove_restores (E E2 : Env) (n path : string)
    (display_name description frontend_command backend_command
     frontend_cwd backend_cwd : option string)
    (env_vars : gmap string string) (tags : list string)
    (auto_allocate_ports release : bool)
    (w : World) (project : Project) (w1 : World) (b : bool) (w2 : World) :
  ProjectRegistry.register_project E n path display_name description
    frontend_command backend_command frontend_cwd backend_cwd env_vars tags
    auto_allocate_ports w = (Returns project, w1) →
  ProjectRegistry.remove_project E2 n release w1 = (Returns b, w2) →
  ∃ r, pr_view E w = Returns r ∧
       pr_view E2 w2 = Returns (stamped E2 "remove_project" r) ∧
       file w2 = Some (stamped E2 "remove_project" r).
Proof.
  intros Hreg Hrem.
  apply register_project_returns in Hreg
    as (r & ports & Hview & Hnew & _ & _ & _ & _ & _ & _ & Hpr1).
  apply remove_project_returns in Hrem as (r1 & Hview1 & _ & _ & Hfile & Hpr & _).
  rewrite (pr_view_loaded E2 w1 _ Hpr1) in Hview1. injection Hview1 as <-.
  assert (Heq : stamped E2 "remove_project"
                  (set_projects
                     (delete n (projects (stamped E "register_project"
                        (set_projects (<[n:=project]> (projects r)) r))))
                     (stamped E "register_project"
                        (set_projects (<[n:=project]> (projects r)) r))) =
                stamped E2 "remove_project" r).
  { unfold stamped, set_metadata, set_projects. simpl.
    by rewrite delete_insert_id. }
  rewrite Heq in Hfile, Hpr. exists r. split; [done|]. split; [|done].
  by apply pr_view_loaded.
Qed.

Lemma register_then_remove_restores_witness :
  ∃ r, pr_view test_env test_world = Returns r ∧
       pr_view test_env
         (ProjectRegistry.remove_project test_env "test-project" false
            registered_world).2 =
         Returns (stamped test_env "remove_project" r) ∧
       file (ProjectRegistry.remove_project test_env "test-project" false
               registered_world).2 =
         Some (stamped test_env "remove_project" r).
Proof.
  apply (register_then_remove_restores test_env test_env "test-project"
           "/srv/test-project"
           None None None (Some "python main.py") None None ∅ [] true false
           test_world registered_project registered_world true).
  - vm_compute. reflexivity.
  - vm_compute. reflexivity.
Defined.

(** X18.  A name that is not registered: [update_project] and
    [remove_project] raise [ProjectNotFoundError] and leave the file, the
    backups and the port manager as they were (the registry has been loaded,
    nothing more); [get_project] and [get_project_info] return [None]. *)
Theorem unknown_project_not_found (E : Env) (n : string)
    (updates : list ProjectRegistry.Update) (release : bool)
    (w : World) (r : RegistryModel) :
  pr_view E w = Returns r →
  projects r !! n = None →
  ProjectRegistry.update_project E n updates w =
    (Raises ProjectNotFoundError, set_pr_registry (Some r) w) ∧
  ProjectRegistry.remove_project E n release w =
    (Raises ProjectNotFoundError, set_pr_registry (Some r) w) ∧
  (ProjectRegistry.get_project E n w).1 = Returns None ∧
  (ProjectRegistry.get_project_info E n w).1 = Returns None.
Proof.
  intros Hview Hnone.
  unfold ProjectRegistry.update_project, ProjectRegistry.remove_project,
    ProjectRegistry.get_project_info, ProjectRegistry.get_project.
  unfold_monad. rewrite (pr_registry_returns E w r Hview). simpl.
  rewrite Hnone. by rewrite bool_decide_eq_true_2.
Qed.

Lemma unknown_project_not_found_witness :
  ProjectRegistry.update_project test_env "ghost"
      [ProjectRegistry.set_notes (Some "x")] app_world =
    (Raises ProjectNotFoundError, set_pr_registry (Some app_registry) app_world) ∧
  ProjectRegistry.remove_project test_env "ghost" true app_world =
    (Raises ProjectNotFoundError, set_pr_registry (Some app_registry) app_world) ∧
  (ProjectRegistry.get_project test_env "ghost" app_world).1 = Returns None ∧
  (ProjectRegistry.get_project_info test_env "ghost" app_world).1 = Returns None.
Proof.
  apply (unknown_project_not_found test_env "ghost"
           [ProjectRegistry.set_notes (Some "x")] true app_world app_registry).
  - vm_compute. reflexivity.
  - vm_compute. reflexivity.
Defined.

(** X19.  An update that returned: the project was registered and the
    loop over the patch ran to its end; the project returned is what the
    loop left, with [updated_at] set to the time of the call, whatever the
    patch says; a patch none of whose keys is an attribute of a project
    changes nothing else; the project is stored under the key it was found
    at, every other entry and the number of projects are as before, and the
    file names "update_project" as the last writer. *)
Theorem update_project_stamps (E : Env) (k : string)
    (updates : list ProjectRegistry.Update) (w : World) (project : Project)
    (w' : World) :
  ProjectRegistry.update_project E k updates w = (Returns project, w') →
  ∃ r old patched r',
    pr_view E w = Returns r ∧ projects r !! k = Some old ∧
    ProjectRegistry.apply_updates E updates old = (patched, None) ∧
    project = ProjectRegistry.set_field patched
                (ProjectRegistry.set_updated_at (isoformat (now E update_stamp))) ∧
    updated_at project = isoformat (now E update_stamp) ∧
    (Forall (λ u, ProjectRegistry.hasattr E (ProjectRegistry.key u) = false)
            updates →
     project = ProjectRegistry.set_field old
                 (ProjectRegistry.set_updated_at
                    (isoformat (now E update_stamp)))) ∧
    pr_view E w' = Returns r' ∧ file w' = Some r' ∧
    projects r' !! k = Some project ∧
    (∀ j, j ≠ k → projects r' !! j = projects r !! j) ∧
    total_projects (metadata r') = Z.of_nat (size (projects r)) ∧
    last_modified_by (metadata r') = "update_project".
Proof.
  intros Hrun.
  apply update_project_returns in Hrun
    as (r & old & patched & Hview & Hold & Hupd & -> & Hfile & Hpr).
  eexists r, old, patched, _.
  split_and!; [done|done|done|done|done| |by apply pr_view_loaded|done|..].
  - intros Hall. rewrite apply_updates_unknown in Hupd by done. congruence.
  - simpl. by rewrite lookup_insert_eq.
  - intros j Hj. simpl. by rewrite lookup_insert_ne.
  - simpl. by rewrite map_size_insert_Some.
  - done.
Qed.

Lemma update_project_stamps_witness :
  ∃ r old patched r',
    pr_view test_env app_world = Returns r ∧ projects r !! "app" = Some old ∧
    ProjectRegistry.apply_updates test_env
      [ProjectRegistry.set_updated_at "1999-01-01T00:00:00";
       ProjectRegistry.other "owner" (ProjectRegistry.assigns (λ p, p))]
      old = (patched, None) ∧
    (ProjectRegistry.update_project test_env "app"
       [ProjectRegistry.set_updated_at "1999-01-01T00:00:00";
        ProjectRegistry.other "owner" (ProjectRegistry.assigns (λ p, p))]
       app_world).1 =
      Returns (ProjectRegistry.set_field patched
                 (ProjectRegistry.set_updated_at
                    (isoformat (now test_env update_stamp)))) ∧
    pr_view test_env
      (ProjectRegistry.update_project test_env "app"
         [ProjectRegistry.set_updated_at "1999-01-01T00:00:00";
          ProjectRegistry.other "owner" (ProjectRegistry.assigns (λ p, p))]
         app_world).2 = Returns r' ∧
    updated_at <$> projects r' !! "app" =
      Some (isoformat (now test_env update_stamp)) ∧
    last_modified_by (metadata r') = "update_project".
Proof.
  destruct (update_project_stamps test_env "app"
              [ProjectRegistry.set_updated_at "1999-01-01T00:00:00";
               ProjectRegistry.other "owner" (ProjectRegistry.assigns (λ p, p))]
              app_world
              (ProjectRegistry.set_field app_project
                 (ProjectRegistry.set_updated_at
                    (isoformat (now test_env update_stamp))))
              (ProjectRegistry.update_project test_env "app"
                 [ProjectRegistry.set_updated_at "1999-01-01T00:00:00";
                  ProjectRegistry.other "owner" (ProjectRegistry.assigns (λ p, p))]
                 app_world).2)
    as (r & old & patched & r' & Hview & Hold & Hupd & Hp & Hstamp & _ & Hview'
        & _ & Hstored & _ & _ & Hby).
  - vm_compute. reflexivity.
  - exists r, old, patched, r'.
    split; [exact Hview|]. split; [exact Hold|]. split; [exact Hupd|].
    split; [rewrite <- Hp; vm_compute; reflexivity|].
    split; [exact Hview'|]. split; [|exact Hby].
    rewrite Hstored. exact (f_equal Some Hstamp).
Defined.

(** X20.  Nothing validates a name that an update sets: when the project an
    update returned has a name that does not match the pattern, the file the
    update wrote cannot be loaded any more, and a process that starts from
    that file gets [ValueError] from the project directory and from the port
    manager alike. *)
Theorem unvalidated_name_blocks_loading (E : Env) (k : string)
    (updates : list ProjectRegistry.Update) (w : World) (project : Project)
    (w' : World) :
  ProjectRegistry.update_project E k updates w = (Returns project, w') →
  match_name (name project) = false →
  ∀ E2 who,
    load E2 who (file w') = Raises ValueError ∧
    (ProjectRegistry.registry E2 (set_pr_registry None w')).1 = Raises ValueError ∧
    (PortManager.registry E2 (set_pm_registry None w')).1 = Raises ValueError.
Proof.
  intros Hrun Hbad E2 who.
  apply update_project_returns in Hrun as (r & old & patched & _ & _ & _ & Hp & Hfile & _).
  assert (Hload : ∀ who, load E2 who (file w') = Raises ValueError).
  { intros who'. rewrite Hfile. simpl. unfold from_dict.
    rewrite bool_decide_eq_false_2; [done|].
    intros Hall. specialize (Hall k project). simpl in Hall.
    rewrite lookup_insert_eq in Hall. specialize (Hall eq_refl). congruence. }
  split; [done|].
  unfold ProjectRegistry.registry, PortManager.registry. simpl. by rewrite !Hload.
Qed.

Lemma unvalidated_name_blocks_loading_witness :
  load test_env directory
    (file (ProjectRegistry.update_project test_env "app"
             [ProjectRegistry.set_name "Bad Name"] app_world).2) =
    Raises ValueError ∧
  (ProjectRegistry.registry test_env
     (set_pr_registry None
        (ProjectRegistry.update_project test_env "app"
           [ProjectRegistry.set_name "Bad Name"] app_world).2)).1 =
    Raises ValueError ∧
  (PortManager.registry test_env
     (set_pm_registry None
        (ProjectRegistry.update_project test_env "app"
           [ProjectRegistry.set_name "Bad Name"] app_world).2)).1 =
    Raises ValueError.
Proof.
  apply (unvalidated_name_blocks_loading test_env "app"
           [ProjectRegistry.set_name "Bad Name"] app_world
           (ProjectRegistry.set_field
              (ProjectRegistry.set_field app_project
                 (ProjectRegistry.set_name "Bad Name"))
              (ProjectRegistry.set_updated_at
                 (isoformat (now test_env update_stamp))))).
  - vm_compute. reflexivity.
  - vm_compute. reflexivity.
Defined.

(** *** Listing and searching *)

Lemma elem_of_values (r : RegistryModel) p :
  p ∈ (map_to_list (projects r)).*2 ↔ ∃ k, projects r !! k = Some p.
Proof.
  rewrite list_elem_of_fmap. split.
  - intros ([k v] & -> & Hkv). apply elem_of_map_to_list in Hkv. by exists k.
  - intros [k Hk]. exists (k, p). split; [done|]. by apply elem_of_map_to_list.
Qed.

(** X21.  [list_projects]: without tags to filter by (none given, or an
    empty list) every registered project is listed; with tags, the projects
    listed are the registered projects that carry at least one of them, in
    the order of the unfiltered listing. *)
Theorem list_projects_filters (E : Env) (w : World) (r : RegistryModel)
    (filter_tags : list string) :
  pr_view E w = Returns r →
  ∃ found,
    (ProjectRegistry.list_projects E filter_tags w).1 = Returns found ∧
    sublist found (map_to_list (projects r)).*2 ∧
    (filter_tags = [] → found = (map_to_list (projects r)).*2) ∧
    ∀ p, p ∈ found ↔
         (∃ k, projects r !! k = Some p) ∧
         (filter_tags = [] ∨ ∃ tag, tag ∈ filter_tags ∧ tag ∈ tags p).
Proof.
  intros Hview. unfold ProjectRegistry.list_projects. unfold_monad.
  rewrite (pr_registry_returns E w r Hview). simpl.
  eexists. split; [done|]. destruct filter_tags as [|t ts].
  - split; [done|]. split; [done|]. intros p. rewrite elem_of_values.
    split; [intros ?; split; [done|by left]|by intros [? _]].
  - split; [apply sublist_filter|]. split; [done|]. intros p.
    rewrite list_elem_of_filter, elem_of_values, Exists_exists.
    split.
    + intros [(tag & ? & ?) ?]. split; [done|]. right. by exists tag.
    + intros [? [?|(tag & ? & ?)]]; [done|]. split; [|done]. by exists tag.
Qed.

Lemma list_projects_filters_witness :
  ∃ found,
    (ProjectRegistry.list_projects test_env ["test"; "web"] shop_world).1 =
      Returns found ∧
    sublist found (map_to_list (projects shop_registry)).*2 ∧
    (["test"; "web"] = [] → found = (map_to_list (projects shop_registry)).*2) ∧
    ∀ p, p ∈ found ↔
         (∃ k, projects shop_registry !! k = Some p) ∧
         (["test"; "web"] = [] ∨ ∃ tag, tag ∈ ["test"; "web"] ∧ tag ∈ tags p).
Proof.
  apply (list_projects_filters test_env shop_world shop_registry).
  vm_compute. reflexivity.
Defined.

Lemma found_in_spec E query s :
  ProjectRegistry.found_in E query s = true ↔
  ∃ d, s = Some d ∧ d ≠ "" ∧ contains query (lower E d) = true.
Proof.
  destruct s as [[|c d]|]; cbn [ProjectRegistry.found_in].
  - split; [done|]. by intros (d & [= <-] & ? & _).
  - split.
    + intros H. by eexists.
    + by intros (d' & [= <-] & _ & ?).
  - split; [done|]. by intros (d & ? & _).
Qed.

Lemma existsb_tags E query (l : list string) :
  existsb (λ tag, contains query (lower E tag)) l = true ↔
  ∃ tag, tag ∈ l ∧ contains query (lower E tag) = true.
Proof.
  rewrite existsb_exists.
  split; intros (tag & Hin & ?); exists tag; split; try done;
    by apply list_elem_of_In.
Qed.

Lemma search_loop_spec E query ps :
  sublist (ProjectRegistry.search_loop E query ps) ps ∧
  ∀ p, p ∈ ProjectRegistry.search_loop E query ps ↔ p ∈ ps ∧ matches E query p.
Proof.
  induction ps as [|q ps [IHs IH]]; cbn [ProjectRegistry.search_loop].
  - split; [done|]. intros p. rewrite elem_of_nil. tauto.
  - assert (Hm : matches E query q ↔
                 contains query (lower E (name q)) = true ∨
                 ProjectRegistry.found_in E query (display_name q) = true ∨
                 existsb (λ tag, contains query (lower E tag)) (tags q) = true ∨
                 ProjectRegistry.found_in E query (description q) = true).
    { unfold matches. by rewrite !found_in_spec, existsb_tags. }
    assert (Hyes : matches E query q →
      sublist (q :: ProjectRegistry.search_loop E query ps) (q :: ps) ∧
      ∀ p, p ∈ q :: ProjectRegistry.search_loop E query ps ↔
           p ∈ q :: ps ∧ matches E query p).
    { intros Hq. split; [by apply sublist_skip|]. intros p.
      rewrite !elem_of_cons, IH. split.
      - intros [->|[? ?]]; [by split; [left|]|by split; [right|]].
      - intros [[->|?] ?]; [by left|by right]. }
    destruct (contains query (lower E (name q))) eqn:H1;
      [apply Hyes, Hm; tauto|].
    destruct (ProjectRegistry.found_in E query (display_name q)) eqn:H2;
      [apply Hyes, Hm; tauto|].
    destruct (existsb _ (tags q)) eqn:H3; [apply Hyes, Hm; tauto|].
    destruct (ProjectRegistry.found_in E query (description q)) eqn:H4;
      [apply Hyes, Hm; tauto|].
    split; [by apply sublist_cons|]. intros p. rewrite elem_of_cons, IH.
    split; [tauto|]. intros [[->|?] Hp]; [|done].
    apply Hm in Hp. intuition congruence.
Qed.

(** X22.  [search_projects] finds the registered projects in which the
    query, lowered by [str.lower], occurs in the lowered name, in the
    lowered display name or description if there is a non-empty one, or in
    a lowered tag.  A project that matches in several places is listed
    once, and the order is that of the registry. *)
Theorem search_projects_finds (E : Env) (w : World) (r : RegistryModel)
    (query : string) :
  pr_view E w = Returns r →
  ∃ found,
    (ProjectRegistry.search_projects E query w).1 = Returns found ∧
    sublist found (map_to_list (projects r)).*2 ∧
    ∀ p, p ∈ found ↔
         (∃ k, projects r !! k = Some p) ∧ matches E (lower E query) p.
Proof.
  intros Hview. unfold ProjectRegistry.search_projects. unfold_monad.
  rewrite (pr_registry_returns E w r Hview). simpl.
  eexists. split; [done|].
  destruct (search_loop_spec E (lower E query) (map_to_list (projects r)).*2)
    as [Hs Hin].
  split; [done|]. intros p. by rewrite Hin, elem_of_values.
Qed.

Lemma search_projects_finds_witness :
  ∃ found,
    (ProjectRegistry.search_projects test_env "SHO" shop_world).1 = Returns found ∧
    sublist found (map_to_list (projects shop_registry)).*2 ∧
    ∀ p, p ∈ found ↔
         (∃ k, projects shop_registry !! k = Some p) ∧
         matches test_env (lower test_env "SHO") p.
Proof.
  apply (search_projects_finds test_env shop_world shop_registry).
  vm_compute. reflexivity.
Defined.

(** *** Saving without a file, twice in a second, and reloading *)

(** X23.  The first [ProjectRegistry.save] in a data directory that has no
    registry file yet makes no backup: the backup directory is as before,
    and, if the file can be written, the file now holds the stamped
    registry (no file appears otherwise, and [OSError] is raised). *)
Theorem save_without_file (E : Env) (modified_by : string) (w : World)
    (r : RegistryModel) :
  pr_view E w = Returns r →
  file w = None →
  ∃ w',
    ProjectRegistry.save E modified_by w =
      (if can_write E then Returns () else Raises OSError, w') ∧
    backup_dir w' = backup_dir w ∧
    file w' = (if can_write E then Some (stamped E modified_by r) else None) ∧
    pr_view E w' = Returns (stamped E modified_by r).
Proof.
  intros Hview Hfile.
  unfold ProjectRegistry.save, ProjectRegistry._create_backup, model_save.
  unfold_monad. rewrite (pr_registry_returns E w r Hview). cbn.
  rewrite Hfile. cbn. destruct (can_write E); cbn; by eexists.
Qed.

Lemma save_without_file_witness :
  ∃ w',
    ProjectRegistry.save test_env "system" fresh_world =
      (if can_write test_env then Returns () else Raises OSError, w') ∧
    backup_dir w' = backup_dir fresh_world ∧
    file w' = (if can_write test_env
               then Some (stamped test_env "system"
                            (default_registry test_env directory))
               else None) ∧
    pr_view test_env w' =
      Returns (stamped test_env "system" (default_registry test_env directory)).
Proof.
  apply (save_without_file test_env "system" fresh_world
           (default_registry test_env directory)).
  - vm_compute. reflexivity.
  - reflexivity.
Defined.

(** X24.  Two saves within the same second use the same backup name: after
    the second one, whatever the backup directory holds under that name is
    the registry the first save wrote, so the copy of the original file that
    the first save had made there is not kept. *)
Theorem save_twice_same_second (E E2 : Env) (modified_by modified_by2 : string)
    (w : World) (doc r : RegistryModel) (w1 w2 : World) :
  file w = Some doc →
  pr_view E w = Returns r →
  ProjectRegistry.backup_name (now E2 backup_stamp) =
    ProjectRegistry.backup_name (now E backup_stamp) →
  ProjectRegistry.save E modified_by w = (Returns (), w1) →
  ProjectRegistry.save E2 modified_by2 w1 = (Returns (), w2) →
  file w1 = Some (stamped E modified_by r) ∧
  ∀ x, backup_dir w2 !! ProjectRegistry.backup_name (now E backup_stamp) = Some x →
       x = stamped E modified_by r.
Proof.
  intros Hfile Hview Hname Hs1 Hs2.
  rewrite (save_outcome E modified_by w doc r Hfile Hview) in Hs1.
  destruct (can_write E); [|done]. injection Hs1 as <-.
  fold (stamped E modified_by r) in *.
  split; [done|].
  erewrite (save_outcome E2 modified_by2 _ (stamped E modified_by r)
              (stamped E modified_by r)) in Hs2; [|done|done].
  destruct (can_write E2); [|done]. injection Hs2 as <-.
  intros x Hx. simpl in Hx. rewrite Hname in Hx.
  eapply lookup_weaken in Hx; [|apply rotated_subseteq].
  rewrite lookup_insert_eq in Hx. congruence.
Qed.

Lemma save_twice_same_second_witness :
  file (ProjectRegistry.save test_env "first" app_world).2 =
    Some (stamped test_env "first" app_registry) ∧
  ∀ x, backup_dir
         (ProjectRegistry.save test_env "second"
            (ProjectRegistry.save test_env "first" app_world).2).2
         !! ProjectRegistry.backup_name (now test_env backup_stamp) = Some x →
       x = stamped test_env "first" app_registry.
Proof.
  apply (save_twice_same_second test_env test_env "first" "second" app_world
           app_registry app_registry).
  - reflexivity.
  - vm_compute. reflexivity.
  - reflexivity.
  - vm_compute. reflexivity.
  - vm_compute. reflexivity.
Defined.

(** X25.  [ProjectRegistry.reload] brings the two in-memory registries back
    in step.  It loads twice, once for the project directory and once for
    its port manager; when it returns, each holds what its own load gave,
    and the file and the backups are untouched.  The two registries agree
    in the version, the projects, the port allocation, the settings and the
    counters and the last writer of the metadata.  (The two timestamps of
    the metadata are left out: where a load has to supply one, it reads the
    clock for itself.) *)
Theorem reload_synchronises (E : Env) (w w' : World) :
  ProjectRegistry.reload E w = (Returns (), w') →
  ∃ r_dir r_pm,
    load E directory (file w) = Returns r_dir ∧
    load E port_manager (file w) = Returns r_pm ∧
    pr_view E w' = Returns r_dir ∧ pm_view E w' = Returns r_pm ∧
    file w' = file w ∧ backup_dir w' = backup_dir w ∧
    version r_dir = version r_pm ∧ projects r_dir = projects r_pm ∧
    port_allocation r_dir = port_allocation r_pm ∧
    settings r_dir = settings r_pm ∧
    last_modified_by (metadata r_dir) = last_modified_by (metadata r_pm) ∧
    total_projects (metadata r_dir) = total_projects (metadata r_pm) ∧
    active_projects (metadata r_dir) = active_projects (metadata r_pm).
Proof.
  unfold ProjectRegistry.reload, PortManager.reload.
  destruct (load E directory (file w)) as [r_dir|e] eqn:Hdir; [|done]. simpl.
  destruct (load E port_manager (file w)) as [r_pm|e] eqn:Hpm; [|done].
  intros [= <-]. exists r_dir, r_pm.
  do 6 (split; [done|]).
  destruct (file w) as [doc|]; simpl in Hdir, Hpm.
  - assert (r_dir = r_pm) as -> by congruence. by split_and!.
  - injection Hdir as <-. injection Hpm as <-. by split_and!.
Qed.

Lemma reload_synchronises_witness :
  ∃ r_dir r_pm,
    load test_env directory (file registered_world) = Returns r_dir ∧
    load test_env port_manager (file registered_world) = Returns r_pm ∧
    pr_view test_env (ProjectRegistry.reload test_env registered_world).2 =
      Returns r_dir ∧
    pm_view test_env (ProjectRegistry.reload test_env registered_world).2 =
      Returns r_pm ∧
    file (ProjectRegistry.reload test_env registered_world).2 =
      file registered_world ∧
    backup_dir (ProjectRegistry.reload test_env registered_world).2 =
      backup_dir registered_world ∧
    version r_dir = version r_pm ∧ projects r_dir = projects r_pm ∧
    port_allocation r_dir = port_allocation r_pm ∧
    settings r_dir = settings r_pm ∧
    last_modified_by (metadata r_dir) = last_modified_by (metadata r_pm) ∧
    total_projects (metadata r_dir) = total_projects (metadata r_pm) ∧
    active_projects (metadata r_dir) = active_projects (metadata r_pm).
Proof.
  apply (reload_synchronises test_env registered_world).
  vm_compute. reflexivity.
Defined.

(** *** The controller: uptime, process lookup, statuses *)

Lemma div_lt_iff a b q : 0 < b → (a `div` b < q ↔ a < b * q).
Proof.
  intros Hb. pose proof (Z.div_mod a b) as Hdm.
  pose proof (Z.mod_pos_bound a b Hb) as Hm. split; intros H; nia.
Qed.

(** X26.  The units of [_format_uptime], in milliseconds: below one minute
    the whole seconds ("s"; a negative uptime gives negative seconds), below
    one hour the whole minutes ("m"), below one day hours and the minutes
    left over, from one day on days and the hours left over; the minutes
    left over are below 60 and the hours left over below 24. *)
Theorem format_uptime_units (ms : Z) :
  ProcessController._format_uptime (Some ms) =
    Some (if decide (ms < 60000) then pretty (ms `div` 1000) +:+ "s"
          else if decide (ms < 3600000) then pretty (ms `div` 60000) +:+ "m"
          else if decide (ms < 86400000)
               then pretty (ms `div` 3600000) +:+ "h " +:+
                    pretty ((ms `div` 60000) `mod` 60) +:+ "m"
          else pretty (ms `div` 86400000) +:+ "d " +:+
               pretty ((ms `div` 3600000) `mod` 24) +:+ "h") ∧
  0 ≤ (ms `div` 60000) `mod` 60 < 60 ∧
  0 ≤ (ms `div` 3600000) `mod` 24 < 24.
Proof.
  split; [|split; apply Z.mod_pos_bound; lia].
  unfold ProcessController._format_uptime.
  assert (H1 : (ms `div` 1000) `div` 60 = ms `div` 60000).
  { rewrite Z.div_div by lia. done. }
  rewrite H1.
  assert (H2 : (ms `div` 60000) `div` 60 = ms `div` 3600000).
  { rewrite Z.div_div by lia. done. }
  rewrite H2.
  assert (H3 : (ms `div` 3600000) `div` 24 = ms `div` 86400000).
  { rewrite Z.div_div by lia. done. }
  rewrite H3.
  pose proof (div_lt_iff ms 1000 60).
  pose proof (div_lt_iff ms 60000 60).
  pose proof (div_lt_iff ms 3600000 24).
  repeat case_bool_decide; repeat case_decide; try done; exfalso; lia.
Qed.

(** X27.  [_get_pm2_process] returns the first process of the listing that
    carries the name, and [None] exactly when no listed process does. *)
Theorem get_pm2_process_first (processes : list ProcessController.Pm2Process)
    (n : string) :
  match ProcessController._get_pm2_process processes n with
  | Some proc =>
      ∃ i, processes !! i = Some proc ∧
           ProcessController.pm2_name proc = Some n ∧
           ∀ j q, (j < i)%nat → processes !! j = Some q →
                  ProcessController.pm2_name q ≠ Some n
  | None => ∀ q, q ∈ processes → ProcessController.pm2_name q ≠ Some n
  end.
Proof.
  unfold ProcessController._get_pm2_process.
  destruct (list_find _ processes) as [[i proc]|] eqn:Hfind; simpl.
  - apply list_find_Some in Hfind as (Hi & Hn & Hmin). exists i.
    split; [done|]. split; [done|]. intros j q Hj Hq. by apply (Hmin j q).
  - apply list_find_None in Hfind. intros q Hq.
    by apply (proj1 (Forall_forall _ _) Hfind).
Qed.

Section Statuses.
Context (E : Env).

Lemma get_project_status_answers l1 l2 n w r p :
  pr_registry w = Some r → projects r !! n = Some p →
  ∃ st, ProcessController.get_project_status E (Returns l1) (Returns l2) n w =
          (Returns (Some st), w) ∧
        ProcessController.project_name st = n.
Proof.
  intros Hpr Hp. unfold ProcessController.get_project_status,
    ProjectRegistry.get_project, ProjectRegistry.lift_outcome.
  unfold_monad. rewrite (pr_registry_cached E w r Hpr). simpl. rewrite Hp.
  destruct (ProcessController.queried (frontend p));
    destruct (ProcessController.queried (backend p)); simpl; by eexists.
Qed.

Lemma status_loop_answers jlist r w ps : ∀ i,
  pr_registry w = Some r →
  (∀ j, ∃ l1 l2, jlist j = (Returns l1, Returns l2)) →
  Forall (λ p, projects r !! name p = Some p) ps →
  ∃ sts, ProcessController.status_loop E jlist i ps w = (Returns sts, w) ∧
         ProcessController.project_name <$> sts = name <$> ps.
Proof.
  intros i Hpr Hj Hall. revert i.
  induction Hall as [|p ps Hp Hall IH]; intros i; simpl.
  - by exists [].
  - unfold_monad. destruct (Hj i) as (l1 & l2 & ->). simpl.
    destruct (get_project_status_answers l1 l2 (name p) w r p Hpr Hp)
      as (st & -> & Hn).
    destruct (IH (S i)) as (sts & Hrun & Hnames).
    unfold_monad. rewrite Hrun. exists (st :: sts). split; [done|].
    rewrite !fmap_cons. by rewrite Hn, Hnames.
Qed.

End Statuses.

(** X28.  [get_all_status], when every project is stored under its own name
    and the supervisor answers every listing: there is one status for each
    registered project, in the order of the listing, carrying the project's
    name. *)
Theorem get_all_status_one_per_project (E : Env) (w : World) (r : RegistryModel)
    (jlist : nat → Outcome (list ProcessController.Pm2Process) *
                   Outcome (list ProcessController.Pm2Process)) :
  pr_view E w = Returns r →
  (∀ k p, projects r !! k = Some p → name p = k) →
  (∀ i, ∃ l1 l2, jlist i = (Returns l1, Returns l2)) →
  ∃ sts, (ProcessController.get_all_status E jlist w).1 = Returns sts ∧
         ProcessController.project_name <$> sts =
           name <$> (map_to_list (projects r)).*2.
Proof.
  intros Hview Hkeys Hj.
  unfold ProcessController.get_all_status, ProjectRegistry.list_projects.
  unfold_monad. rewrite (pr_registry_returns E w r Hview). simpl.
  destruct (status_loop_answers E jlist r (set_pr_registry (Some r) w)
              (map_to_list (projects r)).*2 0%nat eq_refl Hj)
    as (sts & Hrun & Hnames).
  - apply Forall_forall. intros p Hp.
    apply list_elem_of_fmap in Hp as ([k v] & -> & Hkv).
    apply elem_of_map_to_list in Hkv. simpl.
    by rewrite (Hkeys k v Hkv).
  - exists sts. by rewrite Hrun.
Qed.

Lemma get_all_status_one_per_project_witness :
  ∃ sts, (ProcessController.get_all_status test_env shop_answers shop_world).1 =
           Returns sts ∧
         ProcessController.project_name <$> sts =
           name <$> (map_to_list (projects shop_registry)).*2.
Proof.
  apply (get_all_status_one_per_project test_env shop_world shop_registry).
  - vm_compute. reflexivity.
  - intros k p Hp.
    change (projects shop_registry)
      with ({[ "shop" := shop_project ]} : gmap string Project) in Hp.
    apply lookup_singleton_Some in Hp as [<- <-]. reflexivity.
  - intros i. exists shop_jlist, shop_jlist. reflexivity.
Defined.

(** X29.  A registered project without an enabled service is reported as
    "stopped", with no service status, and the supervisor is not consulted:
    the answer is the same whatever the listings would have been, failures
    included. *)
Theorem project_without_services_is_stopped (E : Env) (w : World)
    (r : RegistryModel) (n : string) (project : Project)
    (jlist_fe jlist_be : Outcome (list ProcessController.Pm2Process)) :
  pr_view E w = Returns r →
  projects r !! n = Some project →
  ProcessController.queried (frontend project) = None →
  ProcessController.queried (backend project) = None →
  ∃ st, (ProcessController.get_project_status E jlist_fe jlist_be n w).1 =
          Returns (Some st) ∧
        ProcessController.frontend_status st = None ∧
        ProcessController.backend_status st = None ∧
        ProcessController.overall_status st = "stopped".
Proof.
  intros Hview Hp Hfe Hbe.
  unfold ProcessController.get_project_status, ProjectRegistry.get_project.
  unfold_monad. rewrite (pr_registry_returns E w r Hview). simpl.
  rewrite Hp, Hfe, Hbe. simpl. by eexists.
Qed.

Lemma project_without_services_is_stopped_witness :
  ∃ st, (ProcessController.get_project_status test_env (Raises PM2Error)
           (Raises PM2Error) "app" app_world).1 = Returns (Some st) ∧
        ProcessController.frontend_status st = None ∧
        ProcessController.backend_status st = None ∧
        ProcessController.overall_status st = "stopped".
Proof.
  apply (project_without_services_is_stopped test_env app_world app_registry
           "app" app_project).
  - vm_compute. reflexivity.
  - vm_compute. reflexivity.
  - reflexivity.
  - reflexivity.
Defined.

(** X30.  [get_project_info] for a registered project: the dictionary
    carries the project's name; for a service that is configured it carries
    the service's port, and the URL is the one the status of that service
    carries, whatever the supervisor lists; a service that is not configured
    is reported without port, command and URL, and as not enabled. *)
Theorem project_info_url_agrees (E : Env) (w : World) (r : RegistryModel)
    (n : string) (project : Project) :
  pr_view E w = Returns r →
  projects r !! n = Some project →
  ∃ info,
    (ProjectRegistry.get_project_info E n w).1 = Returns (Some info) ∧
    ProjectRegistry.info_name info = name project ∧
    (∀ s processes pm2_name,
       frontend project = Some s →
       ProjectRegistry.info_port (ProjectRegistry.info_frontend info) = port s ∧
       ProjectRegistry.info_url (ProjectRegistry.info_frontend info) =
         ProcessController.url
           (ProcessController._get_service_status processes pm2_name (port s))) ∧
    (∀ s processes pm2_name,
       backend project = Some s →
       ProjectRegistry.info_port (ProjectRegistry.info_backend info) = port s ∧
       ProjectRegistry.info_url (ProjectRegistry.info_backend info) =
         ProcessController.url
           (ProcessController._get_service_status processes pm2_name (port s))) ∧
    (frontend project = None →
     ProjectRegistry.info_frontend info =
       ProjectRegistry.mk_ServiceInfo None None false None) ∧
    (backend project = None →
     ProjectRegistry.info_backend info =
       ProjectRegistry.mk_ServiceInfo None None false None).
Proof.
  intros Hview Hp.
  unfold ProjectRegistry.get_project_info, ProjectRegistry.get_project.
  unfold_monad. rewrite (pr_registry_returns E w r Hview). simpl.
  rewrite Hp. simpl. eexists. split; [done|]. split; [done|].
  unfold ProjectRegistry.project_info, ProjectRegistry.service_info. simpl.
  split_and!.
  - intros s processes pm2_name ->. split; [done|].
    unfold ProcessController._get_service_status.
    by destruct (ProcessController._get_pm2_process processes pm2_name).
  - intros s processes pm2_name ->. split; [done|].
    unfold ProcessController._get_service_status.
    by destruct (ProcessController._get_pm2_process processes pm2_name).
  - by intros ->.
  - by intros ->.
Qed.

Lemma project_info_url_agrees_witness :
  ∃ info,
    (ProjectRegistry.get_project_info test_env "shop" shop_world).1 =
      Returns (Some info) ∧
    ProjectRegistry.info_name info = name shop_project ∧
    (∀ s processes pm2_name,
       frontend shop_project = Some s →
       ProjectRegistry.info_port (ProjectRegistry.info_frontend info) = port s ∧
       ProjectRegistry.info_url (ProjectRegistry.info_frontend info) =
         ProcessController.url
           (ProcessController._get_service_status processes pm2_name (port s))) ∧
    (∀ s processes pm2_name,
       backend shop_project = Some s →
       ProjectRegistry.info_port (ProjectRegistry.info_backend info) = port s ∧
       ProjectRegistry.info_url (ProjectRegistry.info_backend info) =
         ProcessController.url
           (ProcessController._get_service_status processes pm2_name (port s))) ∧
    (frontend shop_project = None →
     ProjectRegistry.info_frontend info =
       ProjectRegistry.mk_ServiceInfo None None false None) ∧
    (backend shop_project = None →
     ProjectRegistry.info_backend info =
       ProjectRegistry.mk_ServiceInfo None None false None).
Proof.
  apply (project_info_url_agrees test_env shop_world shop_registry "shop"
           shop_project).
  - vm_compute. reflexivity.
  - vm_compute. reflexivity.
Defined.
